(** * tinyDVR: a shallow embedding of the supervisor in [tinyDVR.py]

    The development follows the source file top to bottom: configuration
    constants, the file-inventory helpers ([list_recording_files],
    [folder_size_bytes], [newest_recording_mtime]), the storage reclaimer
    ([enforce_storage_cap]), the status publisher ([write_status]) and one
    iteration of the [while True] loop of [main] ([tick]).

    Modelling choices.
    - Python [int] is [Z]; Python [float] (time stamps, seconds) is the
      exact rational [Q], so floating-point rounding is not modelled.
    - The program touches one directory.  A [world] holds the state of that
      directory, the wall clock and the trace of the side effects performed
      so far.  Every entry of the directory carries what [os.stat] and
      [os.remove] answer for it, which is how a file that vanishes under the
      supervisor, or one that cannot be deleted, is represented.
    - Code that can raise lives in the monad [M]: a computation maps a world
      to a result ([Ok] value or [Raise]d exception) and the world reached.
      Effects performed before an exception are kept, as in Python. *)

From Stdlib Require Import ZArith QArith Qround List String Ascii Bool Lia
  Lqa Permutation DecimalString.
Import ListNotations.

Local Open Scope Z_scope.

(* ------------------------------------------------------------------ *)
(** ** Exceptions and the effect monad *)

(** The [OSError] subclasses that the calls of the program can raise. *)
Inductive exn : Type :=
| FileNotFoundError
| PermissionError
| IsADirectoryError
| NotADirectoryError.

Inductive res (A : Type) : Type :=
| Ok (a : A)
| Raise (e : exn).
Arguments Ok {A} a.
Arguments Raise {A} e.

Definition is_FileNotFoundError (e : exn) : bool :=
  match e with FileNotFoundError => true | _ => false end.

(** JSON values of a status dictionary. *)
Inductive json : Type :=
| JNull
| JBool (b : bool)
| JInt (z : Z)
| JFloat (q : Q)
| JStr (s : string)
| JTime (t : Q).  (* the ISO-8601 string of local time t *)

(** A Python [dict] with string keys, in insertion order. *)
Definition status : Type := list (string * json).

(** A segment as [list_recording_files] returns it:
    [(full_path, mtime, size_bytes)]. *)
Definition file : Type := (string * Q * Z)%type.
Definition f_path (f : file) : string := fst (fst f).
Definition f_mtime (f : file) : Q := snd (fst f).
Definition f_size (f : file) : Z := snd f.

(** One name of the directory, with the answers of the operating system. *)
Record dirent : Type := mkDirent {
  d_name : string;
  (** [os.stat]: [(st_mtime, st_size)], or the exception raised. *)
  d_stat : res (Q * Z);
  (** [os.remove]: [None] when the file is deleted, else the exception
      raised; [Some FileNotFoundError] is a file that vanished after it was
      listed. *)
  d_remove : option exn
}.

(** Observable side effects.  [w_trace] lists them oldest first, each with
    the clock reading at which it happened. *)
Inductive event : Type :=
| EvRemove (p : string) (r : option exn)  (* os.remove(p) and its outcome *)
| EvReclaim (deleted : Z)                 (* enforce_storage_cap returned *)
| EvWriteStatus (s : status)              (* status.json replaced by s *)
| EvSleep (d : Q)                         (* time.sleep(d) returned *)
| EvPoll (rc : option Z)                  (* proc.poll() returned rc *)
| EvPopen (pid : Z).                      (* subprocess.Popen returned *)

Record world : Type := mkWorld {
  (** Path of the directory. *)
  w_root : string;
  (** Its entries in [os.listdir] order, or the exception that listing it
      raises ([FileNotFoundError] when the directory is absent). *)
  w_dir : res (list dirent);
  (** [time.time()]. *)
  w_clock : Q;
  w_trace : list (Q * event)
}.

Definition M (A : Type) : Type := world -> res A * world.

Definition ret {A} (a : A) : M A := fun w => (Ok a, w).
Definition raise {A} (e : exn) : M A := fun w => (Raise e, w).
Definition bind {A B} (m : M A) (k : A -> M B) : M B :=
  fun w => match m w with
           | (Ok a, w') => k a w'
           | (Raise e, w') => (Raise e, w')
           end.
(** [try: m  except: h] where the handler sees the exception. *)
Definition try_except {A} (m : M A) (h : exn -> M A) : M A :=
  fun w => match m w with
           | (Ok a, w') => (Ok a, w')
           | (Raise e, w') => h e w'
           end.

Declare Scope dvr_scope.
Delimit Scope dvr_scope with dvr.
Notation "x <- m ;; k" := (bind m (fun x => k))
  (at level 61, m at next level, right associativity) : dvr_scope.
Notation "m ;;; k" := (bind m (fun _ => k))
  (at level 61, right associativity) : dvr_scope.
Local Open Scope dvr_scope.

Definition log (e : event) : M unit :=
  fun w => (Ok tt, mkWorld (w_root w) (w_dir w) (w_clock w) (w_trace w ++ [(w_clock w, e)])).

Definition set_dir (es : list dirent) (w : world) : world :=
  mkWorld (w_root w) (Ok es) (w_clock w) (w_trace w).

(* ------------------------------------------------------------------ *)
(** ** Strings and paths *)

(** [s.endswith(suffix)]. *)
Fixpoint endswith (s suffix : string) : bool :=
  if String.eqb s suffix then true
  else match s with
       | EmptyString => false
       | String _ s' => endswith s' suffix
       end.

(** [os.path.join(a, b)] on POSIX. *)
Definition os_path_join (a b : string) : string :=
  if prefix "/" b then b
  else if (String.eqb a EmptyString || endswith a "/")%bool then (a ++ b)%string
  else (a ++ "/" ++ b)%string.

Definition d_path (root : string) (d : dirent) : string :=
  os_path_join root (d_name d).

(* ------------------------------------------------------------------ *)
(** ** Operating-system calls *)

Definition os_listdir (dir : string) : M (list string) :=
  fun w => if String.eqb dir (w_root w)
           then match w_dir w with
                | Ok es => (Ok (map d_name es), w)
                | Raise e => (Raise e, w)
                end
           else (Raise FileNotFoundError, w).

Definition lookup (p : string) (w : world) : option dirent :=
  match w_dir w with
  | Ok es => find (fun d => String.eqb (d_path (w_root w) d) p) es
  | Raise _ => None
  end.

Definition os_stat (p : string) : M (Q * Z) :=
  fun w => match lookup p w with
           | Some d => (d_stat d, w)
           | None => (Raise FileNotFoundError, w)
           end.

Definition without (root p : string) (es : list dirent) : list dirent :=
  filter (fun d => negb (String.eqb (d_path root d) p)) es.

Definition unlink (p : string) (w : world) : world :=
  match w_dir w with
  | Ok es => set_dir (without (w_root w) p es) w
  | Raise _ => w
  end.

Definition remove_outcome (p : string) (w : world) : option exn :=
  match lookup p w with
  | Some d => d_remove d
  | None => Some FileNotFoundError
  end.

(** [os.remove(p)].  A successful call unlinks the entry; so does a
    [FileNotFoundError] on a listed entry, which is gone by then; any other
    exception leaves the directory as it is. *)
Definition os_remove (p : string) : M unit :=
  fun w =>
    let r := remove_outcome p w in
    let w1 := match r with
              | None => unlink p w
              | Some e => if is_FileNotFoundError e then unlink p w else w
              end in
    let w2 := mkWorld (w_root w1) (w_dir w1) (w_clock w1)
                      (w_trace w1 ++ [(w_clock w1, EvRemove p r)]) in
    match r with
    | None => (Ok tt, w2)
    | Some e => (Raise e, w2)
    end.

(* ------------------------------------------------------------------ *)
(** ** Configuration *)

Definition OUTPUT_DIR : string := "./recordings".
Definition SEGMENT_SECONDS : Z := 60.
Definition MAX_STORAGE_GB : Z := 10.
Definition CHECK_EVERY_SECONDS : Q := 10.
Definition NO_PROGRESS_TIMEOUT_SECONDS : Q := 45.
Definition RESTART_BACKOFF_SECONDS : Q := 5.
Definition RTSP_TRANSPORT : string := "tcp".
Definition ENABLE_RESOURCE_LOG : bool := true.

(** [int(gb * 1024 * 1024 * 1024)]; [int] truncates towards zero. *)
Definition bytes_from_gb (gb : Q) : Z :=
  let x := (gb * 1024 * 1024 * 1024)%Q in
  Z.quot (Qnum x) (Zpos (Qden x)).

(* ------------------------------------------------------------------ *)
(** ** File inventory *)

(** Stable insertion by the key [x[1]]: [x] goes before the first element
    whose mtime is not smaller, and [sort_by_mtime] inserts from the right,
    so equal keys keep their input order as [list.sort] guarantees. *)
Fixpoint insert_by_mtime (x : file) (l : list file) : list file :=
  match l with
  | [] => [x]
  | y :: l' => if Qle_bool (f_mtime x) (f_mtime y) then x :: y :: l'
               else y :: insert_by_mtime x l'
  end.

Fixpoint sort_by_mtime (l : list file) : list file :=
  match l with
  | [] => []
  | x :: l' => insert_by_mtime x (sort_by_mtime l')
  end.

(** The [for name in os.listdir(output_dir)] loop, on the names still to
    visit and the list [files] built so far. *)
Fixpoint scan (output_dir : string) (names : list string) (files : list file)
  : M (list file) :=
  match names with
  | [] => ret files
  | name :: names' =>
      if endswith name ".mp4"%string then
        let p := os_path_join output_dir name in
        files' <- try_except
                    (st <- os_stat p ;; ret (files ++ [(p, fst st, snd st)]))
                    (fun e => if is_FileNotFoundError e then ret files
                              else raise e) ;;
        scan output_dir names' files'
      else scan output_dir names' files
  end.

Definition list_recording_files (output_dir : string) : M (list file) :=
  try_except
    (names <- os_listdir output_dir ;;
     files <- scan output_dir names [] ;;
     ret (sort_by_mtime files))
    (fun e => if is_FileNotFoundError e then ret [] else raise e).

(** [sum(sz for _, _, sz in files)]. *)
Definition sum_sizes (files : list file) : Z :=
  fold_left (fun acc f => acc + f_size f) files 0.

Definition folder_size_bytes (output_dir : string) : M Z :=
  files <- list_recording_files output_dir ;;
  ret (sum_sizes files).

(** [None] of Python is [None] here. *)
Definition newest_recording_mtime (output_dir : string) : M (option Q) :=
  files <- list_recording_files output_dir ;;
  match files with
  | [] => ret None
  | _ => ret (Some (f_mtime (last files (EmptyString, 0%Q, 0))))
  end.

(* ------------------------------------------------------------------ *)
(** ** Storage reclaimer *)

(** The [while total > max_bytes and files:] loop.  [files.pop(0)] takes
    the head, so the recursion is on [files].  The two [print] calls of
    the body are left out. *)
Fixpoint reclaim_loop (max_bytes : Z) (files : list file) (total deleted : Z)
  : M Z :=
  if total >? max_bytes then
    match files with
    | [] => ret deleted
    | f :: files' =>
        fun w =>
          match os_remove (f_path f) w with
          | (Ok _, w') =>
              reclaim_loop max_bytes files' (total - f_size f) (deleted + 1) w'
          | (Raise e, w') =>
              if is_FileNotFoundError e
              then reclaim_loop max_bytes files' total deleted w'  (* pass *)
              else (Ok deleted, w')                                (* break *)
          end
    end
  else ret deleted.

Definition enforce_storage_cap (output_dir : string) (max_bytes : Z) : M Z :=
  files <- list_recording_files output_dir ;;
  reclaim_loop max_bytes files (sum_sizes files) 0.

(* ------------------------------------------------------------------ *)
(** ** Status publisher and main loop *)

(** [round(x)] of Python: to the nearest integer, ties to the even one. *)
Definition round_half_even (x : Q) : Z :=
  let f := Qfloor x in
  match (x - inject_Z f ?= 1 # 2)%Q with
  | Lt => f
  | Gt => f + 1
  | Eq => if Z.even f then f else f + 1
  end.

(** [round(x, 1)]. *)
Definition py_round1 (x : Q) : Q :=
  (inject_Z (round_half_even (x * 10)) / 10)%Q.

(** What [psutil] yields in lines 299-301: [Process(pid)] or [cpu_percent]
    raised; [cpu_percent] returned and [memory_info] raised; both returned
    (the memory as [rss] bytes). *)
Inductive metrics : Type :=
| MetricsNone
| MetricsCpu (cpu : Q)
| MetricsBoth (cpu : Q) (rss : Z).

(** What the surroundings decide during one iteration of the loop. *)
Record env : Type := mkEnv {
  (** Time by which [time.sleep(CHECK_EVERY_SECONDS)] overshoots. *)
  e_overrun : Q;
  (** What the capture process and other programs do to the directory
      while the supervisor sleeps. *)
  e_capture : res (list dirent) -> res (list dirent);
  (** [proc.poll()]. *)
  e_poll : option Z;
  (** [tail_stderr(proc)]. *)
  e_stderr_tail : string;
  (** Time by which [time.sleep(RESTART_BACKOFF_SECONDS)] overshoots. *)
  e_backoff_overrun : Q;
  (** [subprocess.Popen(...)]: the pid of the child, or the exception. *)
  e_popen : res Z;
  e_metrics : metrics;
  (** [os.path.abspath(OUTPUT_DIR)]. *)
  e_abspath : string
}.

(** The local variables of [main] that live across iterations. *)
Record locals : Type := mkLocals {
  proc_pid : Z;
  last_ok_time : Q
}.

Definition time_time : M Q := fun w => (Ok (w_clock w), w).

Definition time_sleep (d overrun : Q) : M unit :=
  fun w => log (EvSleep d)
             (mkWorld (w_root w) (w_dir w) (w_clock w + d + overrun)%Q
                      (w_trace w)).

Definition surroundings (f : res (list dirent) -> res (list dirent)) : M unit :=
  fun w => (Ok tt, mkWorld (w_root w) (f (w_dir w)) (w_clock w) (w_trace w)).

Definition proc_poll (rc : option Z) : M (option Z) :=
  log (EvPoll rc) ;;; ret rc.

Definition subprocess_Popen (r : res Z) : M Z :=
  match r with
  | Ok pid => log (EvPopen pid) ;;; ret pid
  | Raise e => raise e
  end.

Definition option_json {A} (f : A -> json) (o : option A) : json :=
  match o with Some a => f a | None => JNull end.

Section Publisher.

(** Number of bytes that [json.dump(status, f, indent=2)] writes. *)
Variable json_len : status -> Z.

(** [open(tmp, "w")] needs the directory; the dump fills [tmp];
    [os.replace(tmp, final)] leaves one entry, [status.json].  In a
    directory that is there the three steps are taken to succeed; what
    happens when one of them fails is in [write_status_steps]. *)
Definition write_status (output_dir : string) (st : status) : M unit :=
  let tmp := os_path_join output_dir "status.json.tmp" in
  let final := os_path_join output_dir "status.json" in
  fun w =>
    if String.eqb output_dir (w_root w) then
      match w_dir w with
      | Raise e => (Raise e, w)
      | Ok es =>
          let entry := mkDirent "status.json" (Ok (w_clock w, json_len st))
                                None in
          log (EvWriteStatus st)
              (set_dir (without (w_root w) final (without (w_root w) tmp es)
                          ++ [entry]) w)
      end
    else (Raise FileNotFoundError, w).

(** The dictionary of lines 258-264. *)
Definition death_status (now : Q) (stderr_tail : string) : status :=
  [ ("recording", JBool false);
    ("reason", JStr "ffmpeg_exited");
    ("timestamp", JTime now);
    ("ffmpeg_pid", JNull);
    ("ffmpeg_stderr_tail", JStr stderr_tail) ]%string.

(** Lines 283-289: [(healthy, reason, last_ok_time)] after the check. *)
Definition health_check (newest_mtime : option Q) (now last_ok : Q)
  : bool * string * Q :=
  match newest_mtime with
  | Some m =>
      if Qle_bool (now - m) NO_PROGRESS_TIMEOUT_SECONDS
      then (true, "ok"%string, now)
      else (false, "no_new_segments"%string, last_ok)
  | None => (false, "no_new_segments"%string, last_ok)
  end.

(** Lines 295-303: [(cpu, mem_mb)]. *)
Definition resource_usage (m : metrics) : option Q * option Q :=
  if ENABLE_RESOURCE_LOG then
    match m with
    | MetricsNone => (None, None)
    | MetricsCpu cpu => (Some cpu, None)
    | MetricsBoth cpu rss => (Some cpu, Some (inject_Z rss / (1024 * 1024))%Q)
    end
  else (None, None).

(** The dictionary of lines 305-320. *)
Definition tick_status (healthy : bool) (reason : string) (stamp : Q)
  (abspath : string) (folder_bytes : Z) (newest_mtime : option Q)
  (now last_ok : Q) (pid : Z) (cpu mem_mb : option Q) (deleted : Z) : status :=
  [ ("recording", JBool healthy);
    ("reason", JStr reason);
    ("timestamp", JTime stamp);
    ("rtsp_transport", JStr RTSP_TRANSPORT);
    ("segment_seconds", JInt SEGMENT_SECONDS);
    ("max_storage_gb", JInt MAX_STORAGE_GB);
    ("output_dir", JStr abspath);
    ("folder_size_bytes", JInt folder_bytes);
    ("newest_segment_mtime", option_json JFloat newest_mtime);
    ("seconds_since_last_ok", JFloat (py_round1 (now - last_ok)));
    ("ffmpeg_pid", JInt pid);
    ("ffmpeg_cpu_percent", option_json JFloat cpu);
    ("ffmpeg_mem_mb", option_json JFloat mem_mb);
    ("deleted_files_this_check", JInt deleted) ]%string.

(** Lines 254-277, the body of [if proc.poll() is not None:]; it ends in
    [continue], so its result is the state of the next iteration. *)
Definition report_death (e : env) : M locals :=
  let stderr_tail := e_stderr_tail e in
  stamp <- time_time ;;
  write_status OUTPUT_DIR (death_status stamp stderr_tail) ;;;
  time_sleep RESTART_BACKOFF_SECONDS (e_backoff_overrun e) ;;;
  pid <- subprocess_Popen (e_popen e) ;;
  now <- time_time ;;
  ret (mkLocals pid now).

(** Lines 279-327, the rest of the body, prints left out. *)
Definition evaluate (e : env) (s : locals) : M locals :=
  let max_bytes := bytes_from_gb (inject_Z MAX_STORAGE_GB) in
  newest_mtime <- newest_recording_mtime OUTPUT_DIR ;;
  now <- time_time ;;
  let '(healthy, reason, last_ok) :=
    health_check newest_mtime now (last_ok_time s) in
  deleted <- enforce_storage_cap OUTPUT_DIR max_bytes ;;
  log (EvReclaim deleted) ;;;
  folder_bytes <- folder_size_bytes OUTPUT_DIR ;;
  let '(cpu, mem_mb) := resource_usage (e_metrics e) in
  stamp <- time_time ;;
  write_status OUTPUT_DIR
    (tick_status healthy reason stamp (e_abspath e) folder_bytes
                 newest_mtime now last_ok (proc_pid s) cpu mem_mb deleted) ;;;
  ret (mkLocals (proc_pid s) last_ok).

(** One iteration of [while True:] (lines 250-327). *)
Definition tick (e : env) (s : locals) : M locals :=
  time_sleep CHECK_EVERY_SECONDS (e_overrun e) ;;;
  surroundings (e_capture e) ;;;
  rc <- proc_poll (e_poll e) ;;
  match rc with
  | Some _ => report_death e
  | None => evaluate e s
  end.

(** The loop, for as many iterations as there are environments. *)
Fixpoint run (es : list env) (s : locals) : M locals :=
  match es with
  | [] => ret s
  | e :: es' => s' <- tick e s ;; run es' s'
  end.

End Publisher.

(* ================================================================== *)
(** * Vocabulary of the properties *)

(** The fields of a StatusRecord as section 3 of the specification
    enumerates them, each under the key the program uses for it:
    healthy, reason, observedAt, folderSizeBytes, newestSegmentTimestamp,
    secondsSinceLastHealthy, deletedThisTick, processId, cpuPercent,
    memoryMb. *)
Definition spec_status_fields : list string :=
  [ "recording"; "reason"; "timestamp"; "folder_size_bytes";
    "newest_segment_mtime"; "seconds_since_last_ok";
    "deleted_files_this_check"; "ffmpeg_pid"; "ffmpeg_cpu_percent";
    "ffmpeg_mem_mb" ]%string.

Definition keys (st : status) : list string := map fst st.

(** The inventory as a function of the entries: what [scan] appends for
    the entries [es], when no [os.stat] raises anything but
    [FileNotFoundError]. *)
Definition segment_of (root : string) (d : dirent) : list file :=
  if endswith (d_name d) ".mp4" then
    match d_stat d with
    | Ok st => [(d_path root d, fst st, snd st)]
    | Raise _ => []
    end
  else [].

Definition inventory (root : string) (es : list dirent) : list file :=
  flat_map (segment_of root) es.

(** Ascending modification times. *)
Inductive ascending : list file -> Prop :=
| asc_nil : ascending []
| asc_cons x l :
    Forall (fun y => (f_mtime x <= f_mtime y)%Q) l ->
    ascending l -> ascending (x :: l).

(** Number of iterations of the loop of [enforce_storage_cap] when every
    deletion succeeds. *)
Fixpoint evict_count (max_bytes : Z) (files : list file) (total : Z) : nat :=
  if total >? max_bytes then
    match files with
    | [] => O
    | f :: files' => S (evict_count max_bytes files' (total - f_size f))
    end
  else O.

Definition without_all (root : string) (ps : list string) (es : list dirent)
  : list dirent :=
  fold_left (fun es p => without root p es) ps es.

Definition removed_ok (t : Q) (f : file) : Q * event :=
  (t, EvRemove (f_path f) None).

Definition is_remove (te : Q * event) : bool :=
  match snd te with EvRemove _ _ => true | _ => false end.

(** Directories as a file system has them: no path twice. *)
Definition wf_dir (root : string) (es : list dirent) : Prop :=
  NoDup (map (d_path root) es).

(** No [os.stat] of a segment raises anything but [FileNotFoundError]. *)
Definition readable (es : list dirent) : Prop :=
  forall d e, In d es -> endswith (d_name d) ".mp4" = true ->
              d_stat d = Raise e -> is_FileNotFoundError e = true.

(** ** Scenario A of the specification

    Segments of 2 GB under the default cap of 10 GB.  The directory lists
    them out of order; every one can be read and deleted. *)
Definition two_GB : Z := 2 * 1024 * 1024 * 1024.

Definition segment (name : string) (mtime : Q) (size : Z) : dirent :=
  mkDirent name (Ok (mtime, size)) None.

Definition five_segments : list dirent :=
  [ segment "2024-01-01_00-03-00.mp4" 400 two_GB;
    segment "2024-01-01_00-01-00.mp4" 200 two_GB;
    segment "2024-01-01_00-04-00.mp4" 500 two_GB;
    segment "2024-01-01_00-00-00.mp4" 100 two_GB;
    segment "2024-01-01_00-02-00.mp4" 300 two_GB ].

Definition sixth_segment : dirent :=
  segment "2024-01-01_00-05-00.mp4" 600 two_GB.

Definition scenario_A5 : world :=
  mkWorld OUTPUT_DIR (Ok five_segments) 1000 [].

Definition scenario_A6 : world :=
  mkWorld OUTPUT_DIR (Ok (sixth_segment :: five_segments)) 1000 [].

Definition default_cap : Z := bytes_from_gb (inject_Z MAX_STORAGE_GB).

Definition scenario_A6_files : list file :=
  Eval vm_compute in sort_by_mtime (inventory OUTPUT_DIR (sixth_segment :: five_segments)).

(** ** Describing a pass by its attempts *)

(** An attempt is a file handed to [os.remove], with the outcome. *)
Definition attempt : Type := (file * option exn)%type.

Definition attempt_event (t : Q) (a : attempt) : Q * event :=
  (t, EvRemove (f_path (fst a)) (snd a)).

Definition succeeded (a : attempt) : bool :=
  match snd a with None => true | Some _ => false end.

(** The deletion failed, and not because the file was missing. *)
Definition faulted (a : attempt) : bool :=
  match snd a with
  | Some e => negb (is_FileNotFoundError e)
  | None => false
  end.

(** A fault is the last attempt of its pass. *)
Definition fault_last (atts : list attempt) : Prop :=
  forall a x b, atts = a ++ x :: b -> faulted x = true -> b = [].

Definition dir_without_all (root : string) (ps : list string)
  (dir : res (list dirent)) : res (list dirent) :=
  match dir with
  | Ok es => Ok (without_all root ps es)
  | Raise e => Raise e
  end.

Definition attempt_path (a : attempt) : string := f_path (fst a).

(** The attempt left no entry behind: the file was deleted, or it was gone
    already. *)
Definition unlinked (a : attempt) : bool := negb (faulted a).

(** The running [total] of the loop after the attempts [atts]: only
    successful deletions are subtracted. *)
Definition total_after (total : Z) (atts : list attempt) : Z :=
  total - sum_sizes (map fst (filter succeeded atts)).

(** The three ways in which the loop ends: the [break] after a fault, no
    file left, or a total that is no longer above the cap. *)
Definition pass_ends (max_bytes : Z) (files : list file) (total : Z)
  (atts : list attempt) : Prop :=
  (exists pre a, atts = pre ++ [a] /\ faulted a = true)
  \/ List.length atts = List.length files
  \/ total_after total atts <= max_bytes.

(** ** A pass with a vanished file and an undeletable one

    Four segments of 5 bytes under a cap of 2 bytes: the oldest is gone
    when its turn comes, the third cannot be deleted. *)
Definition troubled_segments : list dirent :=
  [ mkDirent "a.mp4" (Ok (1%Q, 5)) (Some FileNotFoundError);
    mkDirent "b.mp4" (Ok (2%Q, 5)) None;
    mkDirent "c.mp4" (Ok (3%Q, 5)) (Some PermissionError);
    mkDirent "d.mp4" (Ok (4%Q, 5)) None ].

Definition troubled : world := mkWorld "rec" (Ok troubled_segments) 50 [].

Definition troubled_files : list file :=
  Eval vm_compute in sort_by_mtime (inventory "rec" troubled_segments).

(** What the pass over [troubled] tries, in order: a.mp4 is gone, b.mp4 is
    deleted, c.mp4 cannot be deleted; d.mp4 is never tried. *)
Definition troubled_attempts : list attempt :=
  [ (("rec/a.mp4"%string, 1%Q, 5), Some FileNotFoundError);
    (("rec/b.mp4"%string, 2%Q, 5), None);
    (("rec/c.mp4"%string, 3%Q, 5), Some PermissionError) ].

(** ** The status file and its temporary sibling *)

Definition is_status_name (name : string) : bool :=
  (String.eqb name "status.json" || String.eqb name "status.json.tmp")%bool.

(** The world without the entries of the status publisher. *)
Definition strip_status (w : world) : world :=
  mkWorld (w_root w)
    (match w_dir w with
     | Ok es => Ok (filter (fun d => negb (is_status_name (d_name d))) es)
     | Raise e => Raise e
     end)
    (w_clock w) (w_trace w).

(** A directory over its cap of 2 bytes that also holds the status file
    and its temporary sibling, both larger than any segment. *)
Definition status_entry : dirent :=
  mkDirent "status.json" (Ok (7%Q, 400)) None.

Definition status_tmp_entry : dirent :=
  mkDirent "status.json.tmp" (Ok (8%Q, 100)) None.

Definition with_status : world :=
  mkWorld "rec"
    (Ok [ status_entry;
          mkDirent "x.mp4" (Ok (1%Q, 5)) None;
          status_tmp_entry;
          mkDirent "y.mp4" (Ok (2%Q, 5)) None ])
    50 [].

(** A path that [list_recording_files] builds from a segment name. *)
Definition segment_path (output_dir p : string) : Prop :=
  exists name, endswith name ".mp4" = true /\ p = os_path_join output_dir name.

(** ** Points of an iteration *)

(** The world in which [tick] evaluates the answer of [proc.poll()]:
    the sleep is over, the surroundings have acted, the poll is logged. *)
Definition woken (e : env) (w : world) : world :=
  let t0 := (w_clock w + CHECK_EVERY_SECONDS + e_overrun e)%Q in
  mkWorld (w_root w) (e_capture e (w_dir w)) t0
          ((w_trace w ++ [(t0, EvSleep CHECK_EVERY_SECONDS)])
           ++ [(t0, EvPoll (e_poll e))]).

(** Value of a key of a dictionary. *)
Fixpoint get (key : string) (st : status) : option json :=
  match st with
  | [] => None
  | (k, v) :: st' => if String.eqb k key then Some v else get key st'
  end.

(** The events of a trace that write the status file. *)
Definition is_write (te : Q * event) : bool :=
  match snd te with EvWriteStatus _ => true | _ => false end.

Definition is_reclaim (te : Q * event) : bool :=
  match snd te with EvReclaim _ => true | _ => false end.

(** The directory after [write_status]. *)
Definition published_dir (json_len : status -> Z) (root : string) (t : Q)
  (st : status) (es : list dirent) : list dirent :=
  without root (os_path_join root "status.json")
          (without root (os_path_join root "status.json.tmp") es)
  ++ [mkDirent "status.json" (Ok (t, json_len st)) None].

(** An exited subprocess and a directory in which the report can be
    written. *)
Definition exited_env : env :=
  mkEnv (1 # 100) (fun dir => dir) (Some 1) "Connection refused" (1 # 50)
        (Ok 4243) MetricsNone "/srv/recordings".

Definition plain_json_len (st : status) : Z := 0.

Definition start_locals : locals := mkLocals 4242 1000.

(** The world once the return of [enforce_storage_cap] is logged. *)
Definition reclaimed (deleted : Z) (w : world) : world :=
  mkWorld (w_root w) (w_dir w) (w_clock w)
          (w_trace w ++ [(w_clock w, EvReclaim deleted)]).

(** The record that [evaluate] assembles at time [now] from the newest
    modification time, the count of the pass and the folder size. *)
Definition evaluated_status (e : env) (s : locals) (newest : option Q)
  (now : Q) (deleted folder_bytes : Z) : status :=
  let hc := health_check newest now (last_ok_time s) in
  let ru := resource_usage (e_metrics e) in
  tick_status (fst (fst hc)) (snd (fst hc)) now (e_abspath e) folder_bytes
              newest now (snd hc) (proc_pid s) (fst ru) (snd ru) deleted.

(** The events that a computation added to the trace of [w]. *)
Definition new_events (w w' : world) : list (Q * event) :=
  skipn (List.length (w_trace w)) (w_trace w').

(** Every write of the status file comes after the return of a
    reclamation pass in the same list of events. *)
Definition publication_follows_reclaim (evs : list (Q * event)) : Prop :=
  forall a te b,
    evs = a ++ te :: b -> is_write te = true -> existsb is_reclaim a = true.

(** The keys of the two dictionaries of [main], in source order. *)
Definition death_keys : list string :=
  [ "recording"; "reason"; "timestamp"; "ffmpeg_pid";
    "ffmpeg_stderr_tail" ]%string.

Definition tick_keys : list string :=
  [ "recording"; "reason"; "timestamp"; "rtsp_transport"; "segment_seconds";
    "max_storage_gb"; "output_dir"; "folder_size_bytes";
    "newest_segment_mtime"; "seconds_since_last_ok"; "ffmpeg_pid";
    "ffmpeg_cpu_percent"; "ffmpeg_mem_mb";
    "deleted_files_this_check" ]%string.

(** [evaluate], started in [w], found [newest], deleted [deleted] files,
    measured [fb] bytes afterwards and left the locals [s']. *)
Definition evaluated (e : env) (s : locals) (w : world) (newest : option Q)
  (deleted fb : Z) (s' : locals) : Prop :=
  newest_recording_mtime OUTPUT_DIR w = (Ok newest, w)
  /\ (exists w2,
        enforce_storage_cap OUTPUT_DIR default_cap w = (Ok deleted, w2)
        /\ folder_size_bytes OUTPUT_DIR (reclaimed deleted w2)
           = (Ok fb, reclaimed deleted w2))
  /\ s' = mkLocals (proc_pid s)
                   (snd (health_check newest (w_clock w) (last_ok_time s))).

(** The keys that are configuration, not fields of a StatusRecord. *)
Definition config_keys : list string :=
  [ "rtsp_transport"; "segment_seconds"; "max_storage_gb";
    "output_dir" ]%string.

(** The event at position [i] of a list; a sleep of no time when there is
    none. *)
Definition event_at (i : nat) (evs : list (Q * event)) : Q * event :=
  nth i evs (0%Q, EvSleep 0).

Definition written (te : Q * event) : status :=
  match snd te with EvWriteStatus st => st | _ => [] end.

(** A live subprocess whose memory cannot be sampled. *)
Definition alive_env : env :=
  mkEnv (1 # 100) (fun dir => dir) None EmptyString 0 (Ok 0)
        (MetricsCpu (7 # 2)) "/srv/recordings".

(** The value under [seconds_since_last_ok]. *)
Definition seconds_since (st : status) : Q :=
  match get "seconds_since_last_ok" st with
  | Some (JFloat q) => q
  | _ => 0%Q
  end.

(** Each number is smaller than the next. *)
Inductive rising : list Q -> Prop :=
| rising_nil : rising []
| rising_one x : rising [x]
| rising_cons x y l : (x < y)%Q -> rising (y :: l) -> rising (x :: y :: l).

(** The records written in a list of events, oldest first. *)
Definition records (evs : list (Q * event)) : list status :=
  map written (filter is_write evs).

(** A directory whose newest segment is exactly 45 seconds old when the
    supervisor wakes up at time 1010. *)
Definition punctual_env : env :=
  mkEnv 0 (fun dir => dir) None EmptyString 0 (Ok 0) MetricsNone
        "/srv/recordings".

Definition at_the_limit : world :=
  mkWorld OUTPUT_DIR (Ok [segment "2024-01-01_00-00-00.mp4" 965 5]) 1000 [].

Definition empty_directory : world := mkWorld OUTPUT_DIR (Ok []) 1000 [].

(** ** Further directories *)

(** A segment whose [os.stat] is refused. *)
Definition unreadable : world :=
  mkWorld "rec"
    (Ok [ mkDirent "a.mp4" (Ok (1%Q, 5)) None;
          mkDirent "b.mp4" (Raise PermissionError) None ])
    50 [].

(** Segments written in the same second, a vanished one, and a file that
    is no segment. *)
Definition crowded_entries : list dirent :=
  [ mkDirent "c.mp4" (Ok (2%Q, 7)) None;
    mkDirent "notes.txt" (Ok (9%Q, 1000)) None;
    mkDirent "a.mp4" (Ok (1%Q, 5)) None;
    mkDirent "gone.mp4" (Raise FileNotFoundError) None;
    mkDirent "b.mp4" (Ok (2%Q, 6)) None ].

Definition crowded : world := mkWorld "rec" (Ok crowded_entries) 50 [].

Definition crowded_files : list file :=
  Eval vm_compute in sort_by_mtime (inventory "rec" crowded_entries).

(** The files of a list whose modification time is [m]. *)
Definition at_mtime (m : Q) (l : list file) : list file :=
  filter (fun f => Qeq_bool (f_mtime f) m) l.

(** The same segments as [crowded], listed in another order. *)
Definition crowded_shuffled : world :=
  mkWorld "rec" (Ok (rev crowded_entries)) 77 [].

(** Two segments of 6 bytes under a cap of 10: the older one is gone when
    the pass comes to delete it. *)
Definition raced_entries : list dirent :=
  [ mkDirent "a.mp4" (Ok (1%Q, 6)) (Some FileNotFoundError);
    mkDirent "b.mp4" (Ok (2%Q, 6)) None ].

Definition raced : world := mkWorld "rec" (Ok raced_entries) 50 [].

(** A world with the same directory at another moment of the run. *)
Definition same_directory (w1 w2 : world) : Prop :=
  w_root w1 = w_root w2 /\ w_dir w1 = w_dir w2.

(** The paths that [write_status] works on. *)
Definition status_tmp_path (output_dir : string) : string :=
  os_path_join output_dir "status.json.tmp".

Definition status_final_path (output_dir : string) : string :=
  os_path_join output_dir "status.json".

(** A subprocess found healthy: the newest segment of [at_the_limit] is
    45 seconds old. *)
Definition fresh_record : status :=
  Eval vm_compute in
    written (event_at 3
               (new_events at_the_limit
                  (snd (tick plain_json_len punctual_env start_locals
                             at_the_limit)))).

(** ** The newest segment

    A file of an inventory that none is newer than; an entry of a
    directory that is a segment with modification time [m]; and a
    modification time that is within the timeout at time [t]. *)
Definition newest_in (files : list file) (f : file) : Prop :=
  In f files /\ forall g, In g files -> (f_mtime g <= f_mtime f)%Q.

Definition is_segment (es : list dirent) (d : dirent) (m : Q) : Prop :=
  In d es /\ endswith (d_name d) ".mp4" = true
  /\ exists sz, d_stat d = Ok (m, sz).

Definition fresh_at (t m : Q) : Prop :=
  (t - m <= NO_PROGRESS_TIMEOUT_SECONDS)%Q.

Definition limit_entries : list dirent :=
  [segment "2024-01-01_00-00-00.mp4" 965 5].

Definition limit_files : list file :=
  Eval vm_compute in sort_by_mtime (inventory OUTPUT_DIR limit_entries).

(** The supervisor wakes up one second late, at time 1011. *)
Definition late_env : env :=
  mkEnv 1 (fun dir => dir) None EmptyString 0 (Ok 0) MetricsNone
        "/srv/recordings".

Definition stale_record : status :=
  Eval vm_compute in
    written (event_at 3
               (new_events at_the_limit
                  (snd (tick plain_json_len late_env start_locals
                             at_the_limit)))).

(** The world of [scenario_A5] after the exit of the subprocess was
    reported and a new one was started. *)
Definition restarted : locals * world :=
  Eval vm_compute in
    (match fst (tick plain_json_len exited_env start_locals scenario_A5) with
     | Ok s => s
     | Raise _ => start_locals
     end,
     snd (tick plain_json_len exited_env start_locals scenario_A5)).

(* ================================================================== *)
(** * The rest of the program *)

(** ** The RTSP URL (lines 39-44 and 68)

    A Python [str] is taken as the string of its UTF-8 bytes, which is
    what [quote] works on.  The credentials of the source file are not
    repeated here: [rtsp_url] is line 68 as a function of the five
    constants it reads. *)

Definition in_range (lo hi : nat) (c : ascii) : bool :=
  ((lo <=? nat_of_ascii c) && (nat_of_ascii c <=? hi))%nat.

(** [_ALWAYS_SAFE] of [urllib.parse] (Python 3.7 and later): letters,
    digits and [_.-~]. *)
Definition always_safe (c : ascii) : bool :=
  (in_range 65 90 c || in_range 97 122 c || in_range 48 57 c
   || Ascii.eqb c "_" || Ascii.eqb c "." || Ascii.eqb c "-"
   || Ascii.eqb c "~")%bool.

Definition hex_digit (n : nat) : ascii :=
  nth n (list_ascii_of_string "0123456789ABCDEF") "0"%char.

(** One byte under [quote(s)], whose [safe] defaults to ['/']: kept, or
    written ['%{:02X}']. *)
Definition quote_byte (c : ascii) : string :=
  if (always_safe c || Ascii.eqb c "/")%bool then String c EmptyString
  else String "%" (String (hex_digit (nat_of_ascii c / 16))
                     (String (hex_digit (nat_of_ascii c mod 16)) EmptyString)).

(** [urllib.parse.quote(s)]. *)
Fixpoint quote (s : string) : string :=
  match s with
  | EmptyString => EmptyString
  | String c s' => (quote_byte c ++ quote s')%string
  end.

(** [str(n)] of an [int]. *)
Definition str (n : Z) : string := NilZero.string_of_int (Z.to_int n).

(** Line 68:
    [f"rtsp://{quote(CAM_USER)}:{quote(CAM_PASS)}@{CAM_HOST}:{CAM_PORT}{CAM_PATH}"]. *)
Definition rtsp_url (cam_user cam_pass cam_host : string) (cam_port : Z)
  (cam_path : string) : string :=
  ("rtsp://" ++ quote cam_user ++ ":" ++ quote cam_pass ++ "@" ++ cam_host
   ++ ":" ++ str cam_port ++ cam_path)%string.

(** ** The FFmpeg command (lines 152-195) *)

Definition build_ffmpeg_command (rtsp_url output_dir : string)
  (segment_seconds : Z) (transport : string) : list string :=
  let out_pattern := os_path_join output_dir "%Y-%m-%d_%H-%M-%S.mp4" in
  [ "ffmpeg"; "-hide_banner"; "-loglevel"; "warning";
    "-rtsp_transport"; transport;
    "-fflags"; "+genpts"; "-use_wallclock_as_timestamps"; "1";
    "-i"; rtsp_url;
    "-an"; "-c:v"; "copy";
    "-f"; "segment"; "-segment_time"; str segment_seconds;
    "-reset_timestamps"; "1"; "-strftime"; "1";
    out_pattern ]%string.

(** ** The tail of the diagnostics (lines 198-207) *)

(** [l[start:]]. *)
Definition slice_from {A} (start : Z) (l : list A) : list A :=
  let n := Z.of_nat (List.length l) in
  let i := if start <? 0 then Z.max 0 (start + n) else Z.min start n in
  skipn (Z.to_nat i) l.

(** [sep.join(l)]. *)
Fixpoint str_join (sep : string) (l : list string) : string :=
  match l with
  | [] => EmptyString
  | [x] => x
  | x :: l' => (x ++ sep ++ str_join sep l')%string
  end.

Definition newline : string := String (ascii_of_nat 10) EmptyString.

Section Diagnostics.

(** [s.strip()] and [s.splitlines()], which depend on the Unicode tables
    of Python. *)
Variable str_strip : string -> string.
Variable str_splitlines : string -> list string.

(** [tail_stderr(proc, max_lines)].  [stderr] is [proc.stderr]: [None], or
    what its [read()] does. *)
Definition tail_stderr (stderr : option (res string)) (max_lines : Z)
  : string :=
  let err := match stderr with
             | Some (Ok text) => text
             | Some (Raise _) => EmptyString       (* except Exception *)
             | None => EmptyString
             end in
  let lines := str_splitlines (str_strip err) in
  match lines with
  | [] => EmptyString
  | _ => str_join newline (slice_from (- max_lines) lines)
  end.

End Diagnostics.

(** ** Shutdown on a signal (lines 234-243) *)

Inductive proc_error : Type :=
| TimeoutExpired
| ProcessError.

(** What the handler calls, in order. *)
Inductive proc_call : Type :=
| CallTerminate
| CallWait (timeout : Q)
| CallKill
| CallExit (code : Z).

(** How a piece of the handler ends: it returns, it raises, or
    [SystemExit] is on its way out. *)
Inductive ending (A : Type) : Type :=
| Returned (a : A)
| Raised (e : proc_error)
| Exiting (code : Z).
Arguments Returned {A} a.
Arguments Raised {A} e.
Arguments Exiting {A} code.

Definition Handler (A : Type) : Type :=
  list proc_call -> ending A * list proc_call.

Definition call (c : proc_call) (answer : option proc_error) : Handler unit :=
  fun calls => (match answer with
                | None => Returned tt
                | Some e => Raised e
                end, calls ++ [c]).

Definition sys_exit (code : Z) : Handler unit :=
  fun calls => (Exiting code, calls ++ [CallExit code]).

Definition then_ {A B} (m : Handler A) (k : Handler B) : Handler B :=
  fun calls => match m calls with
               | (Returned _, calls') => k calls'
               | (Raised e, calls') => (Raised e, calls')
               | (Exiting c, calls') => (Exiting c, calls')
               end.

(** [try: m  except subprocess.TimeoutExpired: h]. *)
Definition except_timeout {A} (m h : Handler A) : Handler A :=
  fun calls => match m calls with
               | (Raised TimeoutExpired, calls') => h calls'
               | r => r
               end.

(** [try: m  finally: f]: what [f] raises replaces what [m] did. *)
Definition finally {A} (m : Handler A) (f : Handler unit) : Handler A :=
  fun calls => match m calls with
               | (r, calls') =>
                   match f calls' with
                   | (Returned _, calls'') => (r, calls'')
                   | (Raised e, calls'') => (Raised e, calls'')
                   | (Exiting c, calls'') => (Exiting c, calls'')
                   end
               end.

(** The answers of the subprocess to the three calls. *)
Record proc_answers : Type := mkAnswers {
  a_terminate : option proc_error;
  a_wait : option proc_error;
  a_kill : option proc_error
}.

Definition shutdown (a : proc_answers) : Handler unit :=
  finally
    (then_ (call CallTerminate (a_terminate a))
           (except_timeout (call (CallWait 5) (a_wait a))
                           (call CallKill (a_kill a))))
    (sys_exit 0).

(** ** [write_status], step by step (lines 141-149)

    The three steps with the fault each of them can have in a directory
    that is there: [open(tmp, "w")] creates or truncates the temporary
    file, [json.dump] fills it, [os.replace(tmp, final)] puts it in the
    place of [status.json].  A fault of [json.dump] comes with the
    number of bytes that were written before it.  Without faults this is
    [write_status]. *)
Record write_faults : Type := mkWriteFaults {
  open_fault : option exn;
  dump_fault : option (exn * Z);
  replace_fault : option exn
}.

Definition no_faults : write_faults := mkWriteFaults None None None.

Definition tmp_entry (t : Q) (size : Z) : dirent :=
  mkDirent "status.json.tmp" (Ok (t, size)) None.

Definition write_status_steps (json_len : status -> Z) (q : write_faults)
  (output_dir : string) (st : status) : M unit :=
  let tmp := os_path_join output_dir "status.json.tmp" in
  let final := os_path_join output_dir "status.json" in
  fun w =>
    if String.eqb output_dir (w_root w) then
      match w_dir w with
      | Raise e => (Raise e, w)
      | Ok es =>
          let others := without (w_root w) tmp es in
          match open_fault q with
          | Some e => (Raise e, w)
          | None =>
              match dump_fault q with
              | Some (e, n) =>
                  (Raise e, set_dir (others ++ [tmp_entry (w_clock w) n]) w)
              | None =>
                  match replace_fault q with
                  | Some e =>
                      (Raise e,
                       set_dir (others
                                ++ [tmp_entry (w_clock w) (json_len st)]) w)
                  | None =>
                      let entry := mkDirent "status.json"
                                     (Ok (w_clock w, json_len st)) None in
                      log (EvWriteStatus st)
                          (set_dir (without (w_root w) final others
                                    ++ [entry]) w)
                  end
              end
          end
      end
    else (Raise FileNotFoundError, w).

(** The exception that leaves [write_status]: the fault of the first
    step that has one. *)
Definition first_fault (q : write_faults) : option exn :=
  match open_fault q with
  | Some e => Some e
  | None => match dump_fault q with
            | Some (e, _) => Some e
            | None => replace_fault q
            end
  end.

(** [status.json] cannot be replaced: it is a directory. *)
Definition blocked_replace : write_faults :=
  mkWriteFaults None None (Some IsADirectoryError).

(** ** Vocabulary for the rest *)

(** The characters that [quote] can produce. *)
Definition url_char (c : ascii) : bool :=
  (always_safe c || Ascii.eqb c "/" || Ascii.eqb c "%")%bool.

(** The last [n] elements of a list. *)
Definition lastn {A} (n : nat) (l : list A) : list A :=
  skipn (List.length l - n) l.

(** [unreadable] under its real name, with a live subprocess. *)
Definition unreadable_recordings : world :=
  mkWorld OUTPUT_DIR
    (Ok [ mkDirent "a.mp4" (Ok (1%Q, 5)) None;
          mkDirent "b.mp4" (Raise PermissionError) None ])
    50 [].

(** The directory has been removed while the subprocess dies. *)
Definition removed_recordings : world :=
  mkWorld OUTPUT_DIR (Raise FileNotFoundError) 50 [].

(* ================================================================== *)
(** * Properties *)

(** ** Strings *)

Lemma endswith_intro (pre suffix : string) :
  endswith (pre ++ suffix) suffix = true.
Proof.
  assert (R : forall s, endswith s s = true).
  { intros s. destruct s; simpl; [reflexivity|].
    now rewrite Ascii.eqb_refl, String.eqb_refl. }
  induction pre as [|c pre IH].
  - apply R.
  - change (String c pre ++ suffix)%string with (String c (pre ++ suffix)).
    cbn [endswith].
    destruct (String.eqb (String c (pre ++ suffix)) suffix); auto.
Qed.

Lemma endswith_elim (s suffix : string) :
  endswith s suffix = true -> exists pre, s = (pre ++ suffix)%string.
Proof.
  induction s as [|c s IH]; cbn [endswith]; intros H.
  - destruct (String.eqb EmptyString suffix) eqn:E; [|discriminate].
    apply String.eqb_eq in E. subst. exists EmptyString. reflexivity.
  - destruct (String.eqb (String c s) suffix) eqn:E.
    + apply String.eqb_eq in E. subst. exists EmptyString. reflexivity.
    + destruct (IH H) as [pre Hp]. exists (String c pre).
      simpl. now rewrite Hp.
Qed.

Lemma append_assoc (a b c : string) :
  ((a ++ b) ++ c = a ++ (b ++ c))%string.
Proof. induction a; simpl; congruence. Qed.

Lemma os_path_join_suffix (a b : string) :
  exists pre, os_path_join a b = (pre ++ b)%string.
Proof.
  unfold os_path_join.
  destruct (prefix "/" b).
  - exists EmptyString. reflexivity.
  - destruct (String.eqb a EmptyString || endswith a "/")%bool.
    + exists a. reflexivity.
    + exists (a ++ "/")%string. now rewrite append_assoc.
Qed.

Lemma endswith_join (a b suffix : string) :
  endswith b suffix = true -> endswith (os_path_join a b) suffix = true.
Proof.
  intros H. apply endswith_elim in H as [pre ->].
  destruct (os_path_join_suffix a (pre ++ suffix)) as [pre' ->].
  rewrite <- append_assoc. apply endswith_intro.
Qed.

(** A suffix no longer than the tail [x] of a string is a suffix of [x]. *)
Lemma suffix_of_tail (p1 x p2 suffix : string) :
  (p1 ++ x = p2 ++ suffix)%string ->
  (String.length suffix <= String.length x)%nat ->
  exists q, x = (q ++ suffix)%string.
Proof.
  revert p2. induction p1 as [|c p1 IH]; intros p2 H L.
  - exists p2. exact H.
  - destruct p2 as [|c2 p2].
    + simpl in H. subst suffix. simpl in L.
      assert (String.length (p1 ++ x) = String.length p1 + String.length x)%nat
        by (clear; induction p1; simpl; auto).
      lia.
    + simpl in H. injection H as _ H. eauto.
Qed.

Lemma endswith_tail (p1 x suffix : string) :
  endswith (p1 ++ x) suffix = true ->
  (String.length suffix <= String.length x)%nat ->
  endswith x suffix = true.
Proof.
  intros H L. apply endswith_elim in H as [p2 H].
  destruct (suffix_of_tail _ _ _ _ H L) as [q ->]. apply endswith_intro.
Qed.

(** ** The inventory reads, and only reads *)

Lemma scan_pure output_dir names : forall files w,
  snd (scan output_dir names files w) = w.
Proof.
  induction names as [|name names IH]; intros files w; simpl.
  - reflexivity.
  - destruct (endswith name ".mp4"); [|apply IH].
    unfold bind, try_except, os_stat, ret, raise.
    destruct (lookup (os_path_join output_dir name) w) as [d|]; simpl.
    + destruct (d_stat d) as [st|e]; simpl; [apply IH|].
      destruct (is_FileNotFoundError e); simpl; [apply IH|reflexivity].
    + apply IH.
Qed.

Lemma list_recording_files_pure output_dir w :
  snd (list_recording_files output_dir w) = w.
Proof.
  unfold list_recording_files, try_except, bind, os_listdir, ret, raise.
  destruct (String.eqb output_dir (w_root w)); simpl; [|reflexivity].
  destruct (w_dir w) as [es|e]; simpl.
  - pose proof (scan_pure output_dir (map d_name es) [] w) as H.
    destruct (scan output_dir (map d_name es) [] w) as [[fs|e] w']; simpl in *.
    + now subst.
    + subst. now destruct (is_FileNotFoundError e).
  - now destruct (is_FileNotFoundError e).
Qed.

Lemma list_recording_files_world output_dir w r w' :
  list_recording_files output_dir w = (r, w') -> w' = w.
Proof.
  intros H. pose proof (list_recording_files_pure output_dir w) as P.
  rewrite H in P. exact P.
Qed.

Lemma find_wf (root : string) (es : list dirent) (d : dirent) :
  wf_dir root es -> In d es ->
  find (fun d' => String.eqb (d_path root d') (d_path root d)) es = Some d.
Proof.
  unfold wf_dir. induction es as [|x es IH]; simpl; intros N I; [easy|].
  inversion N as [|? ? Nx N']; subst.
  destruct I as [->|I].
  - now rewrite String.eqb_refl.
  - destruct (String.eqb (d_path root x) (d_path root d)) eqn:E; [|auto].
    apply String.eqb_eq in E. exfalso. apply Nx. rewrite E.
    now apply in_map.
Qed.

Lemma scan_inventory w es : 
  w_dir w = Ok es -> wf_dir (w_root w) es ->
  forall es0 files fs w',
    incl es0 es ->
    scan (w_root w) (map d_name es0) files w = (Ok fs, w') ->
    fs = files ++ inventory (w_root w) es0.
Proof.
  intros D N. induction es0 as [|d es0 IH]; intros files fs w' I H.
  - simpl in H. injection H as <- _. now rewrite app_nil_r.
  - simpl in H. unfold inventory. simpl. unfold segment_of at 1.
    assert (I' : incl es0 es) by (intros x Hx; apply I; now right).
    destruct (endswith (d_name d) ".mp4"); [|now apply IH in H].
    unfold bind, try_except, os_stat, ret, raise in H.
    unfold lookup in H. rewrite D in H.
    change (os_path_join (w_root w) (d_name d)) with (d_path (w_root w) d) in H.
    rewrite (find_wf _ _ d N) in H by (apply I; now left).
    destruct (d_stat d) as [st|e]; simpl in H.
    + apply IH in H; auto. rewrite H, <- app_assoc. reflexivity.
    + destruct (is_FileNotFoundError e); simpl in H; [|discriminate].
      now apply IH in H.
Qed.

Lemma list_recording_files_inventory w es fs w' :
  w_dir w = Ok es -> wf_dir (w_root w) es ->
  list_recording_files (w_root w) w = (Ok fs, w') ->
  fs = sort_by_mtime (inventory (w_root w) es).
Proof.
  intros D N H.
  unfold list_recording_files, try_except, bind, os_listdir, ret, raise in H.
  rewrite String.eqb_refl, D in H.
  destruct (scan (w_root w) (map d_name es) [] w) as [[fs0|e] w0] eqn:S.
  - injection H as <- _.
    now rewrite (scan_inventory w es D N es [] fs0 w0 (incl_refl _) S).
  - pose proof (scan_pure (w_root w) (map d_name es) [] w) as P.
    rewrite S in P. simpl in P. subst w0.
    destruct (is_FileNotFoundError e) eqn:Fe; [|discriminate].
    (* a FileNotFoundError never leaves [scan] *)
    exfalso. clear N D H. revert S. generalize (@nil file).
    generalize (map d_name es). intros names.
    induction names as [|n names IH]; intros files S; simpl in S.
    + discriminate.
    + destruct (endswith n ".mp4"); [|eauto].
      unfold bind, try_except, os_stat, ret, raise in S.
      destruct (lookup (os_path_join (w_root w) n) w) as [d|]; simpl in S;
        [|eauto].
      destruct (d_stat d) as [st|e']; simpl in S; [eauto|].
      destruct (is_FileNotFoundError e') eqn:F; simpl in S; [eauto|].
      injection S as ->. congruence.
Qed.

(** ** Sorting by modification time *)

Lemma insert_by_mtime_perm x l : Permutation (insert_by_mtime x l) (x :: l).
Proof.
  induction l as [|y l IH]; simpl; [reflexivity|].
  destruct (Qle_bool (f_mtime x) (f_mtime y)); [reflexivity|].
  rewrite IH. apply perm_swap.
Qed.

Lemma sort_by_mtime_perm l : Permutation (sort_by_mtime l) l.
Proof.
  induction l as [|x l IH]; simpl; [reflexivity|].
  rewrite insert_by_mtime_perm. now constructor.
Qed.

Lemma insert_by_mtime_ascending x l :
  ascending l -> ascending (insert_by_mtime x l).
Proof.
  induction 1 as [|y l Hy Hl IH]; simpl.
  - repeat constructor.
  - destruct (Qle_bool (f_mtime x) (f_mtime y)) eqn:E.
    + apply Qle_bool_iff in E. constructor; [|now constructor].
      constructor; [exact E|].
      eapply Forall_impl; [|exact Hy]. intros z Hz. simpl in Hz.
      eapply Qle_trans; eauto.
    + constructor; [|exact IH].
      assert (Hxy : (f_mtime y <= f_mtime x)%Q).
      { apply Qlt_le_weak, Qnot_le_lt. intros C.
        apply Qle_bool_iff in C. congruence. }
      eapply Permutation_Forall.
      * symmetry. apply insert_by_mtime_perm.
      * now constructor.
Qed.

Lemma sort_by_mtime_ascending l : ascending (sort_by_mtime l).
Proof.
  induction l; simpl; [constructor | now apply insert_by_mtime_ascending].
Qed.

Lemma insert_by_mtime_least x l :
  Forall (fun y => (f_mtime x <= f_mtime y)%Q) l ->
  insert_by_mtime x l = x :: l.
Proof.
  destruct 1 as [|y l Hy _]; simpl; [reflexivity|].
  apply Qle_bool_iff in Hy. now rewrite Hy.
Qed.

Lemma Forall_filter {A} (P : A -> Prop) (g : A -> bool) l :
  Forall P l -> Forall P (filter g l).
Proof.
  induction 1; simpl; [constructor|]. destruct (g x); auto.
Qed.

Lemma ascending_filter g l : ascending l -> ascending (filter g l).
Proof.
  induction 1 as [|y l Hy Hl IH]; simpl; [constructor|].
  destruct (g y); [|exact IH]. constructor; [|exact IH].
  now apply Forall_filter.
Qed.

(** Sorting is stable, so it commutes with dropping elements. *)
Lemma filter_insert_by_mtime g x l :
  ascending l ->
  filter g (insert_by_mtime x l) =
  if g x then insert_by_mtime x (filter g l) else filter g l.
Proof.
  induction 1 as [|y l Hy Hl IH]; simpl.
  - destruct (g x); reflexivity.
  - destruct (Qle_bool (f_mtime x) (f_mtime y)) eqn:E; simpl.
    + destruct (g x) eqn:Gx, (g y) eqn:Gy; simpl; rewrite ?E; try reflexivity.
      symmetry. apply insert_by_mtime_least, Forall_filter.
      apply Qle_bool_iff in E.
      eapply Forall_impl; [|exact Hy]. intros z Hz. simpl in Hz.
      eapply Qle_trans; eauto.
    + rewrite IH. destruct (g x), (g y); simpl; rewrite ?E; reflexivity.
Qed.

Lemma filter_sort_by_mtime g l :
  filter g (sort_by_mtime l) = sort_by_mtime (filter g l).
Proof.
  induction l as [|x l IH]; simpl; [reflexivity|].
  rewrite filter_insert_by_mtime by apply sort_by_mtime_ascending.
  rewrite IH. destruct (g x); reflexivity.
Qed.

(** ** Sums of sizes *)

Lemma fold_sizes_shift l : forall a,
  fold_left (fun acc f => acc + f_size f) l a = a + sum_sizes l.
Proof.
  unfold sum_sizes.
  induction l as [|x l IH]; intros a; simpl; [lia|].
  rewrite IH, (IH (f_size x)). lia.
Qed.

Lemma sum_sizes_cons x l : sum_sizes (x :: l) = f_size x + sum_sizes l.
Proof. unfold sum_sizes at 1. simpl. apply fold_sizes_shift. Qed.

Lemma sum_sizes_nil : sum_sizes [] = 0.
Proof. reflexivity. Qed.

Lemma sum_sizes_app l1 l2 :
  sum_sizes (l1 ++ l2) = sum_sizes l1 + sum_sizes l2.
Proof.
  induction l1 as [|x l1 IH]; simpl; [reflexivity|].
  rewrite !sum_sizes_cons, IH. lia.
Qed.

Lemma sum_sizes_split (k : nat) l :
  sum_sizes l = sum_sizes (firstn k l) + sum_sizes (skipn k l).
Proof. now rewrite <- sum_sizes_app, firstn_skipn. Qed.

(** ** Directories whose segments can be read *)

Lemma scan_readable w es :
  w_dir w = Ok es -> wf_dir (w_root w) es ->
  forall es0 files fs w',
    incl es0 es ->
    scan (w_root w) (map d_name es0) files w = (Ok fs, w') ->
    readable es0.
Proof.
  intros D N. induction es0 as [|d es0 IH]; intros files fs w' I H.
  - intros ? ? [].
  - assert (I' : incl es0 es) by (intros x Hx; apply I; now right).
    simpl in H. intros d' e [<-|Hd] Hm Hs.
    + rewrite Hm in H.
      unfold bind, try_except, os_stat, ret, raise, lookup in H.
      rewrite D in H.
      change (os_path_join (w_root w) (d_name d)) with (d_path (w_root w) d) in H.
      rewrite (find_wf _ _ d N) in H by (apply I; now left).
      rewrite Hs in H. simpl in H.
      destruct (is_FileNotFoundError e); [reflexivity|discriminate].
    + revert d' e Hd Hm Hs. fold (readable es0).
      destruct (endswith (d_name d) ".mp4"); [|eauto].
      unfold bind, try_except, os_stat, ret, raise, lookup in H.
      rewrite D in H.
      change (os_path_join (w_root w) (d_name d)) with (d_path (w_root w) d) in H.
      rewrite (find_wf _ _ d N) in H by (apply I; now left).
      destruct (d_stat d) as [st|e0]; simpl in H; [eauto|].
      destruct (is_FileNotFoundError e0); simpl in H; [eauto|discriminate].
Qed.

Lemma scan_complete w es :
  w_dir w = Ok es -> wf_dir (w_root w) es ->
  forall es0 files,
    incl es0 es -> readable es0 ->
    scan (w_root w) (map d_name es0) files w
    = (Ok (files ++ inventory (w_root w) es0), w).
Proof.
  intros D N. induction es0 as [|d es0 IH]; intros files I R.
  - simpl. now rewrite app_nil_r.
  - assert (I' : incl es0 es) by (intros x Hx; apply I; now right).
    assert (R' : readable es0) by (intros x e Hx; apply R; now right).
    simpl. unfold inventory. simpl. unfold segment_of at 1.
    destruct (endswith (d_name d) ".mp4") eqn:Hm; [|now apply IH].
    unfold bind, try_except, os_stat, ret, raise, lookup.
    rewrite D.
    change (os_path_join (w_root w) (d_name d)) with (d_path (w_root w) d).
    rewrite (find_wf _ _ d N) by (apply I; now left).
    destruct (d_stat d) as [st|e] eqn:Hs; simpl.
    + rewrite IH by auto. now rewrite <- app_assoc.
    + rewrite (R d e (or_introl eq_refl) Hm Hs). simpl. now apply IH.
Qed.

Lemma list_recording_files_readable w es fs w' :
  w_dir w = Ok es -> wf_dir (w_root w) es ->
  list_recording_files (w_root w) w = (Ok fs, w') ->
  readable es.
Proof.
  intros D N H.
  unfold list_recording_files, try_except, bind, os_listdir, ret, raise in H.
  rewrite String.eqb_refl, D in H.
  destruct (scan (w_root w) (map d_name es) [] w) as [[fs0|e] w0] eqn:S.
  - eapply scan_readable; eauto. apply incl_refl.
  - pose proof (list_recording_files_inventory w es fs w' D N) as P.
    unfold list_recording_files, try_except, bind, os_listdir, ret, raise in P.
    rewrite String.eqb_refl, D, S in P. specialize (P H).
    (* the same contradiction as in [list_recording_files_inventory] *)
    exfalso. destruct (is_FileNotFoundError e) eqn:Fe; [|discriminate].
    clear P H. revert S. generalize (@nil file).
    generalize (map d_name es). intros names.
    induction names as [|n names IH]; intros files S; simpl in S.
    + discriminate.
    + destruct (endswith n ".mp4"); [|eauto].
      unfold bind, try_except, os_stat, ret, raise in S.
      destruct (lookup (os_path_join (w_root w) n) w) as [d|]; simpl in S;
        [|eauto].
      destruct (d_stat d) as [st|e']; simpl in S; [eauto|].
      destruct (is_FileNotFoundError e') eqn:F; simpl in S; [eauto|].
      injection S as -> _. congruence.
Qed.

Lemma list_recording_files_ok w es :
  w_dir w = Ok es -> wf_dir (w_root w) es -> readable es ->
  list_recording_files (w_root w) w
  = (Ok (sort_by_mtime (inventory (w_root w) es)), w).
Proof.
  intros D N R.
  unfold list_recording_files, try_except, bind, os_listdir, ret, raise.
  rewrite String.eqb_refl, D.
  rewrite (scan_complete w es D N es [] (incl_refl _) R). reflexivity.
Qed.

(** ** Unlinking *)

Lemma wf_dir_filter root g es : wf_dir root es -> wf_dir root (filter g es).
Proof.
  unfold wf_dir. induction es as [|d es IH]; simpl; intros N; [constructor|].
  inversion N as [|? ? Nd N']; subst.
  destruct (g d); simpl; auto. constructor; auto.
  intros C. apply Nd. apply in_map_iff in C as (x & Hx & Ix).
  apply filter_In in Ix as [Ix _]. apply in_map_iff. eauto.
Qed.

Lemma readable_filter g es : readable es -> readable (filter g es).
Proof.
  intros R d e I. apply filter_In in I as [I _]. now apply R.
Qed.

Lemma inventory_without root p es :
  inventory root (without root p es)
  = filter (fun f => negb (String.eqb (f_path f) p)) (inventory root es).
Proof.
  unfold inventory, without.
  induction es as [|d es IH]; simpl; [reflexivity|].
  rewrite filter_app, <- IH.
  destruct (String.eqb (d_path root d) p) eqn:E; simpl.
  - unfold segment_of. destruct (endswith (d_name d) ".mp4"); [|reflexivity].
    destruct (d_stat d); simpl; [|reflexivity].
    unfold f_path. simpl. now rewrite E.
  - f_equal. unfold segment_of.
    destruct (endswith (d_name d) ".mp4"); [|reflexivity].
    destruct (d_stat d); simpl; [|reflexivity].
    unfold f_path. simpl. now rewrite E.
Qed.

Lemma inventory_paths root es f :
  In f (inventory root es) ->
  exists d, In d es /\ f_path f = d_path root d
            /\ endswith (d_name d) ".mp4" = true
            /\ d_stat d = Ok (f_mtime f, f_size f).
Proof.
  unfold inventory. intros H. apply in_flat_map in H as (d & Hd & Hf).
  exists d. unfold segment_of in Hf.
  destruct (endswith (d_name d) ".mp4"); [|easy].
  destruct (d_stat d) as [[m sz]|]; [|easy].
  destruct Hf as [<-|[]]. auto.
Qed.

Lemma inventory_NoDup root es :
  wf_dir root es -> NoDup (map f_path (inventory root es)).
Proof.
  unfold wf_dir, inventory.
  induction es as [|d es IH]; simpl; intros N; [constructor|].
  inversion N as [|? ? Nd N']; subst.
  unfold segment_of at 1.
  destruct (endswith (d_name d) ".mp4"); simpl; auto.
  destruct (d_stat d) as [st|]; simpl; auto.
  constructor; auto. unfold f_path at 1. simpl.
  intros C. apply in_map_iff in C as (f & Hf & If).
  apply (inventory_paths root es) in If as (d' & Id' & Hp & _).
  apply Nd. rewrite <- Hf, Hp. now apply in_map.
Qed.

(** ** One deletion *)

Lemma find_without root p q es :
  p <> q ->
  find (fun d => String.eqb (d_path root d) q) (without root p es)
  = find (fun d => String.eqb (d_path root d) q) es.
Proof.
  intros Hpq. unfold without. induction es as [|d es IH]; simpl; [reflexivity|].
  destruct (String.eqb (d_path root d) p) eqn:Ep; simpl.
  - apply String.eqb_eq in Ep.
    destruct (String.eqb (d_path root d) q) eqn:Eq; [|exact IH].
    apply String.eqb_eq in Eq. congruence.
  - now rewrite IH.
Qed.

Lemma remove_outcome_without root es clock trace clock' trace' p q :
  p <> q ->
  remove_outcome q (mkWorld root (Ok (without root p es)) clock' trace')
  = remove_outcome q (mkWorld root (Ok es) clock trace).
Proof.
  intros Hpq. unfold remove_outcome, lookup. simpl.
  now rewrite find_without.
Qed.

Lemma os_remove_ok root es clock trace p :
  remove_outcome p (mkWorld root (Ok es) clock trace) = None ->
  os_remove p (mkWorld root (Ok es) clock trace)
  = (Ok tt, mkWorld root (Ok (without root p es)) clock
                    (trace ++ [(clock, EvRemove p None)])).
Proof. intros H. unfold os_remove. rewrite H. reflexivity. Qed.

(** ** The loop when every deletion succeeds *)

Lemma reclaim_loop_all_ok max_bytes : forall files total deleted root es clock trace,
  NoDup (map f_path files) ->
  (forall f, In f files ->
             remove_outcome (f_path f) (mkWorld root (Ok es) clock trace) = None) ->
  reclaim_loop max_bytes files total deleted (mkWorld root (Ok es) clock trace)
  = (Ok (deleted + Z.of_nat (evict_count max_bytes files total)),
     mkWorld root
       (Ok (without_all root
              (map f_path (firstn (evict_count max_bytes files total) files)) es))
       clock
       (trace ++ map (removed_ok clock)
                     (firstn (evict_count max_bytes files total) files))).
Proof.
  induction files as [|f files IH]; intros total deleted root es clock trace N R.
  - simpl. destruct (total >? max_bytes); unfold ret; simpl;
      now rewrite Z.add_0_r, app_nil_r.
  - cbn [reclaim_loop evict_count].
    destruct (total >? max_bytes).
    + rewrite os_remove_ok by (apply R; now left).
      inversion N as [|? ? Nf N']; subst.
      rewrite IH; auto.
      * cbn [firstn map without_all fold_left].
        rewrite <- app_assoc. simpl.
        f_equal. f_equal. lia.
      * intros g Hg. rewrite (remove_outcome_without root es clock trace).
        -- apply R. now right.
        -- intros C. apply Nf. rewrite C. now apply in_map.
    + unfold ret. simpl. now rewrite Z.add_0_r, app_nil_r.
Qed.

Lemma evict_count_le max_bytes : forall files total,
  (evict_count max_bytes files total <= List.length files)%nat.
Proof.
  induction files as [|f files IH]; intros total; simpl;
    destruct (total >? max_bytes); simpl; try lia.
  specialize (IH (total - f_size f)). lia.
Qed.

(** The loop stops under the cap, or with nothing left. *)
Lemma evict_count_stops max_bytes : forall files total,
  total - sum_sizes (firstn (evict_count max_bytes files total) files)
    <= max_bytes
  \/ evict_count max_bytes files total = List.length files.
Proof.
  induction files as [|f files IH]; intros total; simpl.
  - destruct (total >? max_bytes); auto.
  - destruct (total >? max_bytes) eqn:E.
    + cbn [firstn]. rewrite sum_sizes_cons.
      destruct (IH (total - f_size f)) as [H|H]; [left; lia|right; simpl; lia].
    + left. simpl. rewrite sum_sizes_nil. lia.
Qed.

(** Every file it deleted had to go. *)
Lemma evict_count_needed max_bytes : forall files total j,
  (j < evict_count max_bytes files total)%nat ->
  total - sum_sizes (firstn j files) > max_bytes.
Proof.
  induction files as [|f files IH]; intros total j H; simpl in H.
  - destruct (total >? max_bytes); inversion H.
  - destruct (total >? max_bytes) eqn:E; [|inversion H].
    destruct j as [|j]; simpl.
    + rewrite sum_sizes_nil. lia.
    + rewrite sum_sizes_cons.
      specialize (IH (total - f_size f) j ltac:(lia)). lia.
Qed.

Lemma evict_count_under max_bytes files total :
  total <= max_bytes -> evict_count max_bytes files total = O.
Proof.
  intros H. destruct files; simpl;
    destruct (total >? max_bytes) eqn:E; auto; lia.
Qed.

(** What is left after the oldest [k] files are unlinked. *)
Lemma inventory_without_all root : forall ps es,
  inventory root (without_all root ps es)
  = filter (fun f => negb (existsb (String.eqb (f_path f)) ps))
           (inventory root es).
Proof.
  unfold without_all.
  induction ps as [|p ps IH]; intros es; simpl.
  - induction (inventory root es) as [|f l IHl]; simpl; congruence.
  - rewrite IH, inventory_without.
    induction (inventory root es) as [|f l IHl]; simpl; [reflexivity|].
    destruct (String.eqb (f_path f) p); simpl; rewrite ?IHl; reflexivity.
Qed.

Lemma filter_true {A} (l : list A) : filter (fun _ => true) l = l.
Proof. induction l; simpl; congruence. Qed.

Lemma filter_oldest : forall (k : nat) (l : list file),
  NoDup (map f_path l) ->
  filter (fun f => negb (existsb (String.eqb (f_path f))
                                 (map f_path (firstn k l)))) l
  = skipn k l.
Proof.
  induction k as [|k IH]; intros l N.
  - simpl. apply filter_true.
  - destruct l as [|x l]; [reflexivity|].
    inversion N as [|? ? Nx N']; subst.
    cbn [firstn map skipn filter existsb].
    rewrite String.eqb_refl. simpl.
    rewrite <- (IH l N'). apply filter_ext_in.
    intros f Hf.
    destruct (String.eqb (f_path f) (f_path x)) eqn:E; [|reflexivity].
    apply String.eqb_eq in E. exfalso. apply Nx. rewrite <- E.
    now apply in_map.
Qed.

Lemma wf_dir_without_all root : forall ps es,
  wf_dir root es -> wf_dir root (without_all root ps es).
Proof.
  unfold without_all. induction ps as [|p ps IH]; intros es N; simpl; auto.
  apply IH. now apply wf_dir_filter.
Qed.

Lemma readable_without_all root : forall ps es,
  readable es -> readable (without_all root ps es).
Proof.
  unfold without_all. induction ps as [|p ps IH]; intros es N; simpl; auto.
  apply IH. now apply readable_filter.
Qed.

Lemma folder_size_bytes_eq output_dir w fs :
  list_recording_files output_dir w = (Ok fs, w) ->
  folder_size_bytes output_dir w = (Ok (sum_sizes fs), w).
Proof. intros H. unfold folder_size_bytes, bind. now rewrite H. Qed.

(** The pass of [enforce_storage_cap] on a directory whose segments can
    all be deleted. *)
Lemma enforce_storage_cap_all_ok w es max_bytes files :
  w_dir w = Ok es -> wf_dir (w_root w) es ->
  list_recording_files (w_root w) w = (Ok files, w) ->
  (forall f, In f files -> remove_outcome (f_path f) w = None) ->
  let k := evict_count max_bytes files (sum_sizes files) in
  let w' := mkWorld (w_root w)
              (Ok (without_all (w_root w) (map f_path (firstn k files)) es))
              (w_clock w)
              (w_trace w ++ map (removed_ok (w_clock w)) (firstn k files)) in
  enforce_storage_cap (w_root w) max_bytes w = (Ok (Z.of_nat k), w')
  /\ list_recording_files (w_root w) w' = (Ok (skipn k files), w').
Proof.
  intros D N L R k w'.
  pose proof (list_recording_files_inventory _ _ _ _ D N L) as Hf.
  pose proof (list_recording_files_readable _ _ _ _ D N L) as Hr.
  assert (Nf : NoDup (map f_path files)).
  { subst files. eapply Permutation_NoDup.
    - apply Permutation_map. symmetry. apply sort_by_mtime_perm.
    - now apply inventory_NoDup. }
  split.
  - unfold enforce_storage_cap, bind. rewrite L.
    destruct w as [root dir clock trace]. simpl in *. subst dir.
    now rewrite reclaim_loop_all_ok.
  - pose proof (list_recording_files_ok w'
                  (without_all (w_root w) (map f_path (firstn k files)) es)
                  eq_refl) as H.
    simpl in H. rewrite H.
    + rewrite inventory_without_all, <- filter_sort_by_mtime, <- Hf.
      now rewrite filter_oldest.
    + now apply wf_dir_without_all.
    + now apply readable_without_all.
Qed.

(* ------------------------------------------------------------------ *)
(** ** Eviction *)

(** C1. On a directory whose segments sum to more than [max_bytes] and can
    all be deleted, [enforce_storage_cap] deletes the first [k] files of
    the inventory, which is in ascending modification-time order, one
    [os.remove] after the other in that order; it stops with the remaining
    total at or under [max_bytes], or with no file left; and with any
    smaller number of deletions the total would still exceed [max_bytes].
    With five files of 2 GB and the cap of 10 GB it deletes none; with a
    sixth it deletes the oldest one only and 10 GB remain. *)
Theorem eviction_correctness :
  (forall w es max_bytes files,
     w_dir w = Ok es -> wf_dir (w_root w) es ->
     list_recording_files (w_root w) w = (Ok files, w) ->
     (forall f, In f files -> remove_outcome (f_path f) w = None) ->
     sum_sizes files > max_bytes ->
     exists (k : nat) (w' : world),
       enforce_storage_cap (w_root w) max_bytes w = (Ok (Z.of_nat k), w')
       /\ (k <= List.length files)%nat
       /\ ascending files
       /\ w_trace w'
          = w_trace w ++ map (removed_ok (w_clock w)) (firstn k files)
       /\ list_recording_files (w_root w) w' = (Ok (skipn k files), w')
       /\ folder_size_bytes (w_root w) w'
          = (Ok (sum_sizes files - sum_sizes (firstn k files)), w')
       /\ (sum_sizes (skipn k files) <= max_bytes \/ k = List.length files)
       /\ (forall j, (j < k)%nat -> sum_sizes (skipn j files) > max_bytes))
  /\ enforce_storage_cap OUTPUT_DIR default_cap scenario_A5
     = (Ok 0, scenario_A5)
  /\ (exists w',
        enforce_storage_cap OUTPUT_DIR default_cap scenario_A6 = (Ok 1, w')
        /\ w_trace w'
           = [(1000%Q,
               EvRemove "./recordings/2024-01-01_00-00-00.mp4" None)]
        /\ w_dir w' = Ok (sixth_segment
                            :: without OUTPUT_DIR
                                 "./recordings/2024-01-01_00-00-00.mp4"
                                 five_segments)
        /\ folder_size_bytes OUTPUT_DIR w' = (Ok (5 * two_GB), w')).
Proof.
  split; [|split].
  - intros w es max_bytes files D N L R S.
    destruct (enforce_storage_cap_all_ok w es max_bytes files D N L R)
      as [E L'].
    set (k := evict_count max_bytes files (sum_sizes files)) in *.
    eexists k, _. split; [exact E|].
    split; [apply evict_count_le|].
    split.
    { rewrite (list_recording_files_inventory _ _ _ _ D N L).
      apply sort_by_mtime_ascending. }
    split; [reflexivity|].
    split; [exact L'|].
    split.
    { rewrite (folder_size_bytes_eq _ _ _ L'). do 2 f_equal.
      rewrite (sum_sizes_split k files). lia. }
    split.
    { destruct (evict_count_stops max_bytes files (sum_sizes files)) as [H|H];
        [left|now right].
      fold k in H. rewrite (sum_sizes_split k files) in H. lia. }
    intros j Hj.
    pose proof (evict_count_needed max_bytes files (sum_sizes files) j Hj) as H.
    rewrite (sum_sizes_split j files) in H. lia.
  - vm_compute. reflexivity.
  - eexists. split; [vm_compute; reflexivity|].
    split; [reflexivity|]. split; vm_compute; reflexivity.
Qed.

Lemma eviction_correctness_witness :
  exists (k : nat) (w' : world),
    enforce_storage_cap (w_root scenario_A6) default_cap scenario_A6
    = (Ok (Z.of_nat k), w')
    /\ (k <= List.length scenario_A6_files)%nat
    /\ ascending scenario_A6_files
    /\ w_trace w'
       = w_trace scenario_A6
         ++ map (removed_ok (w_clock scenario_A6)) (firstn k scenario_A6_files)
    /\ list_recording_files (w_root scenario_A6) w'
       = (Ok (skipn k scenario_A6_files), w')
    /\ folder_size_bytes (w_root scenario_A6) w'
       = (Ok (sum_sizes scenario_A6_files
              - sum_sizes (firstn k scenario_A6_files)), w')
    /\ (sum_sizes (skipn k scenario_A6_files) <= default_cap
        \/ k = List.length scenario_A6_files)
    /\ (forall j, (j < k)%nat ->
                  sum_sizes (skipn j scenario_A6_files) > default_cap).
Proof.
  apply (proj1 eviction_correctness scenario_A6
               (sixth_segment :: five_segments) default_cap scenario_A6_files).
  - reflexivity.
  - unfold wf_dir. vm_compute.
    repeat (constructor; [simpl; intuition discriminate|]). constructor.
  - vm_compute. reflexivity.
  - intros f H. vm_compute in H.
    repeat (destruct H as [<-|H]; [vm_compute; reflexivity|]). destruct H.
  - vm_compute. reflexivity.
Defined.

(** ** A pass in general *)

Lemma unlink_eq p root dir clock trace :
  unlink p (mkWorld root dir clock trace)
  = mkWorld root (dir_without_all root [p] dir) clock trace.
Proof. unfold unlink. destruct dir; reflexivity. Qed.

Lemma dir_without_all_cons root p ps dir :
  dir_without_all root ps (dir_without_all root [p] dir)
  = dir_without_all root (p :: ps) dir.
Proof. destruct dir; reflexivity. Qed.

Lemma os_remove_eq p root dir clock trace :
  let w := mkWorld root dir clock trace in
  let r := remove_outcome p w in
  os_remove p w
  = (match r with None => Ok tt | Some e => Raise e end,
     mkWorld root
       (match r with
        | None => dir_without_all root [p] dir
        | Some e => if is_FileNotFoundError e
                    then dir_without_all root [p] dir else dir
        end)
       clock (trace ++ [(clock, EvRemove p r)])).
Proof.
  intros w r. unfold os_remove. fold r. subst w.
  destruct r as [e|]; rewrite ?unlink_eq; [|reflexivity].
  destruct (is_FileNotFoundError e); rewrite ?unlink_eq; reflexivity.
Qed.

Lemma reclaim_loop_general max_bytes :
  forall files total deleted root dir clock trace,
  exists (n : Z) (atts : list attempt) (ps : list string),
    reclaim_loop max_bytes files total deleted (mkWorld root dir clock trace)
    = (Ok n, mkWorld root (dir_without_all root ps dir) clock
                     (trace ++ map (attempt_event clock) atts))
    /\ map fst atts = firstn (List.length atts) files
    /\ incl ps (map f_path files)
    /\ n = deleted + Z.of_nat (List.length (filter succeeded atts))
    /\ fault_last atts.
Proof.
  induction files as [|f files IH]; intros total deleted root dir clock trace.
  - exists deleted, [], []. simpl.
    repeat split.
    + destruct (total >? max_bytes), dir; unfold ret; simpl;
        now rewrite app_nil_r.
    + apply incl_refl.
    + lia.
    + intros a x b H. now destruct a.
  - cbn [reclaim_loop].
    destruct (total >? max_bytes).
    2:{ exists deleted, [], []. repeat split.
        - unfold ret. destruct dir; simpl; now rewrite app_nil_r.
        - intros x [].
        - simpl. lia.
        - intros a x b H. now destruct a. }
    rewrite os_remove_eq.
    destruct (remove_outcome (f_path f) (mkWorld root dir clock trace))
      as [e|] eqn:R.
    + destruct (is_FileNotFoundError e) eqn:F.
      * destruct (IH total deleted root (dir_without_all root [f_path f] dir)
                     clock (trace ++ [(clock, EvRemove (f_path f) (Some e))]))
          as (n & atts & ps & E & P & I & C & L).
        exists n, ((f, Some e) :: atts), (f_path f :: ps).
        rewrite E, dir_without_all_cons, <- app_assoc. simpl.
        repeat split.
        -- now rewrite P.
        -- intros x [<-|Hx]; [now left|right; now apply I].
        -- exact C.
        -- intros a x b H Fx. destruct a as [|a0 a]; simpl in H.
           ++ injection H as <- _. unfold faulted in Fx. simpl in Fx.
              rewrite F in Fx. discriminate.
           ++ injection H as _ H. eapply L; eauto.
      * exists deleted, [(f, Some e)], []. simpl. repeat split.
        -- destruct dir; reflexivity.
        -- intros x [].
        -- unfold succeeded. simpl. lia.
        -- intros a x b H _. destruct a as [|a0 a]; simpl in H.
           ++ now injection H as _ <-.
           ++ injection H as _ H. now destruct a.
    + destruct (IH (total - f_size f) (deleted + 1) root
                   (dir_without_all root [f_path f] dir)
                   clock (trace ++ [(clock, EvRemove (f_path f) None)]))
        as (n & atts & ps & E & P & I & C & L).
      assert (C' : n = deleted
                       + Z.of_nat (List.length
                                     (filter succeeded ((f, None) :: atts)))).
      { cbn [filter]. unfold succeeded at 1. cbn [snd List.length].
        rewrite Nat2Z.inj_succ. lia. }
      exists n, ((f, None) :: atts), (f_path f :: ps).
      rewrite E, dir_without_all_cons, <- app_assoc. simpl.
      repeat split.
      * now rewrite P.
      * intros x [<-|Hx]; [now left|right; now apply I].
      * exact C'.
      * intros a x b H Fx. destruct a as [|a0 a]; simpl in H.
        -- injection H as <- _. discriminate.
        -- injection H as _ H. eapply L; eauto.
Qed.

Lemma reclaim_loop_returns max_bytes files total deleted w :
  exists (n : Z) (atts : list attempt) (ps : list string),
    reclaim_loop max_bytes files total deleted w
    = (Ok n, mkWorld (w_root w) (dir_without_all (w_root w) ps (w_dir w))
                     (w_clock w)
                     (w_trace w ++ map (attempt_event (w_clock w)) atts))
    /\ map fst atts = firstn (List.length atts) files
    /\ incl ps (map f_path files)
    /\ n = deleted + Z.of_nat (List.length (filter succeeded atts))
    /\ fault_last atts.
Proof. destruct w. apply reclaim_loop_general. Qed.

Lemma remove_outcome_unlinked root dir clock trace clock' trace' p q :
  p <> q ->
  remove_outcome q (mkWorld root (dir_without_all root [p] dir) clock' trace')
  = remove_outcome q (mkWorld root dir clock trace).
Proof.
  intros Hpq. destruct dir as [es|e]; [|reflexivity].
  apply (remove_outcome_without root es clock trace clock' trace' p q Hpq).
Qed.

Lemma total_after_nil total : total_after total [] = total.
Proof. unfold total_after. simpl. rewrite sum_sizes_nil. lia. Qed.

Lemma total_after_deleted total f atts :
  total_after total ((f, None) :: atts) = total_after (total - f_size f) atts.
Proof.
  unfold total_after. cbn [filter]. unfold succeeded at 1. cbn [snd map fst].
  rewrite sum_sizes_cons. lia.
Qed.

Lemma total_after_failed total f e atts :
  total_after total ((f, Some e) :: atts) = total_after total atts.
Proof. reflexivity. Qed.

(** The pass in full: what it returns, what it leaves, which files it
    tries, with which outcome, and why it ends. *)
Lemma reclaim_loop_pass max_bytes :
  forall files total deleted root dir clock trace,
  exists (n : Z) (atts : list attempt),
    reclaim_loop max_bytes files total deleted (mkWorld root dir clock trace)
    = (Ok n, mkWorld root
               (dir_without_all root (map attempt_path (filter unlinked atts))
                                dir)
               clock (trace ++ map (attempt_event clock) atts))
    /\ map fst atts = firstn (List.length atts) files
    /\ n = deleted + Z.of_nat (List.length (filter succeeded atts))
    /\ fault_last atts
    /\ pass_ends max_bytes files total atts
    /\ (forall j, (j < List.length atts)%nat ->
                  total_after total (firstn j atts) > max_bytes)
    /\ (NoDup (map f_path files) ->
        forall a, In a atts ->
                  snd a = remove_outcome (f_path (fst a))
                                         (mkWorld root dir clock trace)).
Proof.
  induction files as [|f files IH]; intros total deleted root dir clock trace.
  - exists deleted, []. simpl. repeat split.
    + destruct (total >? max_bytes), dir; unfold ret; simpl;
        now rewrite app_nil_r.
    + lia.
    + intros a x b H. now destruct a.
    + right. now left.
    + intros j Hj. lia.
    + intros _ a [].
  - cbn [reclaim_loop].
    destruct (total >? max_bytes) eqn:T.
    2:{ exists deleted, []. repeat split.
        - unfold ret. destruct dir; simpl; now rewrite app_nil_r.
        - simpl. lia.
        - intros a x b H. now destruct a.
        - right. right. rewrite total_after_nil. lia.
        - simpl. intros j Hj. lia.
        - intros _ a []. }
    assert (T' : total > max_bytes) by lia.
    rewrite os_remove_eq.
    destruct (remove_outcome (f_path f) (mkWorld root dir clock trace))
      as [e|] eqn:R.
    + destruct (is_FileNotFoundError e) eqn:F.
      * destruct (IH total deleted root (dir_without_all root [f_path f] dir)
                     clock (trace ++ [(clock, EvRemove (f_path f) (Some e))]))
          as (n & atts & E & P & C & L & S & K & O).
        exists n, ((f, Some e) :: atts).
        assert (U : unlinked (f, Some e) = true)
          by (unfold unlinked, faulted; simpl; now rewrite F).
        rewrite E. cbn [filter]. rewrite U. cbn [map].
        unfold attempt_path at 1. cbn [fst].
        rewrite dir_without_all_cons, <- app_assoc.
        repeat split.
        -- simpl. now rewrite P.
        -- exact C.
        -- intros a x b H Fx. destruct a as [|a0 a]; simpl in H.
           ++ injection H as <- _. unfold faulted in Fx. simpl in Fx.
              rewrite F in Fx. discriminate.
           ++ injection H as _ H. eapply L; eauto.
        -- destruct S as [(pre & a & -> & Fa)|[S|S]].
           ++ left. exists ((f, Some e) :: pre), a. now split.
           ++ right. left. simpl. now rewrite S.
           ++ right. right. now rewrite total_after_failed.
        -- intros [|j] Hj; simpl in Hj.
           ++ cbn [firstn]. rewrite total_after_nil. exact T'.
           ++ cbn [firstn]. rewrite total_after_failed. apply K. lia.
        -- intros N a [<-|Ia]; [now rewrite <- R|].
           inversion N as [|? ? Nf N']; subst.
           rewrite (O N' a Ia). apply remove_outcome_unlinked.
           intros Ep. apply Nf. rewrite Ep. apply in_map.
           assert (Ifa : In (fst a) (map fst atts)) by now apply in_map.
           rewrite P in Ifa.
           rewrite <- (firstn_skipn (List.length atts) files).
           apply in_or_app. now left.
      * exists deleted, [(f, Some e)].
        assert (U : unlinked (f, Some e) = false)
          by (unfold unlinked, faulted; simpl; now rewrite F).
        cbn [filter]. rewrite U. repeat split.
        -- destruct dir; reflexivity.
        -- unfold succeeded. simpl. lia.
        -- intros a x b H _. destruct a as [|a0 a]; simpl in H.
           ++ now injection H as _ <-.
           ++ injection H as _ H. now destruct a.
        -- left. exists [], (f, Some e). split; [reflexivity|].
           unfold faulted. simpl. now rewrite F.
        -- intros [|j] Hj; simpl in Hj; [|lia].
           cbn [firstn]. rewrite total_after_nil. exact T'.
        -- intros _ a [<-|[]]. now rewrite <- R.
    + destruct (IH (total - f_size f) (deleted + 1) root
                   (dir_without_all root [f_path f] dir)
                   clock (trace ++ [(clock, EvRemove (f_path f) None)]))
        as (n & atts & E & P & C & L & S & K & O).
      assert (C' : n = deleted
                       + Z.of_nat (List.length
                                     (filter succeeded ((f, None) :: atts)))).
      { cbn [filter]. unfold succeeded at 1. cbn [snd List.length].
        rewrite Nat2Z.inj_succ. lia. }
      exists n, ((f, None) :: atts).
      assert (U : unlinked (f, @None exn) = true) by reflexivity.
      rewrite E. cbn [filter]. rewrite U. cbn [map].
      unfold attempt_path at 1. cbn [fst].
      rewrite dir_without_all_cons, <- app_assoc.
      repeat split.
      * simpl. now rewrite P.
      * exact C'.
      * intros a x b H Fx. destruct a as [|a0 a]; simpl in H.
        -- injection H as <- _. discriminate.
        -- injection H as _ H. eapply L; eauto.
      * destruct S as [(pre & a & -> & Fa)|[S|S]].
        -- left. exists ((f, None) :: pre), a. now split.
        -- right. left. simpl. now rewrite S.
        -- right. right. now rewrite total_after_deleted.
      * intros [|j] Hj; simpl in Hj.
        -- cbn [firstn]. rewrite total_after_nil. exact T'.
        -- cbn [firstn]. rewrite total_after_deleted. apply K. lia.
      * intros N a [<-|Ia]; [now rewrite <- R|].
        inversion N as [|? ? Nf N']; subst.
        rewrite (O N' a Ia). apply remove_outcome_unlinked.
        intros Ep. apply Nf. rewrite Ep. apply in_map.
        assert (Ifa : In (fst a) (map fst atts)) by now apply in_map.
        rewrite P in Ifa.
        rewrite <- (firstn_skipn (List.length atts) files).
        apply in_or_app. now left.
Qed.

(** The paths of an inventory are distinct when those of the directory
    are. *)
Lemma list_recording_files_NoDup output_dir w es files w' :
  w_dir w = Ok es -> wf_dir (w_root w) es ->
  list_recording_files output_dir w = (Ok files, w') ->
  NoDup (map f_path files).
Proof.
  intros D N L.
  destruct (String.eqb output_dir (w_root w)) eqn:E.
  - apply String.eqb_eq in E. subst output_dir.
    rewrite (list_recording_files_inventory w es files w' D N L).
    apply (Permutation_NoDup
             (l := map f_path (inventory (w_root w) es))).
    + apply Permutation_map. symmetry. apply sort_by_mtime_perm.
    + now apply inventory_NoDup.
  - unfold list_recording_files, try_except, bind, os_listdir, ret, raise in L.
    rewrite E in L. simpl in L. injection L as <- _. constructor.
Qed.

(* ------------------------------------------------------------------ *)
(** ** Failures of a deletion *)

(** C7. The loop of [enforce_storage_cap] always returns, never raises:
    its result is [deleted] plus the number of successful deletions, the
    files it tried are the oldest ones in order, and a failure other than
    a missing file is its last attempt.  When the oldest file is missing
    the loop goes on with the rest, count and total unchanged; on any
    other failure it returns at once with the count so far, having made
    no further attempt.  A pass of [enforce_storage_cap] over an inventory
    it could take is that loop started with the sum of the sizes and a
    count of 0: it returns the number of files it deleted, logs one
    [os.remove] per attempt, tries the files of the inventory oldest first
    without leaving one out, each with the outcome [os.remove] has for it,
    takes the deleted and the missing files out of the directory and
    leaves a file it could not delete in it, makes every attempt with a
    running total above the cap, and ends only after a fault, when no
    file is left, or when the running total, from which only deleted
    files are subtracted, is no longer above the cap. *)
Theorem delete_failure_policy :
  forall max_bytes files total deleted w,
    (exists n atts w',
       reclaim_loop max_bytes files total deleted w = (Ok n, w')
       /\ w_trace w' = w_trace w ++ map (attempt_event (w_clock w)) atts
       /\ map fst atts = firstn (List.length atts) files
       /\ n = deleted + Z.of_nat (List.length (filter succeeded atts))
       /\ fault_last atts)
    /\ (forall f files',
          files = f :: files' -> total > max_bytes ->
          remove_outcome (f_path f) w = Some FileNotFoundError ->
          reclaim_loop max_bytes files total deleted w
          = reclaim_loop max_bytes files' total deleted
                         (snd (os_remove (f_path f) w)))
    /\ (forall f files' e,
          files = f :: files' -> total > max_bytes ->
          remove_outcome (f_path f) w = Some e ->
          is_FileNotFoundError e = false ->
          exists w',
            reclaim_loop max_bytes files total deleted w = (Ok deleted, w')
            /\ w_trace w'
               = w_trace w ++ [(w_clock w, EvRemove (f_path f) (Some e))]
            /\ w_dir w' = w_dir w)
    /\ (forall output_dir,
          list_recording_files output_dir w = (Ok files, w) ->
          exists n atts w',
            enforce_storage_cap output_dir max_bytes w = (Ok n, w')
            /\ w_root w' = w_root w /\ w_clock w' = w_clock w
            /\ w_trace w' = w_trace w ++ map (attempt_event (w_clock w)) atts
            /\ w_dir w'
               = dir_without_all (w_root w)
                   (map attempt_path (filter unlinked atts)) (w_dir w)
            /\ map fst atts = firstn (List.length atts) files
            /\ n = Z.of_nat (List.length (filter succeeded atts))
            /\ fault_last atts
            /\ pass_ends max_bytes files (sum_sizes files) atts
            /\ (forall j, (j < List.length atts)%nat ->
                  total_after (sum_sizes files) (firstn j atts) > max_bytes)
            /\ (forall es, w_dir w = Ok es -> wf_dir (w_root w) es ->
                  forall a, In a atts ->
                    snd a = remove_outcome (f_path (fst a)) w)).
Proof.
  intros max_bytes files total deleted w. repeat split.
  - destruct (reclaim_loop_returns max_bytes files total deleted w)
      as (n & atts & ps & E & P & _ & C & L).
    exists n, atts. eexists. split; [exact E|]. auto.
  - intros f files' -> T R. cbn [reclaim_loop].
    assert ((total >? max_bytes) = true) as -> by lia.
    destruct w as [root dir clock trace].
    rewrite os_remove_eq, R. reflexivity.
  - intros f files' e -> T R F. cbn [reclaim_loop].
    assert ((total >? max_bytes) = true) as -> by lia.
    destruct w as [root dir clock trace].
    rewrite os_remove_eq, R, F. eexists. split; [reflexivity|]. auto.
  - intros output_dir L.
    unfold enforce_storage_cap, bind. rewrite L.
    destruct w as [root dir clock trace].
    destruct (reclaim_loop_pass max_bytes files (sum_sizes files) 0
                                root dir clock trace)
      as (n & atts & E & P & C & F & S & K & O).
    exists n, atts. eexists. split; [exact E|].
    cbn [w_root w_clock w_trace w_dir].
    refine (conj eq_refl (conj eq_refl (conj eq_refl (conj eq_refl
             (conj P (conj _ (conj F (conj S (conj K _))))))))).
    + lia.
    + intros es D N. apply O.
      exact (list_recording_files_NoDup
               output_dir (mkWorld root dir clock trace) es files _ D N L).
Qed.

Lemma delete_failure_policy_witness :
  (* the vanished a.mp4 is passed over *)
  reclaim_loop 2 troubled_files 20 0 troubled
  = reclaim_loop 2 (tl troubled_files) 20 0
                 (snd (os_remove "rec/a.mp4" troubled))
  (* the undeletable c.mp4 ends a pass that starts with it *)
  /\ (exists w',
        reclaim_loop 2 (tl (tl troubled_files)) 15 1 troubled = (Ok 1, w')
        /\ w_trace w'
           = [(50%Q, EvRemove "rec/c.mp4" (Some PermissionError))]
        /\ w_dir w' = w_dir troubled)
  (* the whole pass: a.mp4 is gone, b.mp4 is deleted, c.mp4 ends the pass,
     d.mp4 is not tried; one file was deleted *)
  /\ (exists n atts w',
        enforce_storage_cap "rec" 2 troubled = (Ok n, w')
        /\ w_root w' = w_root troubled /\ w_clock w' = w_clock troubled
        /\ w_trace w'
           = w_trace troubled ++ map (attempt_event (w_clock troubled)) atts
        /\ w_dir w'
           = dir_without_all (w_root troubled)
               (map attempt_path (filter unlinked atts)) (w_dir troubled)
        /\ map fst atts = firstn (List.length atts) troubled_files
        /\ n = Z.of_nat (List.length (filter succeeded atts))
        /\ fault_last atts
        /\ pass_ends 2 troubled_files (sum_sizes troubled_files) atts
        /\ (forall j, (j < List.length atts)%nat ->
              total_after (sum_sizes troubled_files) (firstn j atts) > 2)
        /\ (forall es, w_dir troubled = Ok es -> wf_dir (w_root troubled) es ->
              forall a, In a atts ->
                snd a = remove_outcome (f_path (fst a)) troubled))
  /\ enforce_storage_cap "rec" 2 troubled
     = (Ok 1,
        mkWorld "rec"
          (Ok [ mkDirent "c.mp4" (Ok (3%Q, 5)) (Some PermissionError);
                mkDirent "d.mp4" (Ok (4%Q, 5)) None ])
          50 (map (attempt_event 50) troubled_attempts)).
Proof.
  split; [|split; [|split]].
  - apply (proj1 (proj2 (delete_failure_policy 2 troubled_files 20 0 troubled))
             _ (tl troubled_files) eq_refl); reflexivity.
  - apply (proj1 (proj2 (proj2
             (delete_failure_policy 2 (tl (tl troubled_files)) 15 1 troubled)))
             _ (tl (tl (tl troubled_files))) PermissionError eq_refl);
      reflexivity.
  - apply (proj2 (proj2 (proj2
             (delete_failure_policy 2 troubled_files 20 0 troubled)))).
    vm_compute. reflexivity.
  - vm_compute. reflexivity.
Defined.

(* ------------------------------------------------------------------ *)
(** ** Idempotence *)

Lemma enforce_storage_cap_under output_dir max_bytes w s :
  folder_size_bytes output_dir w = (Ok s, w) ->
  s <= max_bytes ->
  enforce_storage_cap output_dir max_bytes w = (Ok 0, w).
Proof.
  intros F S.
  unfold folder_size_bytes, enforce_storage_cap, bind, ret in *.
  destruct (list_recording_files output_dir w) as [[files|e] w1] eqn:L;
    [|discriminate].
  injection F as <- ->.
  destruct files; cbn [reclaim_loop];
    (assert ((sum_sizes _ >? max_bytes) = false) as -> by lia); reflexivity.
Qed.

(** C9. When the segments of the directory sum to [max_bytes] or less,
    [enforce_storage_cap] returns 0 and leaves the world as it is: nothing
    is deleted and no deletion is attempted.  So a second call right after
    a pass that ended under the cap deletes nothing. *)
Theorem reclaim_idempotent :
  forall output_dir max_bytes w s,
    folder_size_bytes output_dir w = (Ok s, w) ->
    s <= max_bytes ->
    enforce_storage_cap output_dir max_bytes w = (Ok 0, w)
    /\ (forall w0 n,
          enforce_storage_cap output_dir max_bytes w0 = (Ok n, w) ->
          enforce_storage_cap output_dir max_bytes w = (Ok 0, w)).
Proof.
  intros output_dir max_bytes w s F S.
  pose proof (enforce_storage_cap_under _ _ _ _ F S) as E.
  split; [exact E|]. intros; exact E.
Qed.

Lemma reclaim_idempotent_witness :
  enforce_storage_cap OUTPUT_DIR default_cap scenario_A5 = (Ok 0, scenario_A5)
  /\ (forall w0 n,
        enforce_storage_cap OUTPUT_DIR default_cap w0 = (Ok n, scenario_A5) ->
        enforce_storage_cap OUTPUT_DIR default_cap scenario_A5
        = (Ok 0, scenario_A5)).
Proof.
  apply (reclaim_idempotent OUTPUT_DIR default_cap scenario_A5 (5 * two_GB)).
  - vm_compute. reflexivity.
  - vm_compute. discriminate.
Defined.

(* ------------------------------------------------------------------ *)
(** ** Only segments are counted and deleted *)

Lemma status_path_not_mp4 root name :
  is_status_name name = true ->
  endswith (os_path_join root name) ".mp4" = false.
Proof.
  intros H. destruct (endswith (os_path_join root name) ".mp4") eqn:E; auto.
  destruct (os_path_join_suffix root name) as [pre J]. rewrite J in E.
  unfold is_status_name in H. apply orb_prop in H as [H|H];
    apply String.eqb_eq in H; subst name;
    apply endswith_tail in E; simpl; try lia; vm_compute in E; discriminate.
Qed.

Lemma segment_path_mp4 output_dir p :
  segment_path output_dir p ->
  endswith p ".mp4" = true
  /\ p <> os_path_join output_dir "status.json"
  /\ p <> os_path_join output_dir "status.json.tmp".
Proof.
  intros (name & Hn & ->).
  pose proof (endswith_join output_dir name _ Hn) as E.
  repeat split; auto; intros C; rewrite C in E;
    rewrite status_path_not_mp4 in E by reflexivity; discriminate.
Qed.

Lemma scan_segment_paths output_dir names : forall files fs w w',
  Forall (fun f => segment_path output_dir (f_path f)) files ->
  scan output_dir names files w = (Ok fs, w') ->
  Forall (fun f => segment_path output_dir (f_path f)) fs.
Proof.
  induction names as [|name names IH]; intros files fs w w' F H; simpl in H.
  - now injection H as <- _.
  - destruct (endswith name ".mp4") eqn:Hn; [|eauto].
    unfold bind, try_except, os_stat, ret, raise in H.
    destruct (lookup (os_path_join output_dir name) w) as [d|]; simpl in H;
      [|eauto].
    destruct (d_stat d) as [st|e]; simpl in H.
    + eapply IH; [|exact H]. apply Forall_app. split; [exact F|].
      constructor; [|constructor]. exists name. auto.
    + destruct (is_FileNotFoundError e); simpl in H; [eauto|discriminate].
Qed.

Lemma list_recording_files_segment_paths output_dir w files w' :
  list_recording_files output_dir w = (Ok files, w') ->
  Forall (fun f => segment_path output_dir (f_path f)) files.
Proof.
  intros H.
  unfold list_recording_files, try_except, bind, ret, raise in H.
  destruct (os_listdir output_dir w) as [[names|e] w1].
  - destruct (scan output_dir names [] w1) as [[fs|e] w2] eqn:S.
    + injection H as <- _.
      eapply Permutation_Forall; [symmetry; apply sort_by_mtime_perm|].
      eapply scan_segment_paths; [|exact S]. constructor.
    + destruct (is_FileNotFoundError e); [|discriminate].
      injection H as <- _. constructor.
  - destruct (is_FileNotFoundError e); [|discriminate].
    injection H as <- _. constructor.
Qed.

Lemma find_strip_status root p es :
  endswith p ".mp4" = true ->
  find (fun d => String.eqb (d_path root d) p)
       (filter (fun d => negb (is_status_name (d_name d))) es)
  = find (fun d => String.eqb (d_path root d) p) es.
Proof.
  intros Hp. induction es as [|d es IH]; simpl; [reflexivity|].
  destruct (is_status_name (d_name d)) eqn:Sd; simpl.
  - destruct (String.eqb (d_path root d) p) eqn:E; [|exact IH].
    apply String.eqb_eq in E. unfold d_path in E. rewrite <- E in Hp.
    rewrite status_path_not_mp4 in Hp by exact Sd. discriminate.
  - now rewrite IH.
Qed.

Lemma scan_strip_status output_dir w : forall es files,
  fst (scan output_dir
            (map d_name (filter (fun d => negb (is_status_name (d_name d))) es))
            files (strip_status w))
  = fst (scan output_dir (map d_name es) files w).
Proof.
  induction es as [|d es IH]; intros files; [reflexivity|].
  cbn [filter map].
  destruct (is_status_name (d_name d)) eqn:Sd; cbn [negb map scan].
  - assert (endswith (d_name d) ".mp4" = false) as ->.
    { unfold is_status_name in Sd. apply orb_prop in Sd as [H|H];
        apply String.eqb_eq in H; rewrite H; reflexivity. }
    apply IH.
  - destruct (endswith (d_name d) ".mp4") eqn:Hn; [|apply IH].
    unfold bind, try_except, os_stat, ret, raise.
    assert (L : lookup (os_path_join output_dir (d_name d)) (strip_status w)
                = lookup (os_path_join output_dir (d_name d)) w).
    { unfold lookup, strip_status. simpl. destruct (w_dir w); [|reflexivity].
      apply find_strip_status. now apply endswith_join. }
    rewrite L.
    destruct (lookup (os_path_join output_dir (d_name d)) w) as [d'|]; simpl;
      [|apply IH].
    destruct (d_stat d') as [st|e]; simpl; [apply IH|].
    destruct (is_FileNotFoundError e); simpl; [apply IH|reflexivity].
Qed.

Lemma list_recording_files_strip_status output_dir w :
  fst (list_recording_files output_dir (strip_status w))
  = fst (list_recording_files output_dir w).
Proof.
  unfold list_recording_files, try_except, bind, os_listdir, ret, raise.
  cbn [strip_status w_root w_dir].
  destruct (String.eqb output_dir (w_root w)); [|reflexivity].
  destruct (w_dir w) as [es|e]; [|now destruct (is_FileNotFoundError e)].
  pose proof (scan_strip_status output_dir w es []) as H.
  unfold strip_status in H.
  destruct (scan output_dir
              (map d_name (filter (fun d => negb (is_status_name (d_name d))) es))
              [] _) as [[fs1|e1] w1];
    destruct (scan output_dir (map d_name es) [] w) as [[fs2|e2] w2];
    simpl in H; try discriminate.
  - now injection H as ->.
  - injection H as ->. now destruct (is_FileNotFoundError e2).
Qed.

Lemma without_all_keeps root e : forall ps es,
  In e es -> ~ In (d_path root e) ps -> In e (without_all root ps es).
Proof.
  unfold without_all. induction ps as [|p ps IH]; intros es I N; simpl; auto.
  apply IH.
  - unfold without. apply filter_In. split; [exact I|].
    destruct (String.eqb (d_path root e) p) eqn:E; [|reflexivity].
    apply String.eqb_eq in E. exfalso. apply N. now left.
  - intros C. apply N. now right.
Qed.

(** Everything [enforce_storage_cap] can do to the world. *)
Lemma enforce_storage_cap_general output_dir max_bytes w r w' :
  enforce_storage_cap output_dir max_bytes w = (r, w') ->
  exists (atts : list attempt) (ps : list string),
    w' = mkWorld (w_root w) (dir_without_all (w_root w) ps (w_dir w))
                 (w_clock w)
                 (w_trace w ++ map (attempt_event (w_clock w)) atts)
    /\ Forall (segment_path output_dir) ps
    /\ Forall (fun a => segment_path output_dir (f_path (fst a))) atts
    /\ (forall n, r = Ok n ->
                  n = Z.of_nat (List.length (filter succeeded atts))).
Proof.
  unfold enforce_storage_cap, bind. intros H.
  destruct (list_recording_files output_dir w) as [[files|e] w1] eqn:L.
  - pose proof (list_recording_files_world _ _ _ _ L) as ->.
    pose proof (list_recording_files_segment_paths _ _ _ _ L) as SP.
    destruct (reclaim_loop_returns max_bytes files (sum_sizes files) 0 w)
      as (n & atts & ps & E & P & I & C & _).
    rewrite E in H. injection H as <- <-.
    exists atts, ps. split; [reflexivity|]. repeat split.
    + apply Forall_forall. intros p Hp. apply I in Hp.
      apply in_map_iff in Hp as (f & <- & Hf).
      revert f Hf. now apply Forall_forall.
    + apply Forall_forall. intros a Ha.
      assert (Hf : In (fst a) files).
      { apply (in_map fst) in Ha. rewrite P in Ha.
        rewrite <- (firstn_skipn (List.length atts) files).
        apply in_or_app. now left. }
      revert Hf. generalize (fst a). now apply Forall_forall.
    + intros n' [= <-]. lia.
  - pose proof (list_recording_files_world _ _ _ _ L) as ->.
    injection H as <- <-. exists [], []. repeat split; auto.
    + destruct w as [root [es|e'] clock trace]; simpl; now rewrite app_nil_r.
    + discriminate.
Qed.

(** C10. The inventory holds only paths built from names ending in
    [.mp4], none of which is the path of [status.json] or of
    [status.json.tmp]; the folder size is the same with and without those
    two entries in the directory; and a pass of [enforce_storage_cap] only
    adds [os.remove] calls on such segment paths to the trace, and leaves
    every entry named [status.json] or [status.json.tmp] in the
    directory. *)
Theorem only_segments_touched :
  forall output_dir max_bytes w,
    (forall files w1 f,
       list_recording_files output_dir w = (Ok files, w1) -> In f files ->
       endswith (f_path f) ".mp4" = true
       /\ f_path f <> os_path_join output_dir "status.json"
       /\ f_path f <> os_path_join output_dir "status.json.tmp")
    /\ fst (folder_size_bytes output_dir (strip_status w))
       = fst (folder_size_bytes output_dir w)
    /\ (forall r w',
          enforce_storage_cap output_dir max_bytes w = (r, w') ->
          exists evs,
            w_trace w' = w_trace w ++ evs
            /\ Forall (fun te => is_remove te = true) evs
            /\ (forall t p o, In (t, EvRemove p o) evs ->
                  endswith p ".mp4" = true
                  /\ p <> os_path_join output_dir "status.json"
                  /\ p <> os_path_join output_dir "status.json.tmp")
            /\ (forall es e,
                  w_dir w = Ok es -> In e es ->
                  is_status_name (d_name e) = true ->
                  exists es', w_dir w' = Ok es' /\ In e es')).
Proof.
  intros output_dir max_bytes w. split; [|split].
  - intros files w1 f L I. apply segment_path_mp4.
    pose proof (list_recording_files_segment_paths _ _ _ _ L) as SP.
    revert f I. now apply Forall_forall.
  - unfold folder_size_bytes, bind, ret.
    pose proof (list_recording_files_strip_status output_dir w) as H.
    destruct (list_recording_files output_dir (strip_status w)) as [[f1|e1] w1];
      destruct (list_recording_files output_dir w) as [[f2|e2] w2];
      simpl in *; congruence.
  - intros r w' E.
    destruct (enforce_storage_cap_general _ _ _ _ _ E)
      as (atts & ps & -> & Pps & Patts & _).
    eexists. split; [reflexivity|]. split; [|split].
    + apply Forall_forall. intros te I.
      apply in_map_iff in I as (a & <- & _). reflexivity.
    + intros t p o I. apply in_map_iff in I as (a & Ea & Ia).
      injection Ea as _ <- _. apply segment_path_mp4.
      revert a Ia. now apply Forall_forall.
    + intros es e D I S. simpl. rewrite D. simpl.
      eexists. split; [reflexivity|].
      apply without_all_keeps; [exact I|].
      intros C. eapply Forall_forall in C; [|exact Pps].
      apply segment_path_mp4 in C as [C _]. unfold d_path in C.
      rewrite status_path_not_mp4 in C by exact S. discriminate.
Qed.

Lemma only_segments_touched_witness :
  fst (folder_size_bytes "rec" (strip_status with_status))
  = fst (folder_size_bytes "rec" with_status)
  /\ exists evs,
       w_trace (snd (enforce_storage_cap "rec" 2 with_status))
       = w_trace with_status ++ evs
       /\ Forall (fun te => is_remove te = true) evs
       /\ (forall t p o, In (t, EvRemove p o) evs ->
             endswith p ".mp4" = true
             /\ p <> os_path_join "rec" "status.json"
             /\ p <> os_path_join "rec" "status.json.tmp")
       /\ (forall es e,
             w_dir with_status = Ok es -> In e es ->
             is_status_name (d_name e) = true ->
             exists es',
               w_dir (snd (enforce_storage_cap "rec" 2 with_status)) = Ok es'
               /\ In e es').
Proof.
  split.
  - apply (only_segments_touched "rec" 2 with_status).
  - apply (proj2 (proj2 (only_segments_touched "rec" 2 with_status))
             (fst (enforce_storage_cap "rec" 2 with_status))).
    vm_compute. reflexivity.
Defined.

(* ------------------------------------------------------------------ *)
(** ** The main loop *)

Lemma tick_eq json_len e s w :
  tick json_len e s w
  = match e_poll e with
    | Some _ => report_death json_len e (woken e w)
    | None => evaluate json_len e s (woken e w)
    end.
Proof.
  unfold tick, woken, bind, time_sleep, surroundings, proc_poll, log, ret.
  cbn [w_root w_dir w_clock w_trace]. destruct (e_poll e); reflexivity.
Qed.

Lemma write_status_ok json_len st w es :
  w_root w = OUTPUT_DIR -> w_dir w = Ok es ->
  write_status json_len OUTPUT_DIR st w
  = (Ok tt,
     mkWorld (w_root w)
             (Ok (published_dir json_len (w_root w) (w_clock w) st es))
             (w_clock w)
             (w_trace w ++ [(w_clock w, EvWriteStatus st)])).
Proof.
  intros R D. unfold write_status. rewrite R, String.eqb_refl, D.
  unfold published_dir, log, set_dir. cbn [w_root w_dir w_clock w_trace].
  now rewrite R.
Qed.

Lemma write_status_cases json_len output_dir st w r w' :
  write_status json_len output_dir st w = (r, w') ->
  (exists x, r = Raise x /\ w' = w)
  \/ (r = Ok tt
      /\ w_root w' = w_root w /\ w_clock w' = w_clock w
      /\ w_trace w' = w_trace w ++ [(w_clock w, EvWriteStatus st)]).
Proof.
  unfold write_status. intros H.
  destruct (String.eqb output_dir (w_root w)).
  - destruct (w_dir w) as [es|x].
    + right. unfold log, set_dir in H. injection H as <- <-. auto.
    + left. injection H as <- <-. eauto.
  - left. injection H as <- <-. eauto.
Qed.

(** The branch of an exited subprocess, outcome by outcome. *)
Lemma report_death_eq json_len e w :
  report_death json_len e w
  = match write_status json_len OUTPUT_DIR
            (death_status (w_clock w) (e_stderr_tail e)) w with
    | (Raise x, w1) => (Raise x, w1)
    | (Ok _, w1) =>
        let t1 := (w_clock w1 + RESTART_BACKOFF_SECONDS
                   + e_backoff_overrun e)%Q in
        let slept := w_trace w1 ++ [(t1, EvSleep RESTART_BACKOFF_SECONDS)] in
        match e_popen e with
        | Ok pid => (Ok (mkLocals pid t1),
                     mkWorld (w_root w1) (w_dir w1) t1
                             (slept ++ [(t1, EvPopen pid)]))
        | Raise x => (Raise x, mkWorld (w_root w1) (w_dir w1) t1 slept)
        end
    end.
Proof.
  unfold report_death, bind, time_time.
  destruct (write_status json_len OUTPUT_DIR _ w) as [[[]|x] w1];
    [|reflexivity].
  unfold time_sleep, log, subprocess_Popen, bind, ret, raise.
  cbn [w_root w_dir w_clock w_trace].
  destruct (e_popen e); reflexivity.
Qed.

Lemma newest_recording_mtime_pure output_dir w :
  snd (newest_recording_mtime output_dir w) = w.
Proof.
  unfold newest_recording_mtime, bind, ret.
  pose proof (list_recording_files_pure output_dir w) as P.
  destruct (list_recording_files output_dir w) as [[[|f fs]|x] w1];
    simpl in *; auto.
Qed.

Lemma folder_size_bytes_pure output_dir w :
  snd (folder_size_bytes output_dir w) = w.
Proof.
  unfold folder_size_bytes, bind, ret.
  pose proof (list_recording_files_pure output_dir w) as P.
  destruct (list_recording_files output_dir w) as [[fs|x] w1]; simpl in *; auto.
Qed.

(** An iteration with a live subprocess that runs to its end. *)
Lemma evaluate_ok json_len e s w s' w' :
  evaluate json_len e s w = (Ok s', w') ->
  exists newest deleted w2 folder_bytes,
    newest_recording_mtime OUTPUT_DIR w = (Ok newest, w)
    /\ enforce_storage_cap OUTPUT_DIR default_cap w = (Ok deleted, w2)
    /\ folder_size_bytes OUTPUT_DIR (reclaimed deleted w2)
       = (Ok folder_bytes, reclaimed deleted w2)
    /\ write_status json_len OUTPUT_DIR
         (evaluated_status e s newest (w_clock w) deleted folder_bytes)
         (reclaimed deleted w2)
       = (Ok tt, w')
    /\ w_clock w2 = w_clock w
    /\ s' = mkLocals (proc_pid s)
                     (snd (health_check newest (w_clock w) (last_ok_time s))).
Proof.
  unfold evaluate, bind at 1. intros H.
  pose proof (newest_recording_mtime_pure OUTPUT_DIR w) as Pn.
  destruct (newest_recording_mtime OUTPUT_DIR w) as [[newest|x] w1] eqn:En;
    simpl in Pn; subst w1; [|discriminate].
  unfold bind at 1, time_time at 1 in H.
  destruct (health_check newest (w_clock w) (last_ok_time s))
    as [[healthy reason] last_ok] eqn:Hc.
  unfold bind at 1 in H. fold default_cap in H.
  destruct (enforce_storage_cap OUTPUT_DIR default_cap w)
    as [[deleted|x] w2] eqn:E; [|discriminate].
  destruct (enforce_storage_cap_general _ _ _ _ _ E) as (atts & ps & W2 & _).
  assert (C2 : w_clock w2 = w_clock w) by (subst w2; reflexivity).
  unfold bind at 1, log at 1 in H. fold (reclaimed deleted w2) in H.
  unfold bind at 1 in H.
  pose proof (folder_size_bytes_pure OUTPUT_DIR (reclaimed deleted w2)) as Pf.
  destruct (folder_size_bytes OUTPUT_DIR (reclaimed deleted w2))
    as [[folder_bytes|x] w3] eqn:Ef; simpl in Pf; subst w3; [|discriminate].
  destruct (resource_usage (e_metrics e)) as [cpu mem_mb] eqn:Ru.
  unfold bind at 1, time_time at 1 in H.
  unfold bind, ret in H. cbn [w_clock reclaimed] in H. rewrite C2 in H.
  destruct (write_status json_len OUTPUT_DIR _ (reclaimed deleted w2))
    as [[[]|x] w4] eqn:Wr; [|discriminate].
  injection H as <- <-.
  exists newest, deleted, w2, folder_bytes.
  unfold evaluated_status. rewrite Hc, Ru, Ef. cbn [fst snd]. auto 7.
Qed.

Lemma new_events_app w w' evs :
  w_trace w' = w_trace w ++ evs -> new_events w w' = evs.
Proof.
  intros H. unfold new_events. rewrite H.
  rewrite skipn_app, skipn_all, Nat.sub_diag. reflexivity.
Qed.

(** The events of an iteration with a live subprocess, however it ends:
    the attempts of the pass, then the return of the pass, then the one
    write of the status file, which is the last thing it does. *)
Lemma evaluate_trace json_len e s w r w' :
  evaluate json_len e s w = (r, w') ->
  exists atts tail,
    w_trace w' = w_trace w ++ map (attempt_event (w_clock w)) atts ++ tail
    /\ ((tail = [] /\ exists x, r = Raise x)
        \/ (exists n x, tail = [(w_clock w, EvReclaim n)] /\ r = Raise x)
        \/ (exists newest n fb s',
              tail = [(w_clock w, EvReclaim n);
                      (w_clock w,
                       EvWriteStatus
                         (evaluated_status e s newest (w_clock w) n fb))]
              /\ r = Ok s' /\ evaluated e s w newest n fb s')).
Proof.
  intros H. destruct r as [s'|x].
  - destruct (evaluate_ok _ _ _ _ _ _ H)
      as (newest & deleted & w2 & fb & N & E & F & Wr & C2 & S').
    destruct (enforce_storage_cap_general _ _ _ _ _ E)
      as (atts & ps & W2 & _).
    apply write_status_cases in Wr as [(x & Hx & _)|(_ & _ & _ & T)];
      [discriminate|].
    exists atts. eexists. split.
    + rewrite T. unfold reclaimed. cbn [w_trace w_clock].
      rewrite W2. cbn [w_trace w_clock]. rewrite <- !app_assoc. reflexivity.
    + right. right. exists newest, deleted, fb, s'.
      repeat split; eauto.
  - unfold evaluate, bind at 1 in H.
    pose proof (newest_recording_mtime_pure OUTPUT_DIR w) as Pn.
    destruct (newest_recording_mtime OUTPUT_DIR w) as [[newest|y] w1];
      simpl in Pn; subst w1.
    2:{ injection H as <- <-. exists [], []. simpl.
        rewrite app_nil_r. eauto. }
    unfold bind at 1, time_time at 1 in H.
    destruct (health_check newest (w_clock w) (last_ok_time s))
      as [[healthy reason] last_ok].
    unfold bind at 1 in H.
    destruct (enforce_storage_cap OUTPUT_DIR _ w) as [[deleted|y] w2] eqn:E;
      destruct (enforce_storage_cap_general _ _ _ _ _ E)
        as (atts & ps & W2 & _).
    2:{ injection H as <- <-. exists atts, []. rewrite W2. simpl.
        rewrite app_nil_r. eauto. }
    unfold bind at 1, log at 1 in H. fold (reclaimed deleted w2) in H.
    unfold bind at 1 in H.
    pose proof (folder_size_bytes_pure OUTPUT_DIR (reclaimed deleted w2)) as Pf.
    destruct (folder_size_bytes OUTPUT_DIR (reclaimed deleted w2))
      as [[folder_bytes|y] w3]; simpl in Pf; subst w3.
    2:{ injection H as <- <-. exists atts. eexists. split.
        - unfold reclaimed. rewrite W2. cbn [w_trace w_clock].
          rewrite <- app_assoc. reflexivity.
        - right. left. eauto. }
    destruct (resource_usage (e_metrics e)) as [cpu mem_mb].
    unfold bind at 1, time_time at 1 in H. unfold bind, ret in H.
    destruct (write_status json_len OUTPUT_DIR _ (reclaimed deleted w2))
      as [[[]|y] w4] eqn:Wr; [discriminate|].
    apply write_status_cases in Wr as [(z & _ & ->)|(Hx & _)];
      [|discriminate].
    injection H as <- <-. exists atts. eexists. split.
    + unfold reclaimed. rewrite W2. cbn [w_trace w_clock].
      rewrite <- app_assoc. reflexivity.
    + right. left. eauto.
Qed.

(** The events of the branch of an exited subprocess, however it ends. *)
Lemma report_death_trace json_len e w r w' :
  report_death json_len e w = (r, w') ->
  let report := death_status (w_clock w) (e_stderr_tail e) in
  let t1 := (w_clock w + RESTART_BACKOFF_SECONDS + e_backoff_overrun e)%Q in
  exists evs,
    w_trace w' = w_trace w ++ evs
    /\ (evs = []
        \/ evs = [(w_clock w, EvWriteStatus report);
                  (t1, EvSleep RESTART_BACKOFF_SECONDS)]
        \/ exists pid,
             evs = [(w_clock w, EvWriteStatus report);
                    (t1, EvSleep RESTART_BACKOFF_SECONDS);
                    (t1, EvPopen pid)]).
Proof.
  rewrite report_death_eq. intros H report t1.
  destruct (write_status json_len OUTPUT_DIR _ w) as [[[]|x] w1] eqn:Wr;
    apply write_status_cases in Wr as [(z & Hz & ->)|(Hz & R & C & T)];
    try discriminate.
  - cbv zeta in H. rewrite C in H. fold t1 in H.
    destruct (e_popen e) as [pid|y]; injection H as <- <-; eexists;
      (split; [cbn [w_trace]; rewrite T, <- !app_assoc; reflexivity|]);
      simpl; eauto.
  - exists []. injection H as <- <-. rewrite app_nil_r. auto.
Qed.

(** The events of one iteration. *)
Lemma tick_events json_len e s w r w' :
  tick json_len e s w = (r, w') ->
  let t0 := (w_clock w + CHECK_EVERY_SECONDS + e_overrun e)%Q in
  exists evs,
    w_trace w' = w_trace w
                 ++ (t0, EvSleep CHECK_EVERY_SECONDS)
                 :: (t0, EvPoll (e_poll e)) :: evs
    /\ match e_poll e with
       | Some _ =>
           let report := death_status t0 (e_stderr_tail e) in
           let t1 := (t0 + RESTART_BACKOFF_SECONDS + e_backoff_overrun e)%Q in
           evs = []
           \/ evs = [(t0, EvWriteStatus report);
                     (t1, EvSleep RESTART_BACKOFF_SECONDS)]
           \/ exists pid,
                evs = [(t0, EvWriteStatus report);
                       (t1, EvSleep RESTART_BACKOFF_SECONDS);
                       (t1, EvPopen pid)]
       | None =>
           exists atts tail,
             evs = map (attempt_event t0) atts ++ tail
             /\ ((tail = [] /\ exists x, r = Raise x)
                 \/ (exists n x, tail = [(t0, EvReclaim n)] /\ r = Raise x)
                 \/ (exists newest n fb s',
                       tail = [(t0, EvReclaim n);
                               (t0, EvWriteStatus
                                      (evaluated_status e s newest t0 n fb))]
                       /\ r = Ok s'
                       /\ evaluated e s (woken e w) newest n fb s'))
       end.
Proof.
  rewrite tick_eq. intros H t0.
  assert (W : w_trace (woken e w)
              = w_trace w ++ [(t0, EvSleep CHECK_EVERY_SECONDS);
                              (t0, EvPoll (e_poll e))]).
  { unfold woken. cbn [w_trace]. now rewrite <- app_assoc. }
  destruct (e_poll e) as [rc|] eqn:P.
  - apply report_death_trace in H as (evs & T & C).
    exists evs. split; [rewrite T, W, <- app_assoc; reflexivity|exact C].
  - apply evaluate_trace in H as (atts & tail & T & C).
    eexists. split; [rewrite T, W, <- app_assoc; reflexivity|].
    exists atts, tail. split; [reflexivity|exact C].
Qed.

(* ------------------------------------------------------------------ *)
(** ** Lists of events *)

Lemma follows_reclaim_no_write evs :
  Forall (fun te => is_write te = false) evs ->
  publication_follows_reclaim evs.
Proof.
  intros F a te b -> W. apply Forall_app in F as [_ F].
  inversion F; subst. congruence.
Qed.

Lemma follows_reclaim_last pre t n t' st :
  Forall (fun te => is_write te = false) pre ->
  publication_follows_reclaim
    (pre ++ [(t, EvReclaim n); (t', EvWriteStatus st)]).
Proof.
  induction pre as [|p pre IH]; intros F a te b E W.
  - destruct a as [|x a]; simpl in E.
    + injection E as <- _. discriminate.
    + injection E as <- _. reflexivity.
  - inversion F as [|? ? Fp F']; subst.
    destruct a as [|x a]; simpl in E.
    + injection E as <- _. congruence.
    + injection E as <- E. simpl. rewrite (IH F' a te b E W).
      apply orb_true_r.
Qed.

Lemma attempts_not_written t atts :
  Forall (fun te => is_write te = false) (map (attempt_event t) atts).
Proof. apply Forall_forall. intros te I. apply in_map_iff in I as (a & <- & _). reflexivity. Qed.

Lemma attempts_not_reclaim t atts te :
  In te (map (attempt_event t) atts) -> is_remove te = true.
Proof. intros I. apply in_map_iff in I as (a & <- & _). reflexivity. Qed.

(* ------------------------------------------------------------------ *)
(** ** Exit of the subprocess *)

(** C4. When [proc.poll()] reports an exit and the directory is there to
    write into, the iteration logs, in this order and with nothing in
    between: the poll at time [t0], the status record with
    [recording = false] and [reason = ffmpeg_exited] written at [t0], the
    end of the backoff sleep at [t1], and then the launch of the new
    subprocess at [t1], if [Popen] succeeds; and [t1] is at least
    [RESTART_BACKOFF_SECONDS] after [t0].  In any iteration whatever, a
    launch happens only after a poll that reported an exit, after the
    report of that exit was written, and no sooner than
    [RESTART_BACKOFF_SECONDS] after the poll. *)
Theorem death_report_then_backoff :
  forall json_len e s w,
    (0 <= e_backoff_overrun e)%Q ->
    let t0 := (w_clock w + CHECK_EVERY_SECONDS + e_overrun e)%Q in
    let report := death_status t0 (e_stderr_tail e) in
    (forall rc es,
       e_poll e = Some rc ->
       w_root w = OUTPUT_DIR ->
       e_capture e (w_dir w) = Ok es ->
       exists r w' t1 launch,
         tick json_len e s w = (r, w')
         /\ w_trace w'
            = w_trace w
              ++ [(t0, EvSleep CHECK_EVERY_SECONDS);
                  (t0, EvPoll (Some rc));
                  (t0, EvWriteStatus report);
                  (t1, EvSleep RESTART_BACKOFF_SECONDS)]
              ++ launch
         /\ get "recording" report = Some (JBool false)
         /\ get "reason" report = Some (JStr "ffmpeg_exited")
         /\ (t0 + RESTART_BACKOFF_SECONDS <= t1)%Q
         /\ match e_popen e with
            | Ok pid => launch = [(t1, EvPopen pid)]
                        /\ r = Ok (mkLocals pid t1)
            | Raise x => launch = [] /\ r = Raise x
            end)
    /\ (forall t pid,
          In (t, EvPopen pid) (new_events w (snd (tick json_len e s w))) ->
          (exists rc, In (t0, EvPoll (Some rc))
                         (new_events w (snd (tick json_len e s w))))
          /\ In (t0, EvWriteStatus report)
                (new_events w (snd (tick json_len e s w)))
          /\ (t0 + RESTART_BACKOFF_SECONDS <= t)%Q).
Proof.
  intros json_len e s w B t0 report.
  assert (T : (t0 + RESTART_BACKOFF_SECONDS
               <= t0 + RESTART_BACKOFF_SECONDS + e_backoff_overrun e)%Q).
  { rewrite <- (Qplus_0_r (t0 + RESTART_BACKOFF_SECONDS)) at 1.
    apply Qplus_le_r. exact B. }
  split.
  - intros rc es P R D.
    rewrite tick_eq, P, report_death_eq.
    rewrite (write_status_ok json_len _ (woken e w) es R D).
    cbn [w_root w_dir w_clock w_trace woken]. fold t0. rewrite P. fold report.
    set (t1 := (t0 + RESTART_BACKOFF_SECONDS + e_backoff_overrun e)%Q) in *.
    destruct (e_popen e) as [pid|x].
    + exists (Ok (mkLocals pid t1)). eexists. exists t1, [(t1, EvPopen pid)].
      split; [reflexivity|]. cbn [w_trace].
      rewrite <- !app_assoc. simpl. auto 7.
    + exists (Raise x). eexists. exists t1, [].
      split; [reflexivity|]. cbn [w_trace].
      rewrite <- !app_assoc. simpl. auto 7.
  - intros t pid I.
    destruct (tick json_len e s w) as [r w'] eqn:H. cbn [snd] in *.
    destruct (tick_events _ _ _ _ _ _ H) as (evs & Tr & C).
    fold t0 in Tr, C. rewrite (new_events_app _ _ _ Tr) in *.
    destruct I as [I|[I|I]]; try discriminate.
    destruct (e_poll e) as [rc|].
    + cbv zeta in C. fold report in C.
      destruct C as [->|[->|(pid' & ->)]].
      * destruct I.
      * destruct I as [I|[I|[]]]; discriminate.
      * destruct I as [I|[I|[I|[]]]]; try discriminate.
        injection I as <- _. split; [|split].
        -- exists rc. right. now left.
        -- right. right. now left.
        -- exact T.
    + exfalso. destruct C as (atts & tail & -> & C).
      apply in_app_or in I as [I|I].
      { apply attempts_not_reclaim in I. discriminate. }
      destruct C as [(-> & _)|[(n & x & -> & _)
                              |(newest & n & fb & s' & -> & _)]].
      * destruct I.
      * destruct I as [I|[]]. discriminate.
      * destruct I as [I|[I|[]]]; discriminate.
Qed.

Lemma death_report_then_backoff_witness :
  let t0 := (w_clock scenario_A5 + CHECK_EVERY_SECONDS
             + e_overrun exited_env)%Q in
  let report := death_status t0 (e_stderr_tail exited_env) in
  exists r w' t1 launch,
    tick plain_json_len exited_env start_locals scenario_A5 = (r, w')
    /\ w_trace w'
       = w_trace scenario_A5
         ++ [(t0, EvSleep CHECK_EVERY_SECONDS);
             (t0, EvPoll (Some 1));
             (t0, EvWriteStatus report);
             (t1, EvSleep RESTART_BACKOFF_SECONDS)]
         ++ launch
    /\ get "recording" report = Some (JBool false)
    /\ get "reason" report = Some (JStr "ffmpeg_exited")
    /\ (t0 + RESTART_BACKOFF_SECONDS <= t1)%Q
    /\ match e_popen exited_env with
       | Ok pid => launch = [(t1, EvPopen pid)] /\ r = Ok (mkLocals pid t1)
       | Raise x => launch = [] /\ r = Raise x
       end.
Proof.
  apply (proj1 (death_report_then_backoff plain_json_len exited_env
                  start_locals scenario_A5
                  ltac:(vm_compute; discriminate))
           1 five_segments).
  - reflexivity.
  - reflexivity.
  - reflexivity.
Defined.

(* ------------------------------------------------------------------ *)
(** ** Reclamation before publication *)

(** The claim C3 as stated fails: an exited subprocess is reported without
    any reclamation pass, here over a directory of 12 GB under the cap of
    10 GB. *)
Lemma publication_without_reclaim :
  ~ (forall json_len e s w,
       publication_follows_reclaim
         (new_events w (snd (tick json_len e s w)))).
Proof.
  intros H.
  specialize (H plain_json_len exited_env start_locals scenario_A6).
  set (evs := new_events scenario_A6
                (snd (tick plain_json_len exited_env start_locals scenario_A6)))
    in H.
  specialize (H (firstn 2 evs) (event_at 2 evs) (skipn 3 evs)).
  assert (C : existsb is_reclaim (firstn 2 evs) = true).
  { apply H; vm_compute; reflexivity. }
  vm_compute in C. discriminate.
Qed.

(** C3, amended. In an iteration with a live subprocess every write of the
    status file comes after the return of the reclamation pass of that
    iteration, and the record written holds the count that this pass
    returned and the folder size measured after it.  In an iteration that
    finds the subprocess exited there is no reclamation pass, and the
    record written has neither a folder size nor a deletion count. *)
Theorem publication_after_own_reclaim :
  forall json_len e s w r w',
    tick json_len e s w = (r, w') ->
    match e_poll e with
    | None =>
        publication_follows_reclaim (new_events w w')
        /\ (forall t st,
              In (t, EvWriteStatus st) (new_events w w') ->
              exists deleted w2 fb,
                enforce_storage_cap OUTPUT_DIR default_cap (woken e w)
                = (Ok deleted, w2)
                /\ folder_size_bytes OUTPUT_DIR (reclaimed deleted w2)
                   = (Ok fb, reclaimed deleted w2)
                /\ In (t, EvReclaim deleted) (new_events w w')
                /\ get "deleted_files_this_check" st = Some (JInt deleted)
                /\ get "folder_size_bytes" st = Some (JInt fb))
    | Some _ =>
        Forall (fun te => is_reclaim te = false) (new_events w w')
        /\ (forall t st,
              In (t, EvWriteStatus st) (new_events w w') ->
              get "deleted_files_this_check" st = None
              /\ get "folder_size_bytes" st = None)
    end.
Proof.
  intros json_len e s w r w' H.
  destruct (tick_events _ _ _ _ _ _ H) as (evs & T & C).
  rewrite (new_events_app _ _ _ T).
  destruct (e_poll e) as [rc|].
  - cbv zeta in C. destruct C as [->|[->|(pid & ->)]].
    + split; [repeat constructor|]. intros t st [I|[I|[]]]; discriminate.
    + split; [repeat constructor|].
      intros t st [I|[I|[I|[I|[]]]]]; try discriminate.
      injection I as _ <-. split; reflexivity.
    + split; [repeat constructor|].
      intros t st [I|[I|[I|[I|[I|[]]]]]]; try discriminate.
      injection I as _ <-. split; reflexivity.
  - destruct C as (atts & tail & -> & C).
    set (t0 := (w_clock w + CHECK_EVERY_SECONDS + e_overrun e)%Q) in *.
    assert (Pre : Forall (fun te => is_write te = false)
                    ((t0, EvSleep CHECK_EVERY_SECONDS)
                     :: (t0, EvPoll None) :: map (attempt_event t0) atts)).
    { repeat (constructor; [reflexivity|]). apply attempts_not_written. }
    destruct C as [(-> & _)|[(n & x & -> & _)
                            |(newest & n & fb & s' & -> & _ & _ & Ev & _)]].
    + rewrite app_nil_r. split; [now apply follows_reclaim_no_write|].
      intros t st I. exfalso.
      eapply Forall_forall in Pre; [|exact I]. discriminate.
    + split.
      * apply follows_reclaim_no_write.
        change (Forall (fun te => is_write te = false)
                  (((t0, EvSleep CHECK_EVERY_SECONDS)
                    :: (t0, EvPoll None) :: map (attempt_event t0) atts)
                   ++ [(t0, EvReclaim n)])).
        apply Forall_app. split; [exact Pre|]. repeat constructor.
      * intros t st I. exfalso.
        destruct I as [I|[I|I]]; try discriminate.
        apply in_app_or in I as [I|[I|[]]]; [|discriminate].
        apply attempts_not_reclaim in I. discriminate.
    + split.
      * change (publication_follows_reclaim
                  (((t0, EvSleep CHECK_EVERY_SECONDS)
                    :: (t0, EvPoll None) :: map (attempt_event t0) atts)
                   ++ [(t0, EvReclaim n);
                       (t0, EvWriteStatus
                              (evaluated_status e s newest t0 n fb))])).
        now apply follows_reclaim_last.
      * intros t st I. destruct Ev as (w2 & E & F).
        destruct I as [I|[I|I]]; try discriminate.
        apply in_app_or in I as [I|[I|[I|[]]]]; try discriminate.
        { apply attempts_not_reclaim in I. discriminate. }
        injection I as <- <-. exists n, w2, fb.
        repeat split; auto.
        right. right. apply in_or_app. right. now left.
Qed.

Lemma publication_after_own_reclaim_witness :
  let w' := snd (tick plain_json_len alive_env start_locals scenario_A6) in
  publication_follows_reclaim (new_events scenario_A6 w')
  /\ (forall t st,
        In (t, EvWriteStatus st) (new_events scenario_A6 w') ->
        exists deleted w2 fb,
          enforce_storage_cap OUTPUT_DIR default_cap
            (woken alive_env scenario_A6)
          = (Ok deleted, w2)
          /\ folder_size_bytes OUTPUT_DIR (reclaimed deleted w2)
             = (Ok fb, reclaimed deleted w2)
          /\ In (t, EvReclaim deleted) (new_events scenario_A6 w')
          /\ get "deleted_files_this_check" st = Some (JInt deleted)
          /\ get "folder_size_bytes" st = Some (JInt fb)).
Proof.
  apply (publication_after_own_reclaim plain_json_len alive_env start_locals
           scenario_A6
           (fst (tick plain_json_len alive_env start_locals scenario_A6))).
  vm_compute. reflexivity.
Defined.

(* ------------------------------------------------------------------ *)
(** ** The fields of a published record *)

(** The claim C2 as stated fails: the record that reports an exited
    subprocess has five keys, not the ten fields of a StatusRecord. *)
Lemma death_record_fields_differ :
  ~ (forall json_len e s w t st,
       In (t, EvWriteStatus st) (new_events w (snd (tick json_len e s w))) ->
       Permutation (keys st) spec_status_fields).
Proof.
  intros H.
  set (evs := new_events scenario_A5
                (snd (tick plain_json_len exited_env start_locals scenario_A5))).
  specialize (H plain_json_len exited_env start_locals scenario_A5
                (fst (event_at 2 evs)) (written (event_at 2 evs))).
  assert (P : Permutation (keys (written (event_at 2 evs))) spec_status_fields).
  { apply H. vm_compute. right. right. left. reflexivity. }
  apply Permutation_length in P. vm_compute in P. discriminate.
Qed.

(** C2, amended. A record written by an iteration with a live subprocess
    has the fourteen keys of [tick_keys]: every field of a StatusRecord and
    the four configuration keys besides; its cpu, memory and newest-segment
    entries are always there, [null] when the value is absent.  A record
    written on the exit of the subprocess has the five keys of
    [death_keys], with [recording = false], [reason = ffmpeg_exited] and a
    [null] pid; the other six fields of a StatusRecord are not in it. *)
Theorem published_fields :
  forall json_len e s w t st,
    In (t, EvWriteStatus st) (new_events w (snd (tick json_len e s w))) ->
    match e_poll e with
    | None =>
        keys st = tick_keys
        /\ incl spec_status_fields (keys st)
        /\ (forall k, In k (keys st) ->
                      In k spec_status_fields \/ In k config_keys)
        /\ get "ffmpeg_cpu_percent" st
           = Some (option_json JFloat (fst (resource_usage (e_metrics e))))
        /\ get "ffmpeg_mem_mb" st
           = Some (option_json JFloat (snd (resource_usage (e_metrics e))))
        /\ (exists newest,
              newest_recording_mtime OUTPUT_DIR (woken e w)
              = (Ok newest, woken e w)
              /\ get "newest_segment_mtime" st
                 = Some (option_json JFloat newest))
    | Some _ =>
        keys st = death_keys
        /\ get "recording" st = Some (JBool false)
        /\ get "reason" st = Some (JStr "ffmpeg_exited")
        /\ get "ffmpeg_pid" st = Some JNull
        /\ (forall k, In k spec_status_fields -> ~ In k death_keys ->
                      get k st = None)
    end.
Proof.
  intros json_len e s w t st I.
  destruct (tick json_len e s w) as [r w'] eqn:H. simpl in I.
  destruct (tick_events _ _ _ _ _ _ H) as (evs & T & C).
  rewrite (new_events_app _ _ _ T) in I.
  destruct I as [I|[I|I]]; try discriminate.
  destruct (e_poll e) as [rc|].
  - assert (S : st = death_status
                       (w_clock w + CHECK_EVERY_SECONDS + e_overrun e)%Q
                       (e_stderr_tail e)).
    { cbv zeta in C. destruct C as [->|[->|(pid & ->)]]; simpl in I;
        intuition (try discriminate); congruence. }
    subst st. repeat split.
    intros k Hk Nk. simpl in Hk.
    repeat (destruct Hk as [<-|Hk]; [try reflexivity; exfalso; apply Nk;
                                     simpl; tauto|]).
    destruct Hk.
  - destruct C as (atts & tail & -> & C).
    apply in_app_or in I as [I|I].
    { apply attempts_not_reclaim in I. discriminate. }
    destruct C as [(-> & _)|[(n & x & -> & _)
                            |(newest & n & fb & s' & -> & _ & N & _)]].
    + destruct I.
    + destruct I as [I|[]]. discriminate.
    + destruct I as [I|[I|[]]]; [discriminate|]. injection I as _ <-.
      split; [reflexivity|]. split; [|split].
      * intros k Hk. simpl in Hk. simpl.
        repeat (destruct Hk as [<-|Hk]; [tauto|]). destruct Hk.
      * intros k Hk. simpl in Hk. simpl.
        repeat (destruct Hk as [<-|Hk]; [tauto|]). destruct Hk.
      * split; [reflexivity|]. split; [reflexivity|].
        exists newest. split; [exact N|reflexivity].
Qed.

Lemma published_fields_witness :
  let evs := new_events scenario_A6
               (snd (tick plain_json_len alive_env start_locals scenario_A6)) in
  let st := written (event_at 4 evs) in
  keys st = tick_keys
  /\ incl spec_status_fields (keys st)
  /\ (forall k, In k (keys st) ->
                In k spec_status_fields \/ In k config_keys)
  /\ get "ffmpeg_cpu_percent" st
     = Some (option_json JFloat (fst (resource_usage (e_metrics alive_env))))
  /\ get "ffmpeg_mem_mb" st
     = Some (option_json JFloat (snd (resource_usage (e_metrics alive_env))))
  /\ (exists newest,
        newest_recording_mtime OUTPUT_DIR (woken alive_env scenario_A6)
        = (Ok newest, woken alive_env scenario_A6)
        /\ get "newest_segment_mtime" st = Some (option_json JFloat newest)).
Proof.
  intros evs st.
  apply (published_fields plain_json_len alive_env start_locals scenario_A6
           (fst (event_at 4 evs)) st).
  vm_compute. do 4 right. left. reflexivity.
Defined.

(* ------------------------------------------------------------------ *)
(** ** Health *)

Lemma filter_write_attempts t atts :
  filter is_write (map (attempt_event t) atts) = [].
Proof. induction atts as [|a atts IH]; simpl; auto. Qed.

(** What an iteration with a live subprocess writes, if it writes. *)
Lemma alive_publication json_len e s w t st :
  e_poll e = None ->
  In (t, EvWriteStatus st) (new_events w (snd (tick json_len e s w))) ->
  exists newest n fb s',
    t = w_clock (woken e w)
    /\ st = evaluated_status e s newest t n fb
    /\ fst (tick json_len e s w) = Ok s'
    /\ evaluated e s (woken e w) newest n fb s'
    /\ records (new_events w (snd (tick json_len e s w))) = [st].
Proof.
  intros P I.
  destruct (tick json_len e s w) as [r w'] eqn:H. simpl in *.
  destruct (tick_events _ _ _ _ _ _ H) as (evs & T & C).
  rewrite (new_events_app _ _ _ T) in *. rewrite P in C.
  destruct C as (atts & tail & -> & C).
  destruct I as [I|[I|I]]; try discriminate.
  apply in_app_or in I as [I|I].
  { apply attempts_not_reclaim in I. discriminate. }
  destruct C as [(-> & _)|[(n & x & -> & _)
                          |(newest & n & fb & s' & -> & -> & Ev)]].
  - destruct I.
  - destruct I as [I|[]]. discriminate.
  - destruct I as [I|[I|[]]]; [discriminate|]. injection I as <- <-.
    exists newest, n, fb, s'. repeat split; auto; try apply Ev.
    unfold records. cbn [filter is_write snd].
    rewrite filter_app.
    rewrite filter_write_attempts. reflexivity.
Qed.

Lemma ascending_last l d :
  ascending l -> forall f, In f l -> (f_mtime f <= f_mtime (last l d))%Q.
Proof.
  induction 1 as [|x l Hx Hl IH]; intros f I; [destruct I|].
  destruct l as [|y l].
  - destruct I as [<-|[]]. apply Qle_refl.
  - change (last (x :: y :: l) d) with (last (y :: l) d).
    destruct I as [<-|I]; [|now apply IH].
    eapply Qle_trans; [|apply IH; now left].
    now inversion Hx.
Qed.

Lemma last_In {A} (l : list A) (d : A) : l <> [] -> In (last l d) l.
Proof.
  induction l as [|x l IH]; intros N; [congruence|].
  destruct l as [|y l]; [now left|].
  right. apply IH. discriminate.
Qed.

Lemma list_recording_files_ascending output_dir w fs w' :
  list_recording_files output_dir w = (Ok fs, w') -> ascending fs.
Proof.
  intros H.
  unfold list_recording_files, try_except, bind, ret, raise in H.
  destruct (os_listdir output_dir w) as [[names|e] w1].
  - destruct (scan output_dir names [] w1) as [[fs0|e] w2].
    + injection H as <- _. apply sort_by_mtime_ascending.
    + destruct (is_FileNotFoundError e); [|discriminate].
      injection H as <- _. constructor.
  - destruct (is_FileNotFoundError e); [|discriminate].
    injection H as <- _. constructor.
Qed.

(** The segments of a directory and the files of its sorted inventory
    are the same, as far as modification times go. *)
Lemma sorted_segment root es f :
  In f (sort_by_mtime (inventory root es)) ->
  exists d, is_segment es d (f_mtime f).
Proof.
  intros I. apply (Permutation_in _ (sort_by_mtime_perm _)) in I.
  apply inventory_paths in I as (d & Id & _ & Hn & Hs).
  exists d. repeat split; eauto.
Qed.

Lemma segment_sorted root es d m :
  is_segment es d m ->
  exists f, In f (sort_by_mtime (inventory root es)) /\ f_mtime f = m.
Proof.
  intros (Id & Hn & sz & Hs).
  exists (d_path root d, m, sz). split; [|reflexivity].
  apply (Permutation_in _ (Permutation_sym (sort_by_mtime_perm _))).
  unfold inventory. apply in_flat_map. exists d. split; [exact Id|].
  unfold segment_of. rewrite Hn, Hs. now left.
Qed.

(** The judgement in the record of an iteration, from the inventory that
    [newest_recording_mtime] takes. *)
Lemma judged_on_inventory e s w newest n fb files :
  newest_recording_mtime OUTPUT_DIR w = (Ok newest, w) ->
  list_recording_files OUTPUT_DIR w = (Ok files, w) ->
  let st := evaluated_status e s newest (w_clock w) n fb in
  (get "recording" st = Some (JBool true)
   <-> exists f, newest_in files f /\ fresh_at (w_clock w) (f_mtime f))
  /\ (get "recording" st = Some (JBool true) ->
      get "reason" st = Some (JStr "ok"))
  /\ (get "recording" st <> Some (JBool true) ->
      get "recording" st = Some (JBool false)
      /\ get "reason" st = Some (JStr "no_new_segments")).
Proof.
  intros N L st.
  change (get "recording" st)
    with (Some (JBool (fst (fst (health_check newest (w_clock w)
                                              (last_ok_time s)))))).
  change (get "reason" st)
    with (Some (JStr (snd (fst (health_check newest (w_clock w)
                                             (last_ok_time s)))))).
  clearbody st. clear st.
  pose proof (list_recording_files_ascending _ _ _ _ L) as A.
  unfold newest_recording_mtime, bind, ret in N. rewrite L in N.
  destruct files as [|f0 fs0].
  - injection N as <-. simpl. split; [|split].
    + split; [discriminate|]. intros (f & ([] & _) & _).
    + discriminate.
    + auto.
  - assert (N' : newest = Some (f_mtime (last (f0 :: fs0)
                                              (EmptyString, 0%Q, 0))))
      by (injection N; auto).
    clear N. subst newest.
    set (newest := last (f0 :: fs0) (EmptyString, 0%Q, 0)) in *.
    assert (In newest (f0 :: fs0)) as IN
        by (apply (last_In (f0 :: fs0)); discriminate).
    assert (forall g, In g (f0 :: fs0) -> (f_mtime g <= f_mtime newest)%Q)
      as MAX by (intros g Ig; now apply (ascending_last (f0 :: fs0))).
    unfold health_check.
    destruct (Qle_bool (w_clock w - f_mtime newest)
                       NO_PROGRESS_TIMEOUT_SECONDS) eqn:E; simpl.
    + split; [|split].
      * split; [|reflexivity]. intros _. exists newest.
        split; [now split|]. now apply Qle_bool_iff.
      * reflexivity.
      * congruence.
    + split; [|split].
      * split; [discriminate|]. intros (f & (If & Mf) & Af).
        exfalso. unfold fresh_at in Af.
        assert (w_clock w - f_mtime newest <= NO_PROGRESS_TIMEOUT_SECONDS)%Q
          as C.
        { specialize (MAX f If).
          apply Qle_trans with (w_clock w - f_mtime f)%Q; [|exact Af].
          clear - MAX. lra. }
        apply Qle_bool_iff in C. congruence.
      * discriminate.
      * auto.
Qed.

(** C5. The health check answers healthy exactly when there is a newest
    segment and [now] minus its modification time is at most
    [NO_PROGRESS_TIMEOUT_SECONDS]: at exactly the timeout it answers
    [(True, ok)], beyond it [(False, no_new_segments)].  The record that an
    iteration with a live subprocess writes carries this answer, taken on
    the newest modification time of the directory at the time of the
    iteration: it says [recording] exactly when the inventory of the
    directory, as it is when the iteration wakes up, has a file that no
    other file is newer than and that is at most
    [NO_PROGRESS_TIMEOUT_SECONDS] old, with the reason [ok]; otherwise it
    says not recording, with the reason [no_new_segments].  In terms of
    the entries of the directory: exactly when some entry named [*.mp4]
    that [os.stat] can read is the newest such entry and no older than
    the timeout. *)
Theorem freshness_boundary :
  (forall newest now last_ok,
     (fst (fst (health_check newest now last_ok)) = true
      <-> exists m, newest = Some m
                    /\ (now - m <= NO_PROGRESS_TIMEOUT_SECONDS)%Q)
     /\ (forall m, newest = Some m ->
                   (now - m == NO_PROGRESS_TIMEOUT_SECONDS)%Q ->
                   health_check newest now last_ok = (true, "ok"%string, now))
     /\ (forall m, newest = Some m ->
                   (NO_PROGRESS_TIMEOUT_SECONDS < now - m)%Q ->
                   health_check newest now last_ok
                   = (false, "no_new_segments"%string, last_ok)))
  /\ (forall json_len e s w t st,
        e_poll e = None ->
        In (t, EvWriteStatus st) (new_events w (snd (tick json_len e s w))) ->
        exists newest,
          newest_recording_mtime OUTPUT_DIR (woken e w)
          = (Ok newest, woken e w)
          /\ t = w_clock (woken e w)
          /\ get "recording" st
             = Some (JBool (fst (fst (health_check newest t (last_ok_time s)))))
          /\ get "reason" st
             = Some (JStr (snd (fst (health_check newest t (last_ok_time s))))))
  /\ (forall json_len e s w t st files,
        e_poll e = None ->
        In (t, EvWriteStatus st) (new_events w (snd (tick json_len e s w))) ->
        list_recording_files OUTPUT_DIR (woken e w) = (Ok files, woken e w) ->
        t = w_clock (woken e w)
        /\ (get "recording" st = Some (JBool true)
            <-> exists f, newest_in files f /\ fresh_at t (f_mtime f))
        /\ (get "recording" st = Some (JBool true) ->
            get "reason" st = Some (JStr "ok"))
        /\ (get "recording" st <> Some (JBool true) ->
            get "recording" st = Some (JBool false)
            /\ get "reason" st = Some (JStr "no_new_segments")))
  /\ (forall json_len e s w t st es,
        e_poll e = None ->
        In (t, EvWriteStatus st) (new_events w (snd (tick json_len e s w))) ->
        w_root w = OUTPUT_DIR ->
        e_capture e (w_dir w) = Ok es ->
        wf_dir OUTPUT_DIR es ->
        (get "recording" st = Some (JBool true)
         <-> exists d m,
               is_segment es d m
               /\ (forall d' m', is_segment es d' m' -> (m' <= m)%Q)
               /\ fresh_at t m)).
Proof.
  split; [|split; [|split]].
  - intros newest now last_ok. unfold health_check. split; [|split].
    + destruct newest as [m|]; simpl.
      * destruct (Qle_bool (now - m) NO_PROGRESS_TIMEOUT_SECONDS) eqn:E; simpl.
        -- split; [|reflexivity]. intros _. exists m.
           split; [reflexivity|]. now apply Qle_bool_iff.
        -- split; [discriminate|]. intros (m' & [= <-] & L).
           apply Qle_bool_iff in L. congruence.
      * split; [discriminate|]. intros (m & D & _). discriminate.
    + intros m -> A.
      assert (Qle_bool (now - m) NO_PROGRESS_TIMEOUT_SECONDS = true) as ->.
      { apply Qle_bool_iff. rewrite A. apply Qle_refl. }
      reflexivity.
    + intros m -> A.
      destruct (Qle_bool (now - m) NO_PROGRESS_TIMEOUT_SECONDS) eqn:E;
        [|reflexivity].
      apply Qle_bool_iff in E. exfalso. eapply Qlt_not_le; eauto.
  - intros json_len e s w t st P I.
    destruct (alive_publication _ _ _ _ _ _ P I)
      as (newest & n & fb & s' & -> & -> & _ & (N & _) & _).
    exists newest. repeat split. exact N.
  - intros json_len e s w t st files P I L.
    destruct (alive_publication _ _ _ _ _ _ P I)
      as (newest & n & fb & s' & -> & -> & _ & (N & _) & _).
    split; [reflexivity|].
    now apply judged_on_inventory.
  - intros json_len e s w t st es P I R D W.
    destruct (alive_publication _ _ _ _ _ _ P I)
      as (newest & n & fb & s' & -> & -> & _ & (N & _) & _).
    destruct (list_recording_files OUTPUT_DIR (woken e w))
      as [[files|x] w1] eqn:L.
    2:{ unfold newest_recording_mtime, bind in N. rewrite L in N.
        discriminate. }
    pose proof (list_recording_files_world _ _ _ _ L) as ->.
    destruct (judged_on_inventory e s (woken e w) newest n fb files N L)
      as (J & _).
    rewrite J. clear J N I.
    assert (F : files = sort_by_mtime (inventory OUTPUT_DIR es)).
    { rewrite <- R in L, W |- *.
      exact (list_recording_files_inventory (woken e w) es files _ D W L). }
    subst files. split.
    + intros (f & (If & Mf) & Af).
      destruct (sorted_segment _ _ _ If) as (d & Sd).
      exists d, (f_mtime f). split; [exact Sd|]. split; [|exact Af].
      intros d' m' Sd'.
      destruct (segment_sorted OUTPUT_DIR _ _ _ Sd') as (g & Ig & <-). auto.
    + intros (d & m & Sd & Md & Am).
      destruct (segment_sorted OUTPUT_DIR _ _ _ Sd) as (f & If & <-).
      exists f. split; [split; [exact If|]|exact Am].
      intros g Ig. destruct (sorted_segment _ _ _ Ig) as (d' & Sd'). eauto.
Qed.

Lemma freshness_boundary_witness :
  health_check (Some 965%Q) 1010 0 = (true, "ok"%string, 1010%Q)
  /\ health_check (Some 964%Q) 1010 0 = (false, "no_new_segments"%string, 0%Q)
  /\ (exists newest,
       newest_recording_mtime OUTPUT_DIR (woken punctual_env at_the_limit)
       = (Ok newest, woken punctual_env at_the_limit)
       /\ fst (event_at 3 (new_events at_the_limit
                 (snd (tick plain_json_len punctual_env start_locals
                            at_the_limit))))
          = w_clock (woken punctual_env at_the_limit)
       /\ get "recording"
              (written (event_at 3 (new_events at_the_limit
                 (snd (tick plain_json_len punctual_env start_locals
                            at_the_limit)))))
          = Some (JBool (fst (fst (health_check newest
                 (fst (event_at 3 (new_events at_the_limit
                    (snd (tick plain_json_len punctual_env start_locals
                               at_the_limit)))))
                 (last_ok_time start_locals)))))
       /\ get "reason"
              (written (event_at 3 (new_events at_the_limit
                 (snd (tick plain_json_len punctual_env start_locals
                            at_the_limit)))))
          = Some (JStr (snd (fst (health_check newest
                 (fst (event_at 3 (new_events at_the_limit
                    (snd (tick plain_json_len punctual_env start_locals
                               at_the_limit)))))
                 (last_ok_time start_locals))))))
  (* a segment that is exactly 45 seconds old: the record says recording *)
  /\ get "recording" fresh_record = Some (JBool true)
  /\ get "reason" fresh_record = Some (JStr "ok")
  (* the same, from the entries of the directory *)
  /\ (get "recording" fresh_record = Some (JBool true)
      <-> exists d m,
            is_segment limit_entries d m
            /\ (forall d' m', is_segment limit_entries d' m' -> (m' <= m)%Q)
            /\ fresh_at 1010 m)
  (* a segment that is 46 seconds old: the record says not recording *)
  /\ get "recording" stale_record = Some (JBool false)
  /\ get "reason" stale_record = Some (JStr "no_new_segments").
Proof.
  assert (I : In (1010%Q, EvWriteStatus fresh_record)
                 (new_events at_the_limit
                    (snd (tick plain_json_len punctual_env start_locals
                               at_the_limit)))).
  { vm_compute. do 3 right. left. reflexivity. }
  assert (J : In (1011%Q, EvWriteStatus stale_record)
                 (new_events at_the_limit
                    (snd (tick plain_json_len late_env start_locals
                               at_the_limit)))).
  { vm_compute. do 3 right. left. reflexivity. }
  pose proof (proj1 (proj2 (proj2 freshness_boundary))
                plain_json_len punctual_env start_locals at_the_limit
                1010%Q fresh_record limit_files eq_refl I eq_refl)
    as (_ & F & G & _).
  pose proof (proj1 (proj2 (proj2 freshness_boundary))
                plain_json_len late_env start_locals at_the_limit
                1011%Q stale_record limit_files eq_refl J eq_refl)
    as (_ & F' & _ & G').
  assert (T : get "recording" fresh_record = Some (JBool true)).
  { apply F. exists ("./recordings/2024-01-01_00-00-00.mp4"%string, 965%Q, 5).
    split; [split|].
    - now left.
    - intros g [<-|[]]. apply Qle_refl.
    - apply Qle_bool_iff. reflexivity. }
  assert (U : get "recording" stale_record <> Some (JBool true)).
  { intros H. apply F' in H as (f & ([<-|[]] & _) & A).
    apply Qle_bool_iff in A. discriminate. }
  split; [|split; [|split; [|split; [|split; [|split; [|split]]]]]].
  - apply (proj1 (proj2 (proj1 freshness_boundary (Some 965%Q) 1010%Q 0%Q))
             965%Q eq_refl).
    reflexivity.
  - apply (proj2 (proj2 (proj1 freshness_boundary (Some 964%Q) 1010%Q 0%Q))
             964%Q eq_refl).
    reflexivity.
  - apply (proj1 (proj2 freshness_boundary) plain_json_len punctual_env
             start_locals at_the_limit).
    + reflexivity.
    + vm_compute. do 3 right. left. reflexivity.
  - exact T.
  - exact (G T).
  - apply (proj2 (proj2 (proj2 freshness_boundary))
             plain_json_len punctual_env start_locals at_the_limit
             1010%Q fresh_record limit_entries eq_refl I eq_refl eq_refl).
    unfold wf_dir. vm_compute.
    repeat (constructor; [simpl; intuition discriminate|]). constructor.
  - exact (proj1 (G' U)).
  - exact (proj2 (G' U)).
Defined.

(** An iteration with a live subprocess, from the results of its steps. *)
Lemma evaluate_intro json_len e s w newest deleted w2 fb es :
  newest_recording_mtime OUTPUT_DIR w = (Ok newest, w) ->
  enforce_storage_cap OUTPUT_DIR default_cap w = (Ok deleted, w2) ->
  folder_size_bytes OUTPUT_DIR (reclaimed deleted w2)
  = (Ok fb, reclaimed deleted w2) ->
  w_root w2 = OUTPUT_DIR -> w_dir w2 = Ok es -> w_clock w2 = w_clock w ->
  let st := evaluated_status e s newest (w_clock w) deleted fb in
  evaluate json_len e s w
  = (Ok (mkLocals (proc_pid s)
                  (snd (health_check newest (w_clock w) (last_ok_time s)))),
     mkWorld (w_root w2)
             (Ok (published_dir json_len (w_root w2) (w_clock w) st es))
             (w_clock w)
             (w_trace w2 ++ [(w_clock w, EvReclaim deleted);
                             (w_clock w, EvWriteStatus st)])).
Proof.
  intros N E F R D C st. subst st. unfold evaluated_status.
  unfold evaluate, bind at 1. rewrite N.
  unfold bind at 1, time_time at 1.
  destruct (health_check newest (w_clock w) (last_ok_time s))
    as [[healthy reason] last_ok].
  unfold bind at 1. fold default_cap. rewrite E.
  unfold bind at 1, log at 1. fold (reclaimed deleted w2).
  unfold bind at 1. rewrite F.
  destruct (resource_usage (e_metrics e)) as [cpu mem_mb].
  unfold bind at 1, time_time at 1. unfold bind, ret.
  rewrite (write_status_ok json_len _ (reclaimed deleted w2) es R D).
  cbn [reclaimed w_root w_dir w_clock w_trace fst snd]. rewrite C.
  now rewrite <- app_assoc.
Qed.

(* ------------------------------------------------------------------ *)
(** ** The empty directory *)

Lemma list_recording_files_nothing output_dir w :
  w_dir w = Ok [] \/ w_dir w = Raise FileNotFoundError
  \/ String.eqb output_dir (w_root w) = false ->
  list_recording_files output_dir w = (Ok [], w).
Proof.
  unfold list_recording_files, try_except, bind, os_listdir, ret, raise.
  intros [D|[D|D]].
  - rewrite D. now destruct (String.eqb output_dir (w_root w)).
  - rewrite D. now destruct (String.eqb output_dir (w_root w)).
  - now rewrite D.
Qed.

(** C8. Where the directory is empty, or absent, [list_recording_files]
    returns the empty list, [folder_size_bytes] returns 0 and
    [newest_recording_mtime] returns [None], none of them raising; on
    [None] the health check answers [(False, no_new_segments)] and keeps
    the time of the last healthy check.  An iteration with a live
    subprocess over an empty directory runs to its end: it deletes
    nothing and writes a record with [recording = false],
    [reason = no_new_segments], a folder size of 0 and a [null] newest
    modification time. *)
Theorem empty_directory_unhealthy :
  (forall output_dir w,
     w_dir w = Ok [] \/ w_dir w = Raise FileNotFoundError
     \/ String.eqb output_dir (w_root w) = false ->
     list_recording_files output_dir w = (Ok [], w)
     /\ folder_size_bytes output_dir w = (Ok 0, w)
     /\ newest_recording_mtime output_dir w = (Ok None, w)
     /\ (forall now last_ok,
           health_check None now last_ok
           = (false, "no_new_segments"%string, last_ok)))
  /\ (forall json_len e s w,
        e_poll e = None -> w_root w = OUTPUT_DIR ->
        e_capture e (w_dir w) = Ok [] ->
        let t0 := (w_clock w + CHECK_EVERY_SECONDS + e_overrun e)%Q in
        exists w' st,
          tick json_len e s w = (Ok s, w')
          /\ new_events w w'
             = [(t0, EvSleep CHECK_EVERY_SECONDS); (t0, EvPoll None);
                (t0, EvReclaim 0); (t0, EvWriteStatus st)]
          /\ get "recording" st = Some (JBool false)
          /\ get "reason" st = Some (JStr "no_new_segments")
          /\ get "folder_size_bytes" st = Some (JInt 0)
          /\ get "newest_segment_mtime" st = Some JNull
          /\ get "deleted_files_this_check" st = Some (JInt 0)).
Proof.
  split.
  - intros output_dir w H.
    pose proof (list_recording_files_nothing output_dir w H) as L.
    repeat split; auto.
    + unfold folder_size_bytes, bind. now rewrite L.
    + unfold newest_recording_mtime, bind. now rewrite L.
  - intros json_len e s w P R D t0.
    set (w1 := woken e w).
    assert (D1 : w_dir w1 = Ok []) by exact D.
    assert (L : forall w0, w_dir w0 = Ok [] ->
                           list_recording_files OUTPUT_DIR w0 = (Ok [], w0)).
    { intros w0 D0. apply list_recording_files_nothing. now left. }
    assert (N : newest_recording_mtime OUTPUT_DIR w1 = (Ok None, w1)).
    { unfold newest_recording_mtime, bind. now rewrite (L w1 D1). }
    assert (F : forall w0, w_dir w0 = Ok [] ->
                           folder_size_bytes OUTPUT_DIR w0 = (Ok 0, w0)).
    { intros w0 D0. unfold folder_size_bytes, bind. now rewrite (L w0 D0). }
    assert (E : enforce_storage_cap OUTPUT_DIR default_cap w1 = (Ok 0, w1)).
    { apply (enforce_storage_cap_under _ _ _ 0 (F w1 D1)).
      vm_compute. discriminate. }
    pose proof (evaluate_intro json_len e s w1 None 0 w1 0 [] N E
                  (F (reclaimed 0 w1) D1) R D1 eq_refl) as Ev.
    cbv zeta in Ev.
    rewrite tick_eq, P. fold w1. rewrite Ev.
    destruct s as [pid last_ok].
    eexists. eexists. split; [reflexivity|]. split.
    + apply new_events_app. cbn [w_trace w1 woken]. rewrite P.
      rewrite <- !app_assoc. reflexivity.
    + repeat split.
Qed.

Lemma empty_directory_unhealthy_witness :
  let t0 := (w_clock empty_directory + CHECK_EVERY_SECONDS
             + e_overrun punctual_env)%Q in
  (list_recording_files OUTPUT_DIR empty_directory = (Ok [], empty_directory)
   /\ folder_size_bytes OUTPUT_DIR empty_directory = (Ok 0, empty_directory)
   /\ newest_recording_mtime OUTPUT_DIR empty_directory
      = (Ok None, empty_directory)
   /\ (forall now last_ok,
         health_check None now last_ok
         = (false, "no_new_segments"%string, last_ok)))
  /\ exists w' st,
       tick plain_json_len punctual_env start_locals empty_directory
       = (Ok start_locals, w')
       /\ new_events empty_directory w'
          = [(t0, EvSleep CHECK_EVERY_SECONDS); (t0, EvPoll None);
             (t0, EvReclaim 0); (t0, EvWriteStatus st)]
       /\ get "recording" st = Some (JBool false)
       /\ get "reason" st = Some (JStr "no_new_segments")
       /\ get "folder_size_bytes" st = Some (JInt 0)
       /\ get "newest_segment_mtime" st = Some JNull
       /\ get "deleted_files_this_check" st = Some (JInt 0).
Proof.
  split.
  - apply (proj1 empty_directory_unhealthy OUTPUT_DIR empty_directory).
    left. reflexivity.
  - apply (proj2 empty_directory_unhealthy plain_json_len punctual_env
             start_locals empty_directory); reflexivity.
Defined.

(** With the directory absent the same iteration gets as far: the health
    check and the pass go through, and it is [write_status], opening its
    temporary file, that raises. *)
Lemma absent_directory_tick json_len e s w :
  e_poll e = None -> w_root w = OUTPUT_DIR ->
  e_capture e (w_dir w) = Raise FileNotFoundError ->
  let t0 := (w_clock w + CHECK_EVERY_SECONDS + e_overrun e)%Q in
  exists w',
    tick json_len e s w = (Raise FileNotFoundError, w')
    /\ new_events w w'
       = [(t0, EvSleep CHECK_EVERY_SECONDS); (t0, EvPoll None);
          (t0, EvReclaim 0)].
Proof.
  intros P R D t0.
  set (w1 := woken e w).
  assert (D1 : w_dir w1 = Raise FileNotFoundError) by exact D.
  assert (L : forall w0, w_dir w0 = Raise FileNotFoundError ->
                         list_recording_files OUTPUT_DIR w0 = (Ok [], w0)).
  { intros w0 D0. apply list_recording_files_nothing. right. now left. }
  assert (N : newest_recording_mtime OUTPUT_DIR w1 = (Ok None, w1)).
  { unfold newest_recording_mtime, bind. now rewrite (L w1 D1). }
  assert (F : forall w0, w_dir w0 = Raise FileNotFoundError ->
                         folder_size_bytes OUTPUT_DIR w0 = (Ok 0, w0)).
  { intros w0 D0. unfold folder_size_bytes, bind. now rewrite (L w0 D0). }
  assert (E : enforce_storage_cap OUTPUT_DIR default_cap w1 = (Ok 0, w1)).
  { apply (enforce_storage_cap_under _ _ _ 0 (F w1 D1)).
    vm_compute. discriminate. }
  rewrite tick_eq, P. fold w1.
  unfold evaluate, bind at 1. rewrite N.
  unfold bind at 1, time_time at 1.
  destruct (health_check None (w_clock w1) (last_ok_time s))
    as [[healthy reason] last_ok].
  unfold bind at 1. fold default_cap. rewrite E.
  unfold bind at 1, log at 1. fold (reclaimed 0 w1).
  unfold bind at 1. rewrite (F (reclaimed 0 w1) D1).
  destruct (resource_usage (e_metrics e)) as [cpu mem_mb].
  unfold bind at 1, time_time at 1. unfold bind, ret, write_status.
  cbn [reclaimed w_root w_dir w1 woken]. rewrite R, String.eqb_refl, D.
  eexists. split; [reflexivity|].
  apply new_events_app. subst w1. cbn [w_trace w_clock woken reclaimed].
  rewrite P, <- !app_assoc. reflexivity.
Qed.

(* ------------------------------------------------------------------ *)
(** ** Time since the last healthy check *)

Lemma round_half_even_bounds x :
  (x - (1 # 2) <= inject_Z (round_half_even x) <= x + (1 # 2))%Q.
Proof.
  unfold round_half_even.
  pose proof (Qfloor_le x) as L. pose proof (Qlt_floor x) as U.
  rewrite inject_Z_plus in U. change (inject_Z 1) with 1%Q in U.
  destruct (Qcompare_spec (x - inject_Z (Qfloor x)) (1 # 2)) as [E|E|E].
  - destruct (Z.even (Qfloor x)); rewrite ?inject_Z_plus;
      change (inject_Z 1) with 1%Q; lra.
  - lra.
  - rewrite inject_Z_plus. change (inject_Z 1) with 1%Q. lra.
Qed.

(** Ten seconds more show in the first decimal. *)
Lemma py_round1_grows x y :
  (x + CHECK_EVERY_SECONDS <= y)%Q -> (py_round1 x < py_round1 y)%Q.
Proof.
  unfold CHECK_EVERY_SECONDS, py_round1. intros H.
  pose proof (round_half_even_bounds (x * 10)) as Bx.
  pose proof (round_half_even_bounds (y * 10)) as By.
  unfold Qdiv. apply Qmult_lt_r; [reflexivity|]. lra.
Qed.

Lemma records_app a b : records (a ++ b) = records a ++ records b.
Proof. unfold records. now rewrite filter_app, map_app. Qed.

Lemma health_check_unhealthy newest now last_ok :
  fst (fst (health_check newest now last_ok)) = false ->
  health_check newest now last_ok
  = (false, "no_new_segments"%string, last_ok).
Proof.
  unfold health_check. destruct newest as [m|]; [|reflexivity].
  destruct (Qle_bool (now - m) NO_PROGRESS_TIMEOUT_SECONDS);
    [discriminate|reflexivity].
Qed.

(** One iteration with a live subprocess that runs to its end. *)
Lemma alive_tick json_len e s w s' w' :
  e_poll e = None ->
  tick json_len e s w = (Ok s', w') ->
  exists evs st,
    w_trace w' = w_trace w ++ evs
    /\ records evs = [st]
    /\ w_clock w' = (w_clock w + CHECK_EVERY_SECONDS + e_overrun e)%Q
    /\ (get "recording" st = Some (JBool false) ->
        last_ok_time s' = last_ok_time s
        /\ get "reason" st = Some (JStr "no_new_segments")
        /\ seconds_since st = py_round1 (w_clock w' - last_ok_time s)).
Proof.
  intros P H. rewrite tick_eq, P in H.
  destruct (evaluate_ok _ _ _ _ _ _ H)
    as (newest & deleted & w2 & fb & _ & E & _ & Wr & C2 & ->).
  destruct (enforce_storage_cap_general _ _ _ _ _ E) as (atts & ps & W2 & _).
  apply write_status_cases in Wr as [(x & Hx & _)|(_ & _ & C & T)];
    [discriminate|].
  set (t0 := (w_clock w + CHECK_EVERY_SECONDS + e_overrun e)%Q).
  set (st := evaluated_status e s newest (w_clock (woken e w)) deleted fb)
    in *.
  assert (Cw : w_clock w' = t0).
  { rewrite C. cbn [reclaimed w_clock]. rewrite C2. reflexivity. }
  exists ((t0, EvSleep CHECK_EVERY_SECONDS) :: (t0, EvPoll None)
          :: map (attempt_event t0) atts
          ++ [(t0, EvReclaim deleted); (t0, EvWriteStatus st)]), st.
  split; [|split; [|split]].
  - rewrite T. unfold reclaimed at 1. cbn [w_trace w_clock reclaimed].
    rewrite C2, W2. cbn [w_trace w_clock woken]. rewrite P. fold t0.
    rewrite <- !app_assoc. reflexivity.
  - unfold records. cbn [filter is_write snd].
    rewrite filter_app, filter_write_attempts. reflexivity.
  - exact Cw.
  - rewrite Cw. subst st. unfold evaluated_status.
    cbn [woken w_clock]. fold t0.
    set (hc := health_check newest t0 (last_ok_time s)).
    intros R. assert (Hf : fst (fst hc) = false).
    { simpl in R. now injection R. }
    apply health_check_unhealthy in Hf. fold hc in Hf. rewrite Hf.
    repeat split.
Qed.

Lemma rising_under x l :
  rising l -> (forall y l', l = y :: l' -> (x < y)%Q) -> rising (x :: l).
Proof.
  intros R H. destruct l as [|y l]; [constructor|].
  constructor; [now apply (H y l)|exact R].
Qed.

(** A run of iterations with a live subprocess, all of them unhealthy. *)
Lemma unhealthy_run json_len : forall es s w s' w',
  Forall (fun e => e_poll e = None /\ (0 <= e_overrun e)%Q) es ->
  run json_len es s w = (Ok s', w') ->
  exists evs,
    w_trace w' = w_trace w ++ evs
    /\ List.length (records evs) = List.length es
    /\ (Forall (fun st => get "recording" st = Some (JBool false))
               (records evs) ->
        last_ok_time s' = last_ok_time s
        /\ Forall (fun st => get "reason" st = Some (JStr "no_new_segments"))
                  (records evs)
        /\ Forall (fun st => exists c,
                       (w_clock w + CHECK_EVERY_SECONDS <= c)%Q
                       /\ seconds_since st = py_round1 (c - last_ok_time s))
                  (records evs)
        /\ rising (map seconds_since (records evs))).
Proof.
  induction es as [|e es IH]; intros s w s' w' A H.
  - injection H as <- <-. exists []. rewrite app_nil_r.
    repeat split; constructor.
  - inversion A as [|? ? PO A']; subst. destruct PO as [P O].
    cbn [run] in H. unfold bind in H.
    destruct (tick json_len e s w) as [[s1|x] w1] eqn:T; [|discriminate].
    destruct (alive_tick _ _ _ _ _ _ P T) as (evs1 & st1 & T1 & R1 & C1 & U1).
    destruct (IH _ _ _ _ A' H) as (evs2 & T2 & L2 & U2).
    exists (evs1 ++ evs2). split; [now rewrite T2, T1, app_assoc|].
    rewrite records_app, R1. split; [simpl; now rewrite L2|].
    intros F. inversion F as [|? ? F1 F2]; subst.
    destruct (U1 F1) as (K1 & N1 & S1).
    destruct (U2 F2) as (K2 & N2 & B2 & G2).
    split; [congruence|]. split; [now constructor|]. split.
    + constructor.
      * exists (w_clock w1). split; [|exact S1]. rewrite C1.
        clear - O. lra.
      * eapply Forall_impl; [|exact B2]. intros st (c & Hc & Hs).
        exists c. split; [|congruence].
        rewrite C1 in Hc. clear - O Hc. unfold CHECK_EVERY_SECONDS in *. lra.
    + cbn [map app]. apply rising_under; [exact G2|].
      intros y l' Hy.
      destruct (records evs2) as [|st2 recs2]; [discriminate|].
      injection Hy as <- _. inversion B2 as [|? ? (c & Hc & Hs) _]; subst.
      rewrite S1, Hs, K1. apply py_round1_grows. clear - Hc. lra.
Qed.

(** C6. Over any run of iterations in which the subprocess is alive and
    every record written says [recording = false], the time of the last
    healthy check at the end is the one at the start, every record gives
    the reason [no_new_segments], there is one record per iteration, and
    the values under [seconds_since_last_ok] grow strictly from each record
    to the next.  The sleep of an iteration lasts at least
    [CHECK_EVERY_SECONDS]. *)
Theorem unhealthy_seconds_grow :
  forall json_len es s w s' w',
    Forall (fun e => e_poll e = None /\ (0 <= e_overrun e)%Q) es ->
    run json_len es s w = (Ok s', w') ->
    Forall (fun st => get "recording" st = Some (JBool false))
           (records (new_events w w')) ->
    last_ok_time s' = last_ok_time s
    /\ List.length (records (new_events w w')) = List.length es
    /\ Forall (fun st => get "reason" st = Some (JStr "no_new_segments"))
              (records (new_events w w'))
    /\ rising (map seconds_since (records (new_events w w'))).
Proof.
  intros json_len es s w s' w' A H F.
  destruct (unhealthy_run json_len es s w s' w' A H) as (evs & T & L & U).
  rewrite (new_events_app _ _ _ T) in *.
  destruct (U F) as (K & N & _ & G). auto.
Qed.

Lemma unhealthy_seconds_grow_witness :
  let es := [alive_env; punctual_env; alive_env] in
  let w' := snd (run plain_json_len es start_locals scenario_A5) in
  last_ok_time start_locals = last_ok_time start_locals
  /\ List.length (records (new_events scenario_A5 w')) = List.length es
  /\ Forall (fun st => get "reason" st = Some (JStr "no_new_segments"))
            (records (new_events scenario_A5 w'))
  /\ rising (map seconds_since (records (new_events scenario_A5 w'))).
Proof.
  intros es w'.
  apply (unhealthy_seconds_grow plain_json_len es start_locals scenario_A5
           start_locals w').
  - repeat constructor; vm_compute; discriminate.
  - vm_compute. reflexivity.
  - vm_compute. repeat constructor.
Defined.

(* ================================================================== *)
(** * Further properties of the inventory *)

(** X1. Whatever the directory holds, a list that
    [list_recording_files] returns is in ascending order of modification
    time, and taking it leaves the world as it was. *)
Theorem inventory_ascending :
  forall output_dir w fs w',
    list_recording_files output_dir w = (Ok fs, w') ->
    ascending fs /\ w' = w.
Proof.
  intros output_dir w fs w' H. split.
  - eapply list_recording_files_ascending; eauto.
  - eapply list_recording_files_world; eauto.
Qed.

Lemma inventory_ascending_witness :
  ascending crowded_files
  /\ snd (list_recording_files "rec" crowded) = crowded.
Proof.
  apply (inventory_ascending "rec" crowded crowded_files
           (snd (list_recording_files "rec" crowded))).
  vm_compute. reflexivity.
Defined.

Lemma sort_by_mtime_same_key m l :
  Forall (fun f => (f_mtime f == m)%Q) l -> sort_by_mtime l = l.
Proof.
  induction 1 as [|x l Hx Hl IH]; simpl; [reflexivity|].
  rewrite IH. destruct Hl as [|y l Hy Hl]; simpl; [reflexivity|].
  assert (Qle_bool (f_mtime x) (f_mtime y) = true) as ->; [|reflexivity].
  apply Qle_bool_iff. rewrite Hx, Hy. apply Qle_refl.
Qed.

(** X2. The sort is stable: in the list that [list_recording_files]
    returns, the segments with one and the same modification time stand in
    the order in which [os.listdir] gave them. *)
Theorem inventory_stable :
  forall w es fs m,
    w_dir w = Ok es -> wf_dir (w_root w) es ->
    list_recording_files (w_root w) w = (Ok fs, w) ->
    at_mtime m fs = at_mtime m (inventory (w_root w) es).
Proof.
  intros w es fs m D N L.
  rewrite (list_recording_files_inventory _ _ _ _ D N L).
  unfold at_mtime. rewrite filter_sort_by_mtime.
  apply (sort_by_mtime_same_key m).
  apply Forall_forall. intros f I. apply filter_In in I as [_ I].
  now apply Qeq_bool_iff.
Qed.

Lemma inventory_stable_witness :
  at_mtime 2 crowded_files
  = at_mtime 2 (inventory "rec"
                  crowded_entries).
Proof.
  apply (inventory_stable crowded crowded_entries crowded_files 2%Q eq_refl).
  - unfold wf_dir. vm_compute.
    repeat (constructor; [simpl; intuition discriminate|]). constructor.
  - vm_compute. reflexivity.
Defined.

(** X3. Over a directory that can be read, the list holds exactly the
    entries whose name ends in [.mp4] and whose [os.stat] succeeds, each
    with its joined path, modification time and size, and no path twice:
    other names and entries that vanished before [os.stat] are left
    out. *)
Theorem inventory_membership :
  forall w es fs,
    w_dir w = Ok es -> wf_dir (w_root w) es ->
    list_recording_files (w_root w) w = (Ok fs, w) ->
    (forall p m sz,
       In (p, m, sz) fs
       <-> exists d, In d es
                     /\ endswith (d_name d) ".mp4" = true
                     /\ d_stat d = Ok (m, sz)
                     /\ p = os_path_join (w_root w) (d_name d))
    /\ NoDup (map f_path fs).
Proof.
  intros w es fs D N L.
  pose proof (list_recording_files_inventory _ _ _ _ D N L) as ->.
  split.
  - intros p m sz. split.
    + intros I.
      apply (Permutation_in _ (sort_by_mtime_perm _)) in I.
      apply inventory_paths in I as (d & Id & Hp & Hn & Hs).
      exists d. auto.
    + intros (d & Id & Hn & Hs & ->).
      apply (Permutation_in _ (Permutation_sym (sort_by_mtime_perm _))).
      unfold inventory. apply in_flat_map. exists d. split; [exact Id|].
      unfold segment_of. rewrite Hn, Hs. now left.
  - eapply Permutation_NoDup.
    + apply Permutation_map. symmetry. apply sort_by_mtime_perm.
    + now apply inventory_NoDup.
Qed.

Lemma inventory_membership_witness :
  (forall p m sz,
     In (p, m, sz) crowded_files
     <-> exists d, In d crowded_entries
                   /\ endswith (d_name d) ".mp4" = true
                   /\ d_stat d = Ok (m, sz)
                   /\ p = os_path_join (w_root crowded) (d_name d))
  /\ NoDup (map f_path crowded_files).
Proof.
  apply (inventory_membership crowded crowded_entries crowded_files eq_refl).
  - unfold wf_dir. vm_compute.
    repeat (constructor; [simpl; intuition discriminate|]). constructor.
  - vm_compute. reflexivity.
Defined.

(** X4. [list_recording_files] never raises [FileNotFoundError] and never
    changes the world when it raises; an error of [os.listdir] other than
    [FileNotFoundError] comes out of it as it is; and over a directory
    that is there it returns a list exactly when no [os.stat] of a segment
    raises anything but [FileNotFoundError]. *)
Theorem inventory_errors :
  forall w,
    (forall output_dir e w',
       list_recording_files output_dir w = (Raise e, w') ->
       is_FileNotFoundError e = false /\ w' = w)
    /\ (forall e,
          w_dir w = Raise e -> is_FileNotFoundError e = false ->
          list_recording_files (w_root w) w = (Raise e, w))
    /\ (forall es,
          w_dir w = Ok es -> wf_dir (w_root w) es ->
          ((exists fs, list_recording_files (w_root w) w = (Ok fs, w))
           <-> readable es)).
Proof.
  intros w. split; [|split].
  - intros output_dir e w' H.
    split; [|eapply list_recording_files_world; eauto].
    unfold list_recording_files, try_except, bind, ret, raise in H.
    destruct (os_listdir output_dir w) as [[names|x] w1].
    + destruct (scan output_dir names [] w1) as [[fs0|x] w2];
        [discriminate|].
      destruct (is_FileNotFoundError x) eqn:F; [discriminate|].
      now injection H as <- _.
    + destruct (is_FileNotFoundError x) eqn:F; [discriminate|].
      now injection H as <- _.
  - intros e D F.
    unfold list_recording_files, try_except, bind, os_listdir, ret, raise.
    now rewrite String.eqb_refl, D, F.
  - intros es D N. split.
    + intros (fs & L). eapply list_recording_files_readable; eauto.
    + intros R. eexists. apply (list_recording_files_ok w es D N R).
Qed.

Lemma inventory_errors_witness :
  list_recording_files "rec" (mkWorld "rec" (Raise NotADirectoryError) 0 [])
  = (Raise NotADirectoryError, mkWorld "rec" (Raise NotADirectoryError) 0 [])
  /\ is_FileNotFoundError PermissionError = false
  /\ ((exists fs, list_recording_files (w_root crowded) crowded
                  = (Ok fs, crowded))
      <-> readable crowded_entries).
Proof.
  split; [|split].
  - apply (proj1 (proj2 (inventory_errors
                           (mkWorld "rec" (Raise NotADirectoryError) 0 [])))
             NotADirectoryError); reflexivity.
  - apply (proj1 (inventory_errors unreadable) "rec"%string PermissionError
             (snd (list_recording_files "rec" unreadable))).
    vm_compute. reflexivity.
  - apply (proj2 (proj2 (inventory_errors crowded)) crowded_entries eq_refl).
    unfold wf_dir. vm_compute.
    repeat (constructor; [simpl; intuition discriminate|]). constructor.
Defined.

(** X5. [newest_recording_mtime] returns [None] exactly when the inventory
    is empty; otherwise it returns the modification time of one of the
    files, and no file of the inventory has a later one. *)
Theorem newest_is_latest :
  forall output_dir w fs r w',
    list_recording_files output_dir w = (Ok fs, w) ->
    newest_recording_mtime output_dir w = (r, w') ->
    w' = w
    /\ (r = Ok None <-> fs = [])
    /\ (forall m, r = Ok (Some m) ->
          (exists f, In f fs /\ f_mtime f = m)
          /\ (forall f, In f fs -> (f_mtime f <= m)%Q))
    /\ (exists o, r = Ok o).
Proof.
  intros output_dir w fs r w' L H.
  pose proof (list_recording_files_ascending _ _ _ _ L) as A.
  unfold newest_recording_mtime, bind, ret in H. rewrite L in H.
  destruct fs as [|f0 fs0].
  - injection H as <- <-. repeat split; auto; try discriminate. eauto.
  - assert (H' : r = Ok (Some (f_mtime (last (f0 :: fs0)
                                             (EmptyString, 0%Q, 0))))
                 /\ w' = w)
      by (injection H; auto).
    clear H. destruct H' as [-> ->].
    split; [reflexivity|]. split; [|split].
    + split; discriminate.
    + intros m [= <-]. split.
      * exists (last (f0 :: fs0) (EmptyString, 0%Q, 0)).
        split; [|reflexivity]. apply (last_In (f0 :: fs0)). discriminate.
      * intros f I. now apply (ascending_last (f0 :: fs0)).
    + eauto.
Qed.

Lemma newest_is_latest_witness :
  snd (newest_recording_mtime "rec" crowded) = crowded
  /\ (fst (newest_recording_mtime "rec" crowded) = Ok None
      <-> crowded_files = [])
  /\ (forall m, fst (newest_recording_mtime "rec" crowded) = Ok (Some m) ->
        (exists f, In f crowded_files /\ f_mtime f = m)
        /\ (forall f, In f crowded_files -> (f_mtime f <= m)%Q))
  /\ (exists o, fst (newest_recording_mtime "rec" crowded) = Ok o).
Proof.
  apply (newest_is_latest "rec" crowded crowded_files).
  - vm_compute. reflexivity.
  - vm_compute. reflexivity.
Defined.

Lemma sum_sizes_perm l1 l2 :
  Permutation l1 l2 -> sum_sizes l1 = sum_sizes l2.
Proof.
  induction 1; rewrite ?sum_sizes_cons; lia.
Qed.

Lemma sum_sizes_nonneg l :
  Forall (fun f => 0 <= f_size f) l -> 0 <= sum_sizes l.
Proof.
  induction 1; rewrite ?sum_sizes_cons; [rewrite sum_sizes_nil|]; lia.
Qed.

(** X6. The folder size does not depend on the order in which
    [os.listdir] gives the names, nor on the clock: two worlds whose
    directories hold the same entries have the same size.  And it is not
    negative when no [st_size] is. *)
Theorem folder_size_order_independent :
  forall w1 w2 es1 es2 s,
    w_root w1 = w_root w2 ->
    w_dir w1 = Ok es1 -> w_dir w2 = Ok es2 ->
    Permutation es1 es2 ->
    wf_dir (w_root w1) es1 ->
    folder_size_bytes (w_root w1) w1 = (Ok s, w1) ->
    folder_size_bytes (w_root w2) w2 = (Ok s, w2)
    /\ ((forall d m sz, In d es1 -> d_stat d = Ok (m, sz) -> 0 <= sz) ->
        0 <= s).
Proof.
  intros w1 w2 es1 es2 s R D1 D2 P N1 F.
  unfold folder_size_bytes, bind, ret in F.
  destruct (list_recording_files (w_root w1) w1) as [[fs1|x] w1'] eqn:L1;
    [|discriminate].
  injection F as <- ->.
  pose proof (list_recording_files_inventory _ _ _ _ D1 N1 L1) as E1.
  pose proof (list_recording_files_readable _ _ _ _ D1 N1 L1) as R1.
  assert (N2 : wf_dir (w_root w2) es2).
  { unfold wf_dir in *. rewrite <- R.
    eapply Permutation_NoDup; [|exact N1]. now apply Permutation_map. }
  assert (R2 : readable es2).
  { intros d e I. apply R1. eapply Permutation_in; [symmetry|]; eauto. }
  split.
  - unfold folder_size_bytes, bind, ret.
    rewrite (list_recording_files_ok w2 es2 D2 N2 R2). do 2 f_equal.
    rewrite E1, <- R.
    apply sum_sizes_perm.
    rewrite !sort_by_mtime_perm.
    unfold inventory. symmetry. now apply Permutation_flat_map.
  - intros Pos. apply sum_sizes_nonneg. apply Forall_forall.
    intros f I. rewrite E1 in I.
    apply (Permutation_in _ (sort_by_mtime_perm _)) in I.
    apply inventory_paths in I as (d & Id & _ & _ & Hs).
    eapply Pos; eauto.
Qed.

Lemma folder_size_order_independent_witness :
  folder_size_bytes (w_root crowded_shuffled) crowded_shuffled
  = (Ok 18, crowded_shuffled)
  /\ ((forall d m sz, In d crowded_entries -> d_stat d = Ok (m, sz) ->
                      0 <= sz) ->
      0 <= 18).
Proof.
  apply (folder_size_order_independent crowded crowded_shuffled
           crowded_entries (rev crowded_entries) 18 eq_refl eq_refl eq_refl).
  - apply Permutation_rev.
  - unfold wf_dir. vm_compute.
    repeat (constructor; [simpl; intuition discriminate|]). constructor.
  - vm_compute. reflexivity.
Defined.

(* ================================================================== *)
(** * Further properties of the reclaimer *)

Lemma without_all_incl root : forall ps es,
  incl (without_all root ps es) es
  /\ (List.length (without_all root ps es) <= List.length es)%nat.
Proof.
  unfold without_all. induction ps as [|p ps IH]; intros es; simpl.
  - split; [apply incl_refl|lia].
  - destruct (IH (without root p es)) as [I L]. split.
    + intros d Hd. apply I in Hd. unfold without in Hd.
      now apply filter_In in Hd.
    + eapply Nat.le_trans; [exact L|]. apply filter_length_le.
Qed.

(** X7. A pass over an inventory it could take returns a count that is
    neither negative nor larger than the number of files in the
    inventory; it leaves the clock alone, and every entry of the directory
    afterwards was an entry before: the directory only shrinks. *)
Theorem pass_bounds :
  forall output_dir max_bytes w files r w',
    list_recording_files output_dir w = (Ok files, w) ->
    enforce_storage_cap output_dir max_bytes w = (r, w') ->
    (exists n, r = Ok n /\ 0 <= n <= Z.of_nat (List.length files))
    /\ w_root w' = w_root w
    /\ w_clock w' = w_clock w
    /\ match w_dir w, w_dir w' with
       | Ok es, Ok es' =>
           incl es' es /\ (List.length es' <= List.length es)%nat
       | Raise e, Raise e' => e = e'
       | _, _ => False
       end.
Proof.
  intros output_dir max_bytes w files r w' L H.
  unfold enforce_storage_cap, bind in H. rewrite L in H.
  destruct (reclaim_loop_returns max_bytes files (sum_sizes files) 0 w)
    as (n & atts & ps & E & P & _ & C & _).
  rewrite E in H. injection H as <- <-. cbn [w_root w_clock w_dir].
  split; [|split; [reflexivity|split; [reflexivity|]]].
  - exists n. split; [reflexivity|].
    pose proof (filter_length_le succeeded atts) as F.
    assert (A : (List.length atts <= List.length files)%nat).
    { apply (f_equal (@List.length file)) in P.
      rewrite length_map, length_firstn in P. unfold attempt in *.
      rewrite P. apply Nat.le_min_r. }
    unfold attempt in *. lia.
  - destruct (w_dir w) as [es|e]; simpl; [|reflexivity].
    apply without_all_incl.
Qed.

Lemma pass_bounds_witness :
  (exists n, fst (enforce_storage_cap "rec" 2 troubled) = Ok n
             /\ 0 <= n <= Z.of_nat (List.length troubled_files))
  /\ w_root (snd (enforce_storage_cap "rec" 2 troubled)) = w_root troubled
  /\ w_clock (snd (enforce_storage_cap "rec" 2 troubled)) = w_clock troubled
  /\ match w_dir troubled, w_dir (snd (enforce_storage_cap "rec" 2 troubled))
     with
     | Ok es, Ok es' =>
         incl es' es /\ (List.length es' <= List.length es)%nat
     | Raise e, Raise e' => e = e'
     | _, _ => False
     end.
Proof.
  apply (pass_bounds "rec" 2 troubled troubled_files).
  - vm_compute. reflexivity.
  - vm_compute. reflexivity.
Defined.

Lemma evict_count_all max_bytes : forall files total,
  total = sum_sizes files ->
  Forall (fun f => 0 < f_size f) files ->
  max_bytes <= 0 ->
  evict_count max_bytes files total = List.length files.
Proof.
  induction files as [|f files IH]; intros total T P M; cbn [evict_count].
  - now destruct (total >? max_bytes).
  - inversion P as [|? ? Pf P']; subst.
    rewrite sum_sizes_cons.
    pose proof (sum_sizes_nonneg files) as S.
    assert (0 <= sum_sizes files).
    { apply S. eapply Forall_impl; [|exact P']. simpl. lia. }
    assert ((f_size f + sum_sizes files >? max_bytes) = true) as -> by lia.
    cbn [List.length]. f_equal. apply IH; auto. lia.
Qed.

Lemma removable_files w es files :
  w_dir w = Ok es -> wf_dir (w_root w) es ->
  list_recording_files (w_root w) w = (Ok files, w) ->
  (forall d, In d es -> d_remove d = None) ->
  forall f, In f files -> remove_outcome (f_path f) w = None.
Proof.
  intros D N L R f I.
  rewrite (list_recording_files_inventory _ _ _ _ D N L) in I.
  apply (Permutation_in _ (sort_by_mtime_perm _)) in I.
  apply inventory_paths in I as (d & Id & Hp & _).
  unfold remove_outcome, lookup. rewrite D, Hp, (find_wf _ _ d N Id).
  now apply R.
Qed.

(** X8. Under a cap of zero or less a pass deletes every segment of
    positive size, the newest one with the rest, and the folder size
    afterwards is 0. *)
Theorem nonpositive_cap_deletes_all :
  forall w es max_bytes files,
    w_dir w = Ok es -> wf_dir (w_root w) es ->
    list_recording_files (w_root w) w = (Ok files, w) ->
    (forall d, In d es -> d_remove d = None) ->
    Forall (fun f => 0 < f_size f) files ->
    max_bytes <= 0 ->
    exists w',
      enforce_storage_cap (w_root w) max_bytes w
      = (Ok (Z.of_nat (List.length files)), w')
      /\ w_trace w' = w_trace w ++ map (removed_ok (w_clock w)) files
      /\ list_recording_files (w_root w) w' = (Ok [], w')
      /\ folder_size_bytes (w_root w) w' = (Ok 0, w').
Proof.
  intros w es max_bytes files D N L R P M.
  destruct (enforce_storage_cap_all_ok w es max_bytes files D N L
              (removable_files w es files D N L R)) as [E L'].
  rewrite (evict_count_all max_bytes files _ eq_refl P M) in E, L'.
  rewrite firstn_all in E, L'. rewrite skipn_all in L'.
  eexists. split; [exact E|]. split; [reflexivity|]. split; [exact L'|].
  apply (folder_size_bytes_eq _ _ _ L').
Qed.

Lemma nonpositive_cap_deletes_all_witness :
  exists w',
    enforce_storage_cap (w_root scenario_A6) 0 scenario_A6
    = (Ok (Z.of_nat (List.length scenario_A6_files)), w')
    /\ w_trace w'
       = w_trace scenario_A6
         ++ map (removed_ok (w_clock scenario_A6)) scenario_A6_files
    /\ list_recording_files (w_root scenario_A6) w' = (Ok [], w')
    /\ folder_size_bytes (w_root scenario_A6) w' = (Ok 0, w').
Proof.
  apply (nonpositive_cap_deletes_all scenario_A6
           (sixth_segment :: five_segments) 0 scenario_A6_files eq_refl).
  - unfold wf_dir. vm_compute.
    repeat (constructor; [simpl; intuition discriminate|]). constructor.
  - vm_compute. reflexivity.
  - intros d H. vm_compute in H.
    repeat (destruct H as [<-|H]; [reflexivity|]). destruct H.
  - unfold scenario_A6_files. repeat (constructor; [reflexivity|]).
    constructor.
  - lia.
Defined.

(** X9. The size of a file that is gone when [os.remove] is called stays
    in the running total: if the oldest file has vanished and the total
    taken before exceeds the cap, the pass deletes the next file, whether
    or not the directory without the vanished file is within the cap. *)
Theorem vanished_file_still_counted :
  forall w es max_bytes f1 f2 rest,
    w_dir w = Ok es -> wf_dir (w_root w) es ->
    list_recording_files (w_root w) w = (Ok (f1 :: f2 :: rest), w) ->
    remove_outcome (f_path f1) w = Some FileNotFoundError ->
    remove_outcome (f_path f2) w = None ->
    sum_sizes (f1 :: f2 :: rest) > max_bytes ->
    exists n w' more,
      enforce_storage_cap (w_root w) max_bytes w = (Ok n, w')
      /\ 1 <= n
      /\ w_trace w'
         = w_trace w
           ++ (w_clock w, EvRemove (f_path f1) (Some FileNotFoundError))
           :: (w_clock w, EvRemove (f_path f2) None) :: more.
Proof.
  intros w es max_bytes f1 f2 rest D N L R1 R2 S.
  assert (Nf : NoDup (map f_path (f1 :: f2 :: rest))).
  { rewrite (list_recording_files_inventory _ _ _ _ D N L).
    eapply Permutation_NoDup.
    - apply Permutation_map. symmetry. apply sort_by_mtime_perm.
    - now apply inventory_NoDup. }
  assert (Hp : f_path f1 <> f_path f2).
  { inversion Nf as [|? ? H1 _]; subst. intros C. apply H1. rewrite C.
    now left. }
  unfold enforce_storage_cap, bind. rewrite L.
  destruct w as [root dir clock trace]. cbn [w_root w_dir w_clock w_trace] in *.
  subst dir.
  set (total := sum_sizes (f1 :: f2 :: rest)) in *.
  cbn [reclaim_loop].
  assert ((total >? max_bytes) = true) as -> by lia.
  rewrite os_remove_eq, R1.
  cbn [is_FileNotFoundError dir_without_all reclaim_loop].
  rewrite os_remove_eq.
  cbn [without_all fold_left].
  rewrite (remove_outcome_without root es clock trace _ _ _ _ Hp), R2.
  cbn [dir_without_all without_all fold_left].
  destruct (reclaim_loop_general max_bytes rest (total - f_size f2) (0 + 1)
              root (Ok (without root (f_path f2)
                          (without root (f_path f1) es)))
              clock
              ((trace ++ [(clock, EvRemove (f_path f1)
                                    (Some FileNotFoundError))])
               ++ [(clock, EvRemove (f_path f2) None)]))
    as (n & atts & ps & E & _ & _ & C & _).
  rewrite E. exists n. eexists. exists (map (attempt_event clock) atts).
  split; [reflexivity|]. split; [lia|].
  cbn [w_trace]. now rewrite <- !app_assoc.
Qed.

Lemma vanished_file_still_counted_witness :
  10 - 6 <= 10
  /\ exists n w' more,
       enforce_storage_cap (w_root raced) 10 raced = (Ok n, w')
       /\ 1 <= n
       /\ w_trace w'
          = w_trace raced
            ++ (w_clock raced,
                EvRemove "rec/a.mp4" (Some FileNotFoundError))
            :: (w_clock raced, EvRemove "rec/b.mp4" None) :: more.
Proof.
  split; [lia|].
  apply (vanished_file_still_counted raced raced_entries 10
           ("rec/a.mp4"%string, 1%Q, 6) ("rec/b.mp4"%string, 2%Q, 6) []
           eq_refl).
  - unfold wf_dir. vm_compute.
    repeat (constructor; [simpl; intuition discriminate|]). constructor.
  - vm_compute. reflexivity.
  - reflexivity.
  - reflexivity.
  - vm_compute. reflexivity.
Defined.

(* ================================================================== *)
(** * Further properties of publication and of the loop *)

Lemma scan_frame output_dir w1 w2 :
  same_directory w1 w2 ->
  forall names files,
    fst (scan output_dir names files w1) = fst (scan output_dir names files w2).
Proof.
  intros [R D]. induction names as [|name names IH]; intros files;
    [reflexivity|].
  cbn [scan]. destruct (endswith name ".mp4"); [|apply IH].
  unfold bind, try_except, os_stat, ret, raise.
  assert (L : lookup (os_path_join output_dir name) w1
              = lookup (os_path_join output_dir name) w2).
  { unfold lookup. now rewrite R, D. }
  rewrite L.
  destruct (lookup (os_path_join output_dir name) w2) as [d|]; simpl;
    [|apply IH].
  destruct (d_stat d) as [st|e]; simpl; [apply IH|].
  destruct (is_FileNotFoundError e); simpl; [apply IH|reflexivity].
Qed.

Lemma list_recording_files_frame output_dir w1 w2 :
  same_directory w1 w2 ->
  fst (list_recording_files output_dir w1)
  = fst (list_recording_files output_dir w2).
Proof.
  intros S. pose proof S as [R D].
  unfold list_recording_files, try_except, bind, os_listdir, ret, raise.
  rewrite R, D.
  destruct (String.eqb output_dir (w_root w2)); [|reflexivity].
  destruct (w_dir w2) as [es|e]; [|now destruct (is_FileNotFoundError e)].
  pose proof (scan_frame output_dir w1 w2 S (map d_name es) []) as H.
  destruct (scan output_dir (map d_name es) [] w1) as [[fs1|e1] w1'];
    destruct (scan output_dir (map d_name es) [] w2) as [[fs2|e2] w2'];
    simpl in H; try discriminate.
  - now injection H as ->.
  - injection H as ->. now destruct (is_FileNotFoundError e2).
Qed.

Lemma folder_size_bytes_frame output_dir w1 w2 :
  same_directory w1 w2 ->
  fst (folder_size_bytes output_dir w1) = fst (folder_size_bytes output_dir w2).
Proof.
  intros S. unfold folder_size_bytes, bind, ret.
  pose proof (list_recording_files_frame output_dir w1 w2 S) as H.
  destruct (list_recording_files output_dir w1) as [[f1|e1] w1'];
    destruct (list_recording_files output_dir w2) as [[f2|e2] w2'];
    simpl in *; congruence.
Qed.

Lemma records_single evs st :
  records evs = [st] -> exists t, In (t, EvWriteStatus st) evs.
Proof.
  unfold records. induction evs as [|[t ev] evs IH]; simpl; [discriminate|].
  destruct ev; simpl; try (intros H; destruct (IH H) as [t' I]; eauto).
  intros [= <- _]. exists t. now left.
Qed.

Lemma folder_size_after_log output_dir n w fb s :
  folder_size_bytes output_dir (reclaimed n w) = (Ok fb, reclaimed n w) ->
  folder_size_bytes output_dir w = (Ok s, w) ->
  fb = s.
Proof.
  intros F0 F1.
  pose proof (folder_size_bytes_frame output_dir (reclaimed n w) w
                (conj eq_refl eq_refl)) as Fr.
  rewrite F0, F1 in Fr. simpl in Fr. now injection Fr.
Qed.

(** X10. The cap as the postcondition of a pass: with a cap of 0 or more
    and files that can all be deleted, the segments that a pass leaves in
    the directory sum to at most [max_bytes]; this is what
    [folder_size_bytes] returns when it is called in the world that the
    pass left.  What is written to the directory between the pass and a
    later measurement, as a running FFmpeg does between lines 291 and 292
    of [main], is not covered. *)
Theorem size_after_pass_within_cap :
  forall w es max_bytes n w',
    w_dir w = Ok es ->
    wf_dir (w_root w) es ->
    (forall d, In d es -> d_remove d = None) ->
    0 <= max_bytes ->
    enforce_storage_cap (w_root w) max_bytes w = (Ok n, w') ->
    exists fb,
      folder_size_bytes (w_root w) w' = (Ok fb, w')
      /\ fb <= max_bytes.
Proof.
  intros w es max_bytes n w' D N Rm Cap E.
  assert (L : exists files,
             list_recording_files (w_root w) w = (Ok files, w)).
  { unfold enforce_storage_cap, bind in E.
    pose proof (list_recording_files_pure (w_root w) w) as Pw.
    destruct (list_recording_files (w_root w) w) as [[files|x] w1];
      simpl in Pw; subst w1; [eauto|discriminate]. }
  destruct L as [files L].
  destruct (Z_le_gt_dec (sum_sizes files) max_bytes) as [Le|Gt].
  - rewrite (enforce_storage_cap_under _ _ _ _
               (folder_size_bytes_eq _ _ _ L) Le) in E.
    injection E as <- <-.
    exists (sum_sizes files). split; [|exact Le].
    now apply folder_size_bytes_eq.
  - destruct (enforce_storage_cap_all_ok w es max_bytes files D N L
                (removable_files w es files D N L Rm)) as [E' L'].
    rewrite E' in E. injection E as <- <-.
    eexists. split; [apply (folder_size_bytes_eq _ _ _ L')|].
    destruct (evict_count_stops max_bytes files (sum_sizes files))
      as [S|S].
    + pose proof (sum_sizes_split
                    (evict_count max_bytes files (sum_sizes files)) files).
      lia.
    + rewrite S, skipn_all. rewrite sum_sizes_nil. exact Cap.
Qed.

Lemma size_after_pass_within_cap_witness :
  exists fb,
    folder_size_bytes (w_root scenario_A6)
      (snd (enforce_storage_cap (w_root scenario_A6) default_cap scenario_A6))
    = (Ok fb,
       snd (enforce_storage_cap (w_root scenario_A6) default_cap scenario_A6))
    /\ fb <= default_cap.
Proof.
  apply (size_after_pass_within_cap scenario_A6
           (sixth_segment :: five_segments) default_cap 1).
  - reflexivity.
  - unfold wf_dir. vm_compute.
    repeat (constructor; [simpl; intuition discriminate|]). constructor.
  - intros d H. vm_compute in H.
    repeat (destruct H as [<-|H]; [reflexivity|]). destruct H.
  - vm_compute. discriminate.
  - vm_compute. reflexivity.
Defined.

Lemma find_app {A} (f : A -> bool) l1 l2 :
  find f (l1 ++ l2)
  = match find f l1 with Some x => Some x | None => find f l2 end.
Proof. induction l1 as [|x l1 IH]; simpl; [|destruct (f x)]; auto. Qed.

Lemma find_none {A} (f : A -> bool) l :
  (forall x, In x l -> f x = false) -> find f l = None.
Proof.
  induction l as [|x l IH]; intros H; simpl; [reflexivity|].
  rewrite (H x (or_introl eq_refl)). apply IH. intros y Hy. apply H. now right.
Qed.

Lemma not_mp4_name root d :
  endswith (d_path root d) ".mp4" = false ->
  endswith (d_name d) ".mp4" = false.
Proof.
  intros H. destruct (endswith (d_name d) ".mp4") eqn:E; [|reflexivity].
  apply (endswith_join root) in E. unfold d_path in H. congruence.
Qed.

(** Entries that are no segments do not show in a scan. *)
Lemma scan_other_entries output_dir w w' keep extra es :
  w_root w' = w_root w ->
  w_dir w = Ok es ->
  w_dir w' = Ok (filter keep es ++ extra) ->
  (forall d, keep d = false -> endswith (d_path (w_root w) d) ".mp4" = false) ->
  (forall d, In d extra -> endswith (d_path (w_root w) d) ".mp4" = false) ->
  forall es0 files,
    fst (scan output_dir (map d_name (filter keep es0 ++ extra)) files w')
    = fst (scan output_dir (map d_name es0) files w).
Proof.
  intros R D D' K X.
  assert (L : forall name, endswith name ".mp4" = true ->
                lookup (os_path_join output_dir name) w'
                = lookup (os_path_join output_dir name) w).
  { intros name Hn. unfold lookup. rewrite D, D', R, find_app.
    set (p := os_path_join output_dir name).
    assert (Hp : endswith p ".mp4" = true) by now apply endswith_join.
    assert (Fx : find (fun d => String.eqb (d_path (w_root w) d) p) extra
                 = None).
    { apply find_none. intros d Hd.
      destruct (String.eqb (d_path (w_root w) d) p) eqn:E; [|reflexivity].
      apply String.eqb_eq in E. rewrite <- E, (X d Hd) in Hp. discriminate. }
    rewrite Fx. clear Fx.
    clear D D'. induction es as [|d es IH]; simpl; [reflexivity|].
    destruct (keep d) eqn:Kd; simpl.
    - destruct (String.eqb (d_path (w_root w) d) p); [reflexivity|].
      apply IH.
    - destruct (String.eqb (d_path (w_root w) d) p) eqn:E; [|apply IH].
      apply String.eqb_eq in E. rewrite <- E, (K d Kd) in Hp. discriminate. }
  assert (Sk : forall files,
             fst (scan output_dir (map d_name extra) files w') = Ok files).
  { clear L D'. induction extra as [|d extra IH]; intros files;
      [reflexivity|].
    cbn [map scan].
    rewrite (not_mp4_name _ _ (X d (or_introl eq_refl))).
    apply IH. intros d' Hd'. apply X. now right. }
  induction es0 as [|d es0 IH]; intros files.
  - simpl. apply Sk.
  - cbn [filter]. destruct (keep d) eqn:Kd.
    + cbn [app map scan].
      destruct (endswith (d_name d) ".mp4") eqn:Hn; [|apply IH].
      unfold bind, try_except, os_stat, ret, raise. rewrite (L _ Hn).
      destruct (lookup (os_path_join output_dir (d_name d)) w) as [d'|];
        simpl; [|apply IH].
      destruct (d_stat d') as [st|e]; simpl; [apply IH|].
      destruct (is_FileNotFoundError e); simpl; [apply IH|reflexivity].
    + cbn [map scan]. rewrite (not_mp4_name _ _ (K d Kd)). apply IH.
Qed.

Lemma append_inj (a b c : string) : (a ++ b = a ++ c)%string -> b = c.
Proof. induction a; simpl; intros H; [exact H|]. injection H as H. auto. Qed.

Lemma status_paths_differ output_dir :
  status_final_path output_dir <> status_tmp_path output_dir.
Proof.
  unfold status_final_path, status_tmp_path, os_path_join.
  cbn [prefix]. simpl (prefix _ _).
  destruct (String.eqb output_dir EmptyString || endswith output_dir "/")%bool;
    intros H; apply append_inj in H; discriminate.
Qed.

(** Entries that are no segments can come and go: the inventory is the
    same. *)
Lemma list_recording_files_other_entries w w' keep extra es :
  w_root w' = w_root w ->
  w_dir w = Ok es ->
  w_dir w' = Ok (filter keep es ++ extra) ->
  (forall d, keep d = false -> endswith (d_path (w_root w) d) ".mp4" = false) ->
  (forall d, In d extra -> endswith (d_path (w_root w) d) ".mp4" = false) ->
  fst (list_recording_files (w_root w) w')
  = fst (list_recording_files (w_root w) w).
Proof.
  intros R D D' K X.
  pose proof (scan_other_entries (w_root w) w w' keep extra es R D D' K X es [])
    as Sc.
  unfold list_recording_files, try_except, bind, os_listdir, ret, raise.
  rewrite R, String.eqb_refl, D, D'.
  destruct (scan (w_root w) (map d_name (filter keep es ++ extra)) [] w')
    as [[fs1|e1] w1];
    destruct (scan (w_root w) (map d_name es) [] w) as [[fs2|e2] w2];
    simpl in Sc; try discriminate.
  - now injection Sc as ->.
  - injection Sc as ->. now destruct (is_FileNotFoundError e2).
Qed.

Lemma without_twice root p q es :
  without root q (without root p es)
  = filter (fun d => (negb (String.eqb (d_path root d) q)
                      && negb (String.eqb (d_path root d) p))%bool) es.
Proof.
  unfold without. induction es as [|d es IH]; simpl; [reflexivity|].
  destruct (String.eqb (d_path root d) p); simpl;
    rewrite ?andb_false_r, ?andb_true_r; simpl; [exact IH|].
  destruct (String.eqb (d_path root d) q); simpl; now rewrite IH.
Qed.

Lemma find_without_same root p es :
  find (fun d => String.eqb (d_path root d) p) (without root p es) = None.
Proof.
  apply find_none. intros d Hd. unfold without in Hd.
  apply filter_In in Hd as [_ Hd]. now apply negb_true_iff in Hd.
Qed.

(** X11. [write_status] replaces the status file in one step.  With a
    fault at any of its three steps -- the [open] of the temporary file,
    [json.dump], [os.replace] -- it returns normally exactly when no step
    has a fault, and raises the fault of the first step that has one.
    When it returns, [status.json] is an entry with the time of the
    write and the length of the dump, the temporary file is no entry, and
    one write is logged.  When it raises, [os.stat] of [status.json]
    answers what it answered before, no write is logged, and after a
    fault of [os.replace] the complete dump is still there under the
    temporary name.  In either case the inventory of segments and the
    clock are the ones from before.  Without faults the steps are the
    [write_status] of the main loop. *)
Theorem write_status_atomic :
  (forall json_len output_dir st w,
     write_status_steps json_len no_faults output_dir st w
     = write_status json_len output_dir st w)
  /\ (forall json_len q st w es r w',
        w_dir w = Ok es ->
        write_status_steps json_len q (w_root w) st w = (r, w') ->
        r = match first_fault q with None => Ok tt | Some e => Raise e end
        /\ (r = Ok tt ->
            os_stat (status_final_path (w_root w)) w'
            = (Ok (w_clock w, json_len st), w')
            /\ lookup (status_tmp_path (w_root w)) w' = None
            /\ w_trace w' = w_trace w ++ [(w_clock w, EvWriteStatus st)])
        /\ (forall e, r = Raise e ->
              fst (os_stat (status_final_path (w_root w)) w')
              = fst (os_stat (status_final_path (w_root w)) w)
              /\ w_trace w' = w_trace w
              /\ (open_fault q = Some e -> w' = w)
              /\ (open_fault q = None -> dump_fault q = None ->
                  fst (os_stat (status_tmp_path (w_root w)) w')
                  = Ok (w_clock w, json_len st)))
        /\ fst (list_recording_files (w_root w) w')
           = fst (list_recording_files (w_root w) w)
        /\ w_clock w' = w_clock w /\ w_root w' = w_root w).
Proof.
  split; [reflexivity|].
  intros json_len q st w es r w' D H.
  unfold write_status_steps in H. rewrite String.eqb_refl, D in H.
  fold (status_tmp_path (w_root w)) in H.
  fold (status_final_path (w_root w)) in H.
  set (root := w_root w) in *.
  set (tmp := status_tmp_path root) in *.
  set (final := status_final_path root) in *.
  assert (Pt : forall t n, d_path root (tmp_entry t n) = tmp) by reflexivity.
  assert (Ne : String.eqb tmp final = false).
  { destruct (String.eqb tmp final) eqn:E; [|reflexivity].
    apply String.eqb_eq in E. symmetry in E.
    now apply status_paths_differ in E. }
  assert (Ne' : String.eqb final tmp = false).
  { destruct (String.eqb final tmp) eqn:E; [|reflexivity].
    apply String.eqb_eq in E. now apply status_paths_differ in E. }
  assert (Nt : tmp <> final)
    by (intros E; rewrite E, String.eqb_refl in Ne; discriminate).
  (* a temporary file left behind changes neither status.json nor the
     inventory *)
  assert (Left : forall t n,
             let w1 := set_dir (without root tmp es ++ [tmp_entry t n]) w in
             fst (os_stat final w1) = fst (os_stat final w)
             /\ fst (os_stat tmp w1) = Ok (t, n)
             /\ fst (list_recording_files root w1)
                = fst (list_recording_files root w)).
  { intros t n w1. split; [|split].
    - unfold os_stat, lookup, w1, set_dir. cbn [w_root w_dir]. rewrite D.
      fold root. rewrite find_app, (find_without root tmp final es Nt).
      destruct (find (fun d => String.eqb (d_path root d) final) es);
        [reflexivity|].
      cbn [find]. rewrite Pt, Ne. reflexivity.
    - unfold os_stat, lookup, w1, set_dir. cbn [w_root w_dir]. fold root.
      rewrite find_app, find_without_same.
      cbn [find]. rewrite Pt, String.eqb_refl. reflexivity.
    - apply (list_recording_files_other_entries w w1
               (fun d => negb (String.eqb (d_path root d) tmp))
               [tmp_entry t n] es eq_refl D eq_refl).
      + intros d Kd. apply negb_false_iff, String.eqb_eq in Kd.
        fold root. rewrite Kd. now apply status_path_not_mp4.
      + intros d [<-|[]]. fold root. rewrite Pt.
        now apply status_path_not_mp4. }
  unfold first_fault.
  destruct (open_fault q) as [eo|] eqn:Qo.
  { injection H as <- <-. split; [reflexivity|].
    split; [discriminate|]. split; [|auto].
    intros e [= <-]. repeat split; auto. intros C. discriminate C. }
  destruct (dump_fault q) as [[ed n]|] eqn:Qd.
  { injection H as <- <-. split; [reflexivity|].
    destruct (Left (w_clock w) n) as (Lf & Lt & Li).
    split; [discriminate|]. split; [|auto].
    intros e [= <-]. repeat split; auto; discriminate. }
  destruct (replace_fault q) as [er|] eqn:Qr.
  { injection H as <- <-. split; [reflexivity|].
    destruct (Left (w_clock w) (json_len st)) as (Lf & Lt & Li).
    split; [discriminate|]. split; [|auto].
    intros e [= <-]. repeat split; auto. discriminate. }
  unfold log, set_dir in H. cbn [w_root w_dir w_clock w_trace] in H.
  fold root in H. injection H as <- <-.
  set (entry := mkDirent "status.json" (Ok (w_clock w, json_len st)) None).
  assert (Pe : d_path root entry = final) by reflexivity.
  split; [reflexivity|]. split; [|split; [discriminate|]].
  - intros _. split; [|split; [|reflexivity]].
    + unfold os_stat, lookup. cbn [w_root w_dir]. fold root.
      rewrite find_app, find_without_same.
      cbn [find]. rewrite Pe, String.eqb_refl. reflexivity.
    + unfold lookup. cbn [w_root w_dir]. fold root.
      rewrite find_app, (find_without root final tmp)
        by (intros E; now apply Nt).
      rewrite find_without_same. cbn [find]. rewrite Pe, Ne'. reflexivity.
  - split; [|split; reflexivity].
    match goal with
    | |- fst (list_recording_files _ ?w1) = _ => set (w1' := w1)
    end.
    apply (list_recording_files_other_entries w w1'
             (fun d => (negb (String.eqb (d_path root d) final)
                        && negb (String.eqb (d_path root d) tmp))%bool)
             [entry] es eq_refl D).
    + unfold w1'. cbn [w_dir]. now rewrite without_twice.
    + intros d Kd. apply andb_false_iff in Kd as [Kd|Kd];
        apply negb_false_iff, String.eqb_eq in Kd; fold root;
        rewrite Kd; now apply status_path_not_mp4.
    + intros d [<-|[]]. fold root. rewrite Pe.
      now apply status_path_not_mp4.
Qed.

Lemma write_status_atomic_witness :
  (* status.json is a directory: the old entry stays, the dump is left
     under the temporary name, the segments are untouched *)
  fst (write_status_steps plain_json_len blocked_replace "rec" fresh_record
         with_status)
  = Raise IsADirectoryError
  /\ fst (os_stat "rec/status.json"
            (snd (write_status_steps plain_json_len blocked_replace "rec"
                    fresh_record with_status)))
     = Ok (7%Q, 400)
  /\ fst (os_stat "rec/status.json.tmp"
            (snd (write_status_steps plain_json_len blocked_replace "rec"
                    fresh_record with_status)))
     = Ok (50%Q, 0)
  /\ fst (list_recording_files "rec"
            (snd (write_status_steps plain_json_len blocked_replace "rec"
                    fresh_record with_status)))
     = Ok [("rec/x.mp4"%string, 1%Q, 5); ("rec/y.mp4"%string, 2%Q, 5)]
  (* no fault: the new file is in place of the old one *)
  /\ os_stat "rec/status.json"
       (snd (write_status plain_json_len "rec" fresh_record with_status))
     = (Ok (50%Q, 0),
        snd (write_status plain_json_len "rec" fresh_record with_status)).
Proof.
  pose proof (proj2 write_status_atomic plain_json_len blocked_replace
                fresh_record with_status _ _ _ eq_refl eq_refl)
    as (R & _ & F & I & _).
  destruct (F IsADirectoryError R) as (Fs & _ & _ & Ft).
  pose proof (proj2 write_status_atomic plain_json_len no_faults
                fresh_record with_status _ _ _ eq_refl eq_refl)
    as (R' & S & _).
  split; [exact R|]. split; [exact Fs|].
  split; [exact (Ft eq_refl eq_refl)|]. split; [exact I|].
  rewrite <- (proj1 write_status_atomic).
  exact (proj1 (S R')).
Defined.

Lemma py_round1_zero x : (x == 0)%Q -> (py_round1 x == 0)%Q.
Proof.
  intros H. unfold py_round1, round_half_even.
  assert (F : Qfloor (x * 10) = 0).
  { assert (E : (x * 10 == 0)%Q) by (rewrite H; reflexivity).
    rewrite (Qfloor_comp _ _ E). reflexivity. }
  rewrite F.
  assert (C : (x * 10 - inject_Z 0 ?= 1 # 2)%Q = Lt).
  { apply Qlt_alt. rewrite H. reflexivity. }
  rewrite C. reflexivity.
Qed.

(** What an iteration with a live subprocess leaves when it runs to its
    end. *)
Lemma alive_tick_record json_len e s w s' w' :
  e_poll e = None ->
  tick json_len e s w = (Ok s', w') ->
  let t0 := (w_clock w + CHECK_EVERY_SECONDS + e_overrun e)%Q in
  exists newest n fb,
    records (new_events w w') = [evaluated_status e s newest t0 n fb]
    /\ w_clock w' = t0
    /\ s' = mkLocals (proc_pid s)
                     (snd (health_check newest t0 (last_ok_time s))).
Proof.
  intros P H t0.
  destruct (alive_tick _ _ _ _ _ _ P H) as (evs & st & T & Rec & C & _).
  pose proof (new_events_app _ _ _ T) as NE.
  destruct (records_single _ _ Rec) as [t I].
  assert (I' : In (t, EvWriteStatus st)
                  (new_events w (snd (tick json_len e s w)))).
  { rewrite H. cbn [snd]. now rewrite NE. }
  destruct (alive_publication _ _ _ _ _ _ P I')
    as (newest & n & fb & s'' & -> & -> & S' & (_ & _ & ->) & _).
  rewrite H in S'. cbn [fst] in S'. injection S' as ->.
  exists newest, n, fb. rewrite NE. auto.
Qed.

(** X12. When an iteration with a live subprocess finds the segments
    fresh, it moves the time of the last healthy check to now before it
    builds the record: the record says [reason = ok] and
    [seconds_since_last_ok] is 0 in it, and the subprocess stays the
    same. *)
Theorem healthy_tick_resets :
  forall json_len e s w s' w' st,
    e_poll e = None ->
    tick json_len e s w = (Ok s', w') ->
    records (new_events w w') = [st] ->
    get "recording" st = Some (JBool true) ->
    last_ok_time s' = w_clock w'
    /\ proc_pid s' = proc_pid s
    /\ get "reason" st = Some (JStr "ok")
    /\ (seconds_since st == 0)%Q.
Proof.
  intros json_len e s w s' w' st P H Rec G.
  destruct (alive_tick_record _ _ _ _ _ _ P H)
    as (newest & n & fb & Rec' & C & ->).
  rewrite Rec in Rec'. injection Rec' as ->. rewrite C.
  set (t0 := (w_clock w + CHECK_EVERY_SECONDS + e_overrun e)%Q) in *.
  unfold evaluated_status in *.
  assert (Hc : health_check newest t0 (last_ok_time s)
               = (true, "ok"%string, t0)).
  { unfold health_check in *. destruct newest as [m|]; [|discriminate].
    destruct (Qle_bool (t0 - m) NO_PROGRESS_TIMEOUT_SECONDS);
      [reflexivity|discriminate]. }
  rewrite Hc. cbn [fst snd proc_pid last_ok_time].
  repeat split.
  unfold seconds_since, tick_status. cbn [get String.eqb].
  simpl (get _ _). apply py_round1_zero. ring.
Qed.

Lemma healthy_tick_resets_witness :
  let r := tick plain_json_len punctual_env start_locals at_the_limit in
  last_ok_time (mkLocals 4242 1010) = w_clock (snd r)
  /\ proc_pid (mkLocals 4242 1010) = proc_pid start_locals
  /\ get "reason" fresh_record = Some (JStr "ok")
  /\ (seconds_since fresh_record == 0)%Q.
Proof.
  intros r.
  apply (healthy_tick_resets plain_json_len punctual_env start_locals
           at_the_limit (mkLocals 4242 1010) (snd r) fresh_record).
  - reflexivity.
  - vm_compute. reflexivity.
  - vm_compute. reflexivity.
  - reflexivity.
Defined.

(** X13. A restart moves the time of the last healthy check to the moment
    after the launch of the new subprocess: when the next iteration finds
    no fresh segment, the [seconds_since_last_ok] of its record counts
    from the restart, whatever the time of the last healthy check was
    before the subprocess exited. *)
Theorem restart_resets_last_ok :
  forall json_len e1 e2 s w s1 w1 s2 w2 rc st,
    e_poll e1 = Some rc ->
    tick json_len e1 s w = (Ok s1, w1) ->
    e_poll e2 = None ->
    tick json_len e2 s1 w1 = (Ok s2, w2) ->
    records (new_events w1 w2) = [st] ->
    get "recording" st = Some (JBool false) ->
    last_ok_time s1 = w_clock w1
    /\ e_popen e1 = Ok (proc_pid s1)
    /\ seconds_since st = py_round1 (w_clock w2 - w_clock w1)
    /\ last_ok_time s2 = w_clock w1.
Proof.
  intros json_len e1 e2 s w s1 w1 s2 w2 rc st P1 H1 P2 H2 Rec G.
  assert (D : last_ok_time s1 = w_clock w1 /\ e_popen e1 = Ok (proc_pid s1)).
  { rewrite tick_eq, P1, report_death_eq in H1.
    destruct (write_status json_len OUTPUT_DIR _ (woken e1 w))
      as [[[]|x] w0]; [|discriminate].
    cbv zeta in H1. destruct (e_popen e1) as [pid|x]; [|discriminate].
    injection H1 as <- <-. split; reflexivity. }
  destruct D as [D1 D2].
  destruct (alive_tick _ _ _ _ _ _ P2 H2) as (evs & st' & T & Rec' & _ & U).
  rewrite (new_events_app _ _ _ T) in Rec. rewrite Rec in Rec'.
  injection Rec' as <-.
  destruct (U G) as (K & _ & S).
  rewrite D1 in K, S. auto.
Qed.

Lemma restart_resets_last_ok_witness :
  let r := tick plain_json_len alive_env (fst restarted) (snd restarted) in
  let st := written (event_at 3 (new_events (snd restarted) (snd r))) in
  last_ok_time (fst restarted) = w_clock (snd restarted)
  /\ e_popen exited_env = Ok (proc_pid (fst restarted))
  /\ seconds_since st = py_round1 (w_clock (snd r) - w_clock (snd restarted))
  /\ last_ok_time (fst restarted) = w_clock (snd restarted).
Proof.
  intros r st.
  apply (restart_resets_last_ok plain_json_len exited_env alive_env
           start_locals scenario_A5 (fst restarted) (snd restarted)
           (fst restarted) (snd r) 1 st).
  - reflexivity.
  - vm_compute. reflexivity.
  - reflexivity.
  - vm_compute. reflexivity.
  - vm_compute. reflexivity.
  - vm_compute. reflexivity.
Defined.

(* ================================================================== *)
(** * Properties of the rest of the program *)

(** ** The cap in bytes *)

(** X14. [bytes_from_gb] of a whole number of gigabytes is that number
    times 2^30; of any other number it is the product cut towards zero:
    never more than the product when that is positive, never less when it
    is negative, and less than 1 away from it. *)
Theorem bytes_from_gb_truncates :
  (forall n : Z, bytes_from_gb (inject_Z n) = n * 1073741824)
  /\ (forall gb, (0 <= gb)%Q ->
        (inject_Z (bytes_from_gb gb) <= gb * 1024 * 1024 * 1024)%Q
        /\ (gb * 1024 * 1024 * 1024 < inject_Z (bytes_from_gb gb + 1))%Q)
  /\ (forall gb, (gb <= 0)%Q ->
        (gb * 1024 * 1024 * 1024 <= inject_Z (bytes_from_gb gb))%Q
        /\ (inject_Z (bytes_from_gb gb - 1) < gb * 1024 * 1024 * 1024)%Q).
Proof.
  split; [|split].
  - intros n. unfold bytes_from_gb. cbn [Qnum Qden Qmult inject_Z].
    simpl (Z.pos _). rewrite Z.quot_1_r. ring.
  - intros gb G. unfold bytes_from_gb.
    set (x := (gb * 1024 * 1024 * 1024)%Q).
    assert (X : (0 <= x)%Q).
    { unfold x. repeat apply Qmult_le_0_compat; try exact G; discriminate. }
    assert (Nn : 0 <= Qnum x).
    { change (0 * Z.pos (Qden x) <= Qnum x * 1) in X. lia. }
    rewrite Z.quot_div_nonneg by (auto; lia).
    change (Qnum x / Z.pos (Qden x)) with (Qfloor x).
    split; [apply Qfloor_le|apply Qlt_floor].
  - intros gb G. unfold bytes_from_gb.
    set (x := (gb * 1024 * 1024 * 1024)%Q).
    assert (X : (x <= 0)%Q).
    { unfold x.
      setoid_replace 0%Q with (0 * 1024 * 1024 * 1024)%Q by reflexivity.
      repeat apply Qmult_le_compat_r; try exact G; discriminate. }
    assert (Nn : Qnum x <= 0).
    { change (Qnum x * 1 <= 0 * Z.pos (Qden x)) in X. lia. }
    assert (C : Z.quot (Qnum x) (Z.pos (Qden x)) = Qceiling x).
    { unfold Qceiling, Qfloor. destruct x as [a d]. simpl in *.
      rewrite <- (Z.opp_involutive a) at 1.
      rewrite Z.quot_opp_l by lia.
      rewrite Z.quot_div_nonneg by lia. reflexivity. }
    rewrite C. split; [apply Qle_ceiling|apply Qceiling_lt].
Qed.

Lemma bytes_from_gb_truncates_witness :
  (inject_Z (bytes_from_gb (3 # 2)) <= (3 # 2) * 1024 * 1024 * 1024)%Q
  /\ ((3 # 2) * 1024 * 1024 * 1024 < inject_Z (bytes_from_gb (3 # 2) + 1))%Q.
Proof.
  apply (proj1 (proj2 bytes_from_gb_truncates) (3 # 2)).
  vm_compute. discriminate.
Defined.

(** ** The URL *)

Lemma chars_app (a b : string) :
  list_ascii_of_string (a ++ b)
  = list_ascii_of_string a ++ list_ascii_of_string b.
Proof. induction a; simpl; congruence. Qed.

Lemma quote_byte_chars c :
  forallb url_char (list_ascii_of_string (quote_byte c)) = true.
Proof.
  destruct c as [[] [] [] [] [] [] [] []]; reflexivity.
Qed.

(** [quote] writes nothing but letters, digits, [_.-~], ['/'] and ['%']:
    no ['@'] and no [':'] is left in what it returns. *)
Lemma quote_chars s :
  forallb url_char (list_ascii_of_string (quote s)) = true
  /\ ~ In "@"%char (list_ascii_of_string (quote s))
  /\ ~ In ":"%char (list_ascii_of_string (quote s)).
Proof.
  assert (A : forallb url_char (list_ascii_of_string (quote s)) = true).
  { induction s as [|c s IH]; [reflexivity|].
    cbn [quote]. rewrite chars_app, forallb_app, IH.
    now rewrite (quote_byte_chars c). }
  assert (N : forall c, url_char c = false ->
                        ~ In c (list_ascii_of_string (quote s))).
  { intros c U I. rewrite forallb_forall in A. apply A in I. congruence. }
  split; [exact A|]. split; apply N; reflexivity.
Qed.

Lemma index_first (sep : ascii) (pre rest : string) :
  ~ In sep (list_ascii_of_string pre) ->
  index 0 (String sep EmptyString) (pre ++ String sep rest)
  = Some (String.length pre).
Proof.
  induction pre as [|c pre IH]; intros N.
  - cbn [append index prefix].
    destruct (ascii_dec sep sep) as [_|C]; [|congruence].
    now destruct rest.
  - cbn [append index prefix].
    destruct (ascii_dec sep c) as [->|C].
    + exfalso. apply N. now left.
    + rewrite IH; [reflexivity|]. intros I. apply N. now right.
Qed.

Lemma index_skip (n : nat) (s1 pre rest : string) :
  String.length pre = n ->
  index n s1 (pre ++ rest)
  = match index 0 s1 rest with
    | Some k => Some (n + k)%nat
    | None => None
    end.
Proof.
  revert n. induction pre as [|c pre IH]; intros n L; simpl in L; subst n.
  - simpl. now destruct (index 0 s1 rest).
  - cbn [append String.length index]. rewrite (IH _ eq_refl).
    now destruct (index 0 s1 rest).
Qed.

(** X16. Whatever the user name and the password contain, the first ['@']
    of the URL is the one written after the password, and the first [':']
    after the scheme is the one written between user name and password:
    the credentials cannot be cut short or run into the host. *)
Theorem rtsp_url_separators :
  forall cam_user cam_pass cam_host cam_port cam_path,
    let url := rtsp_url cam_user cam_pass cam_host cam_port cam_path in
    index 0 "@" url
    = Some (String.length ("rtsp://" ++ quote cam_user ++ ":"
                           ++ quote cam_pass))
    /\ index 7 ":" url = Some (7 + String.length (quote cam_user))%nat.
Proof.
  intros cam_user cam_pass cam_host cam_port cam_path url.
  destruct (quote_chars cam_user) as (_ & Ua & Uc).
  destruct (quote_chars cam_pass) as (_ & Pa & Pc).
  split.
  - unfold url, rtsp_url.
    replace ("rtsp://" ++ quote cam_user ++ ":" ++ quote cam_pass ++ "@"
             ++ cam_host ++ ":" ++ str cam_port ++ cam_path)%string
      with (("rtsp://" ++ quote cam_user ++ ":" ++ quote cam_pass)
            ++ String "@" (cam_host ++ ":" ++ str cam_port ++ cam_path))%string.
    + apply index_first.
      rewrite !chars_app. intros I.
      repeat (apply in_app_or in I as [I|I]); auto.
      * simpl in I. intuition discriminate.
      * simpl in I. intuition discriminate.
    + rewrite !append_assoc. reflexivity.
  - unfold url, rtsp_url.
    rewrite (index_skip 7 ":" "rtsp://") by reflexivity.
    change (":" ++ quote cam_pass ++ "@" ++ cam_host ++ ":" ++ str cam_port
            ++ cam_path)%string
      with (String ":" (quote cam_pass ++ "@" ++ cam_host ++ ":"
                        ++ str cam_port ++ cam_path)).
    now rewrite (index_first ":" (quote cam_user) _ Uc).
Qed.

(** ** The command *)

(** X17. The last argument of the FFmpeg command, the pattern of the
    files to write, is a name ending in [.mp4] joined to [output_dir] the
    way [list_recording_files] joins the names it keeps; the command has
    24 arguments, the URL right after [-i] and the decimal segment time
    right after [-segment_time]. *)
Theorem ffmpeg_writes_segments :
  forall url output_dir segment_seconds transport,
    let cmd := build_ffmpeg_command url output_dir segment_seconds transport in
    segment_path output_dir (last cmd EmptyString)
    /\ endswith (last cmd EmptyString) ".mp4" = true
    /\ List.length cmd = 24%nat
    /\ (exists pre post,
          cmd = pre ++ ["-i"%string; url] ++ post /\ List.length pre = 10%nat)
    /\ (exists pre post,
          cmd = pre ++ ["-segment_time"%string; str segment_seconds] ++ post
          /\ List.length pre = 17%nat).
Proof.
  intros url output_dir segment_seconds transport cmd.
  assert (S : segment_path output_dir (last cmd EmptyString)).
  { exists "%Y-%m-%d_%H-%M-%S.mp4"%string. split; reflexivity. }
  split; [exact S|]. split; [now apply segment_path_mp4 in S|].
  split; [reflexivity|]. split.
  - exists (firstn 10 cmd), (skipn 12 cmd). split; reflexivity.
  - exists (firstn 17 cmd), (skipn 19 cmd). split; reflexivity.
Qed.

(** ** Shutdown *)

(** X18. However the subprocess answers, the handler of the signals ends
    in [sys.exit(0)]: an error of [terminate], [wait] or [kill] never
    comes out of it.  It starts with [terminate]; it waits, for 5
    seconds, exactly when [terminate] succeeded; and it calls [kill]
    exactly when that wait ran out. *)
Theorem shutdown_exits_zero :
  forall a calls0,
    exists calls,
      shutdown a calls0 = (Exiting 0, calls0 ++ calls)
      /\ hd_error calls = Some CallTerminate
      /\ last calls CallKill = CallExit 0
      /\ (In (CallWait 5) calls <-> a_terminate a = None)
      /\ (In CallKill calls
          <-> a_terminate a = None /\ a_wait a = Some TimeoutExpired).
Proof.
  intros [[[]|] [[]|] k] calls0;
    unfold shutdown, finally, then_, except_timeout, call, sys_exit;
    cbn [a_terminate a_wait a_kill];
    try destruct k as [[]|];
    (eexists; split; [rewrite <- !app_assoc; reflexivity|]);
    simpl; repeat split; intros; intuition (try discriminate).
Qed.

Lemma shutdown_exits_zero_witness :
  exists calls,
    shutdown (mkAnswers None (Some TimeoutExpired) (Some ProcessError)) []
    = (Exiting 0, [] ++ calls)
    /\ hd_error calls = Some CallTerminate
    /\ last calls CallKill = CallExit 0
    /\ (In (CallWait 5) calls <-> None = @None proc_error)
    /\ (In CallKill calls
        <-> None = @None proc_error
            /\ Some TimeoutExpired = Some TimeoutExpired).
Proof.
  apply (shutdown_exits_zero
           (mkAnswers None (Some TimeoutExpired) (Some ProcessError)) []).
Defined.

(** ** The tail of the diagnostics *)

Lemma slice_from_lastn {A} (n : Z) (l : list A) :
  0 < n -> slice_from (- n) l = lastn (Z.to_nat n) l.
Proof.
  intros P. unfold slice_from, lastn.
  assert ((- n <? 0) = true) as -> by lia. f_equal. lia.
Qed.

(** X19. With a positive [max_lines], [tail_stderr] returns the last
    [max_lines] lines of what it read, or all of them when there are
    fewer, joined by newlines.  With [max_lines = 0] it returns all the
    lines, not none.  When there is no pipe or reading it fails, it
    returns what the empty string gives. *)
Theorem tail_stderr_last_lines :
  forall str_strip str_splitlines stderr max_lines,
    let text := match stderr with Some (Ok t) => t | _ => EmptyString end in
    let lines := str_splitlines (str_strip text) in
    (0 < max_lines ->
     tail_stderr str_strip str_splitlines stderr max_lines
     = str_join newline (lastn (Z.to_nat max_lines) lines)
     /\ (List.length (lastn (Z.to_nat max_lines) lines)
         = Nat.min (Z.to_nat max_lines) (List.length lines))
     /\ exists skipped, lines = skipped ++ lastn (Z.to_nat max_lines) lines)
    /\ (max_lines = 0 ->
        tail_stderr str_strip str_splitlines stderr max_lines
        = str_join newline lines).
Proof.
  intros str_strip str_splitlines stderr max_lines text lines.
  assert (T : tail_stderr str_strip str_splitlines stderr max_lines
              = str_join newline (slice_from (- max_lines) lines)).
  { unfold tail_stderr.
    replace (match stderr with
             | Some (Ok text0) => text0
             | Some (Raise _) => EmptyString
             | None => EmptyString
             end) with text by (unfold text; now destruct stderr as [[]|]).
    fold lines. destruct lines; [|reflexivity].
    unfold slice_from. now rewrite skipn_nil. }
  split.
  - intros P. rewrite T, slice_from_lastn by exact P.
    split; [reflexivity|]. split.
    + unfold lastn. rewrite length_skipn. lia.
    + exists (firstn (List.length lines - Z.to_nat max_lines) lines).
      unfold lastn. now rewrite firstn_skipn.
  - intros ->. rewrite T. unfold slice_from.
    change (- 0 <? 0) with false. cbv iota.
    rewrite Z.min_l by lia. reflexivity.
Qed.

Lemma tail_stderr_last_lines_witness :
  let lines := ["one"; "two"; "three"]%string in
  tail_stderr (fun s => s) (fun _ => lines) (Some (Ok "text"%string)) 2
  = str_join newline (lastn (Z.to_nat 2) lines)
  /\ (List.length (lastn (Z.to_nat 2) lines)
      = Nat.min (Z.to_nat 2) (List.length lines))
  /\ exists skipped, lines = skipped ++ lastn (Z.to_nat 2) lines.
Proof.
  intros lines.
  apply (proj1 (tail_stderr_last_lines (fun s => s) (fun _ => lines)
                  (Some (Ok "text"%string)) 2)).
  reflexivity.
Defined.

(* ================================================================== *)
(** * What ends the loop *)

Lemma list_recording_files_raises output_dir w e w' :
  list_recording_files output_dir w = (Raise e, w') ->
  is_FileNotFoundError e = false /\ w' = w.
Proof.
  intros H. split; [|eapply list_recording_files_world; eauto].
  unfold list_recording_files, try_except, bind, ret, raise in H.
  destruct (os_listdir output_dir w) as [[names|x] w1].
  - destruct (scan output_dir names [] w1) as [[fs0|x] w2]; [discriminate|].
    destruct (is_FileNotFoundError x) eqn:F; [discriminate|].
    now injection H as <- _.
  - destruct (is_FileNotFoundError x) eqn:F; [discriminate|].
    now injection H as <- _.
Qed.

Lemma run_raises json_len e es s w x w' :
  tick json_len e s w = (Raise x, w') ->
  run json_len (e :: es) s w = (Raise x, w').
Proof. intros H. cbn [run]. unfold bind. now rewrite H. Qed.

(** X20. Only a missing file is forgiven when the inventory is taken: if
    [os.stat] of a segment raises anything else, an iteration with a live
    subprocess raises it before the health check, deletes nothing, writes
    no record, and the loop ends there, whatever would have come next. *)
Theorem unreadable_segment_ends_loop :
  forall json_len e rest s w es,
    e_poll e = None ->
    w_root w = OUTPUT_DIR ->
    e_capture e (w_dir w) = Ok es ->
    wf_dir OUTPUT_DIR es ->
    ~ readable es ->
    let t0 := (w_clock w + CHECK_EVERY_SECONDS + e_overrun e)%Q in
    exists x w',
      run json_len (e :: rest) s w = (Raise x, w')
      /\ is_FileNotFoundError x = false
      /\ w_dir w' = Ok es
      /\ new_events w w'
         = [(t0, EvSleep CHECK_EVERY_SECONDS); (t0, EvPoll None)].
Proof.
  intros json_len e rest s w es P R D N U t0.
  set (w1 := woken e w).
  assert (R1 : w_root w1 = OUTPUT_DIR) by exact R.
  assert (D1 : w_dir w1 = Ok es) by exact D.
  destruct (list_recording_files OUTPUT_DIR w1) as [[fs|x] w1'] eqn:L.
  - exfalso. apply U. rewrite <- R1 in L, N.
    pose proof (list_recording_files_world _ _ _ _ L) as ->.
    eapply list_recording_files_readable; eauto.
  - destruct (list_recording_files_raises _ _ _ _ L) as [F ->].
    exists x, w1. split; [|split; [exact F|split; [exact D1|]]].
    + apply run_raises. rewrite tick_eq, P. fold w1.
      unfold evaluate, bind at 1, newest_recording_mtime, bind.
      now rewrite L.
    + apply new_events_app. unfold w1, woken. cbn [w_trace].
      rewrite P, <- app_assoc. reflexivity.
Qed.

Lemma unreadable_segment_ends_loop_witness :
  let t0 := (w_clock unreadable_recordings + CHECK_EVERY_SECONDS
             + e_overrun alive_env)%Q in
  exists x w',
    run plain_json_len [alive_env; punctual_env] start_locals
        unreadable_recordings
    = (Raise x, w')
    /\ is_FileNotFoundError x = false
    /\ w_dir w' = w_dir unreadable_recordings
    /\ new_events unreadable_recordings w'
       = [(t0, EvSleep CHECK_EVERY_SECONDS); (t0, EvPoll None)].
Proof.
  apply (unreadable_segment_ends_loop plain_json_len alive_env [punctual_env]
           start_locals unreadable_recordings).
  - reflexivity.
  - reflexivity.
  - reflexivity.
  - unfold wf_dir. vm_compute.
    repeat (constructor; [simpl; intuition discriminate|]). constructor.
  - intros R.
    specialize (R (mkDirent "b.mp4" (Raise PermissionError) None)
                  PermissionError).
    assert (is_FileNotFoundError PermissionError = true)
      by (apply R; [right; now left|reflexivity|reflexivity]).
    discriminate.
Defined.

(** X21. When the subprocess has exited and the status file cannot be
    written, because the directory is gone or cannot be opened, the
    iteration raises at the write: there is no backoff sleep and no new
    subprocess, and the loop ends there. *)
Theorem failed_report_prevents_restart :
  forall json_len e rest s w rc x,
    e_poll e = Some rc ->
    e_capture e (w_dir w) = Raise x ->
    let t0 := (w_clock w + CHECK_EVERY_SECONDS + e_overrun e)%Q in
    exists y w',
      run json_len (e :: rest) s w = (Raise y, w')
      /\ (w_root w = OUTPUT_DIR -> y = x)
      /\ new_events w w'
         = [(t0, EvSleep CHECK_EVERY_SECONDS); (t0, EvPoll (Some rc))].
Proof.
  intros json_len e rest s w rc x P D t0.
  set (w1 := woken e w).
  assert (Wr : exists y,
             write_status json_len OUTPUT_DIR
               (death_status (w_clock w1) (e_stderr_tail e)) w1
             = (Raise y, w1)
             /\ (w_root w = OUTPUT_DIR -> y = x)).
  { unfold write_status. cbn [w_root w_dir w1 woken]. rewrite D.
    destruct (String.eqb OUTPUT_DIR (w_root w)) eqn:E.
    - exists x. auto.
    - exists FileNotFoundError. split; [reflexivity|].
      intros R. rewrite R, String.eqb_refl in E. discriminate. }
  destruct Wr as (y & Wr & Y).
  exists y, w1. split; [|split; [exact Y|]].
  - apply run_raises. rewrite tick_eq, P, report_death_eq. fold w1.
    now rewrite Wr.
  - apply new_events_app. unfold w1, woken. cbn [w_trace].
    rewrite P, <- app_assoc. reflexivity.
Qed.

Lemma failed_report_prevents_restart_witness :
  let t0 := (w_clock removed_recordings + CHECK_EVERY_SECONDS
             + e_overrun exited_env)%Q in
  exists y w',
    run plain_json_len [exited_env; alive_env] start_locals removed_recordings
    = (Raise y, w')
    /\ (w_root removed_recordings = OUTPUT_DIR -> y = FileNotFoundError)
    /\ new_events removed_recordings w'
       = [(t0, EvSleep CHECK_EVERY_SECONDS); (t0, EvPoll (Some 1))].
Proof.
  apply (failed_report_prevents_restart plain_json_len exited_env [alive_env]
           start_locals removed_recordings 1 FileNotFoundError);
    reflexivity.
Defined.
